(** * Room coordinator of the chat server (server/index.js)

    A shallow embedding of the socket.io event handlers of [server/index.js]:
    the two process-wide maps [chatRooms] and [connectedUsers], the helper
    functions [transferOwnership] and [removeUserFromRoom], the handlers of
    'create room', 'join', 'chat message', 'leave', 'get rooms' and
    'disconnect', and the two rooms-list senders.

    Conventions of the embedding.
    - A JavaScript [Map] is an association list in insertion order ([JsMap]).
    - A string is held as the bytes of its UTF-8 form; [trim] and
      [toLowerCase] work on its code points, with the white space of
      ECMA-262 and the case tables of Unicode.
    - [new Date()], [generateRoomId()] and the random message id are supplied
      by the environment with the event; one clock reading serves a whole
      handler run.
    - Every handler returns the new state and the list of deliveries
      (recipient socket, outgoing event) in the order they are emitted.
      [console.log] is not modelled.
    - The socket.io server object is modelled by two fields of the state:
      [sockets] (the keys of [io.sockets.sockets]) and [adapter] (which socket
      is in which socket.io room).  The private room every socket has under
      its own id is left out: room ids handed to [io.to] are keys of
      [chatRooms]. *)

From Stdlib Require Import List String Ascii Bool Arith ZArith Lia.
Import ListNotations.

Open Scope string_scope.
Open Scope list_scope.

(* ------------------------------------------------------------------ *)
(** ** JavaScript [Map] with string keys *)

Module JsMap.

Section WithValue.

Variable V : Type.

Definition t := list (string * V).

Definition empty : t := [].

(** [Map.prototype.get]; [None] is [undefined]. *)
Fixpoint get (m : t) (k : string) : option V :=
  match m with
  | [] => None
  | (k', v) :: m' => if String.eqb k' k then Some v else get m' k
  end.

(** [Map.prototype.set]: an existing key keeps its place. *)
Fixpoint set (m : t) (k : string) (v : V) : t :=
  match m with
  | [] => [(k, v)]
  | (k', v') :: m' =>
      if String.eqb k' k then (k, v) :: m' else (k', v') :: set m' k v
  end.

(** [Map.prototype.delete]. *)
Fixpoint delete (m : t) (k : string) : t :=
  match m with
  | [] => []
  | (k', v') :: m' =>
      if String.eqb k' k then delete m' k else (k', v') :: delete m' k
  end.

(** [Array.from(m.values())]. *)
Definition values (m : t) : list V := map snd m.

Definition has (m : t) (k : string) : bool :=
  match get m k with Some _ => true | None => false end.

Definition size (m : t) : nat := List.length m.

End WithValue.

Arguments empty {V}.
Arguments get {V} m k.
Arguments set {V} m k v.
Arguments delete {V} m k.
Arguments values {V} m.
Arguments has {V} m k.
Arguments size {V} m.

End JsMap.

(* ------------------------------------------------------------------ *)
(** ** Strings

    A JavaScript string is a sequence of UTF-16 code units; it is held here
    as the byte string of its UTF-8 form, a code unit that is a surrogate
    without its partner as the three bytes of its own value.  The functions
    of [String.prototype] that look at characters, [trim] and [toLowerCase],
    read the code points off the bytes ([codePoints]), work on them as
    ECMA-262 says and write the result back ([fromCodePoints]).  A byte that
    starts no character is read as U+FFFD. *)

Definition isEmpty (s : string) : bool :=
  match s with EmptyString => true | String _ _ => false end.

(** Falsy for a string value: only the empty string. *)
Definition falsy (s : string) : bool := isEmpty s.

Definition byte (a : ascii) : Z := Z.of_N (N_of_ascii a).

Definition char (b : Z) : ascii := ascii_of_N (Z.to_N b).

Definition isContinuation (b : Z) : bool := (0x80 <=? b)%Z && (b <=? 0xBF)%Z.

Definition decode2 (b0 b1 : Z) : Z := ((b0 - 0xC0) * 64 + (b1 - 0x80))%Z.

Definition decode3 (b0 b1 b2 : Z) : Z :=
  ((b0 - 0xE0) * 4096 + (b1 - 0x80) * 64 + (b2 - 0x80))%Z.

Definition decode4 (b0 b1 b2 b3 : Z) : Z :=
  ((b0 - 0xF0) * 262144 + (b1 - 0x80) * 4096 + (b2 - 0x80) * 64
   + (b3 - 0x80))%Z.

(** The bytes start a character of two, three or four bytes, in its shortest
    form. *)
Definition isTwo (b0 b1 : Z) : bool :=
  (0xC0 <=? b0)%Z && (b0 <? 0xE0)%Z && isContinuation b1
  && (0x80 <=? decode2 b0 b1)%Z.

Definition isThree (b0 b1 b2 : Z) : bool :=
  (0xE0 <=? b0)%Z && (b0 <? 0xF0)%Z && isContinuation b1 && isContinuation b2
  && (0x800 <=? decode3 b0 b1 b2)%Z.

Definition isFour (b0 b1 b2 b3 : Z) : bool :=
  (0xF0 <=? b0)%Z && (b0 <? 0xF8)%Z && isContinuation b1 && isContinuation b2
  && isContinuation b3 && (0x10000 <=? decode4 b0 b1 b2 b3)%Z
  && (decode4 b0 b1 b2 b3 <=? 0x10FFFF)%Z.

(** The code points of a string. *)
Fixpoint codePoints (s : string) : list Z :=
  match s with
  | EmptyString => []
  | String a0 s1 =>
      if (byte a0 <? 0x80)%Z then byte a0 :: codePoints s1
      else
        match s1 with
        | EmptyString => [0xFFFD%Z]
        | String a1 s2 =>
            if isTwo (byte a0) (byte a1) then
              decode2 (byte a0) (byte a1) :: codePoints s2
            else
              match s2 with
              | EmptyString => 0xFFFD%Z :: codePoints s1
              | String a2 s3 =>
                  if isThree (byte a0) (byte a1) (byte a2) then
                    decode3 (byte a0) (byte a1) (byte a2) :: codePoints s3
                  else
                    match s3 with
                    | EmptyString => 0xFFFD%Z :: codePoints s1
                    | String a3 s4 =>
                        if isFour (byte a0) (byte a1) (byte a2) (byte a3) then
                          decode4 (byte a0) (byte a1) (byte a2) (byte a3)
                          :: codePoints s4
                        else 0xFFFD%Z :: codePoints s1
                    end
              end
        end
  end.

(** The bytes of one code point. *)
Definition utf8 (c : Z) : string :=
  if (c <? 0x80)%Z then String (char c) EmptyString
  else if (c <? 0x800)%Z then
    String (char (0xC0 + c / 64)) (String (char (0x80 + c mod 64)) EmptyString)
  else if (c <? 0x10000)%Z then
    String (char (0xE0 + c / 4096))
      (String (char (0x80 + (c / 64) mod 64))
         (String (char (0x80 + c mod 64)) EmptyString))
  else
    String (char (0xF0 + c / 262144))
      (String (char (0x80 + (c / 4096) mod 64))
         (String (char (0x80 + (c / 64) mod 64))
            (String (char (0x80 + c mod 64)) EmptyString))).

(** The string of a list of code points. *)
Fixpoint fromCodePoints (l : list Z) : string :=
  match l with
  | [] => EmptyString
  | c :: l' => utf8 c ++ fromCodePoints l'
  end.

(** WhiteSpace and LineTerminator of ECMA-262: TAB, LF, VT, FF, CR, the
    space separators of Unicode (category Zs), LS, PS and the byte order
    mark. *)
Definition isWhiteSpace (c : Z) : bool :=
  ((0x9 <=? c) && (c <=? 0xD)
   || (c =? 0x20) || (c =? 0xA0) || (c =? 0x1680)
   || (0x2000 <=? c) && (c <=? 0x200A)
   || (c =? 0x2028) || (c =? 0x2029) || (c =? 0x202F) || (c =? 0x205F)
   || (c =? 0x3000) || (c =? 0xFEFF))%Z.

Fixpoint trimStart (l : list Z) : list Z :=
  match l with
  | [] => []
  | c :: l' => if isWhiteSpace c then trimStart l' else l
  end.

Fixpoint trimEnd (l : list Z) : list Z :=
  match l with
  | [] => []
  | c :: l' =>
      match trimEnd l' with
      | [] => if isWhiteSpace c then [] else [c]
      | c' :: t => c :: c' :: t
      end
  end.

(** [String.prototype.trim]. *)
Definition trim (s : string) : string :=
  fromCodePoints (trimEnd (trimStart (codePoints s))).

(** The lower case mappings of UnicodeData.txt (Unicode 14.0): a code point
    [c] with [first <= c <= last] at a multiple of [step] from [first] has
    the lower case form [c + delta]. *)
Definition lowerCaseTable : list (Z * Z * Z * Z) :=
  [
   (0x41, 0x5A, 1, 32); (0xC0, 0xD6, 1, 32); (0xD8, 0xDE, 1, 32);
   (0x100, 0x12E, 2, 1); (0x132, 0x136, 2, 1); (0x139, 0x147, 2, 1);
   (0x14A, 0x176, 2, 1); (0x178, 0x178, 1, (-121)); (0x179, 0x17D, 2, 1);
   (0x181, 0x181, 1, 210); (0x182, 0x184, 2, 1); (0x186, 0x186, 1, 206);
   (0x187, 0x187, 1, 1); (0x189, 0x18A, 1, 205); (0x18B, 0x18B, 1, 1);
   (0x18E, 0x18E, 1, 79); (0x18F, 0x18F, 1, 202); (0x190, 0x190, 1, 203);
   (0x191, 0x191, 1, 1); (0x193, 0x193, 1, 205); (0x194, 0x194, 1, 207);
   (0x196, 0x196, 1, 211); (0x197, 0x197, 1, 209); (0x198, 0x198, 1, 1);
   (0x19C, 0x19C, 1, 211); (0x19D, 0x19D, 1, 213); (0x19F, 0x19F, 1, 214);
   (0x1A0, 0x1A4, 2, 1); (0x1A6, 0x1A6, 1, 218); (0x1A7, 0x1A7, 1, 1);
   (0x1A9, 0x1A9, 1, 218); (0x1AC, 0x1AC, 1, 1); (0x1AE, 0x1AE, 1, 218);
   (0x1AF, 0x1AF, 1, 1); (0x1B1, 0x1B2, 1, 217); (0x1B3, 0x1B5, 2, 1);
   (0x1B7, 0x1B7, 1, 219); (0x1B8, 0x1B8, 1, 1); (0x1BC, 0x1BC, 1, 1);
   (0x1C4, 0x1C4, 1, 2); (0x1C5, 0x1C5, 1, 1); (0x1C7, 0x1C7, 1, 2);
   (0x1C8, 0x1C8, 1, 1); (0x1CA, 0x1CA, 1, 2); (0x1CB, 0x1DB, 2, 1);
   (0x1DE, 0x1EE, 2, 1); (0x1F1, 0x1F1, 1, 2); (0x1F2, 0x1F4, 2, 1);
   (0x1F6, 0x1F6, 1, (-97)); (0x1F7, 0x1F7, 1, (-56)); (0x1F8, 0x21E, 2, 1);
   (0x220, 0x220, 1, (-130)); (0x222, 0x232, 2, 1); (0x23A, 0x23A, 1, 10795);
   (0x23B, 0x23B, 1, 1); (0x23D, 0x23D, 1, (-163)); (0x23E, 0x23E, 1, 10792);
   (0x241, 0x241, 1, 1); (0x243, 0x243, 1, (-195)); (0x244, 0x244, 1, 69);
   (0x245, 0x245, 1, 71); (0x246, 0x24E, 2, 1); (0x370, 0x372, 2, 1);
   (0x376, 0x376, 1, 1); (0x37F, 0x37F, 1, 116); (0x386, 0x386, 1, 38);
   (0x388, 0x38A, 1, 37); (0x38C, 0x38C, 1, 64); (0x38E, 0x38F, 1, 63);
   (0x391, 0x3A1, 1, 32); (0x3A3, 0x3AB, 1, 32); (0x3CF, 0x3CF, 1, 8);
   (0x3D8, 0x3EE, 2, 1); (0x3F4, 0x3F4, 1, (-60)); (0x3F7, 0x3F7, 1, 1);
   (0x3F9, 0x3F9, 1, (-7)); (0x3FA, 0x3FA, 1, 1); (0x3FD, 0x3FF, 1, (-130));
   (0x400, 0x40F, 1, 80); (0x410, 0x42F, 1, 32); (0x460, 0x480, 2, 1);
   (0x48A, 0x4BE, 2, 1); (0x4C0, 0x4C0, 1, 15); (0x4C1, 0x4CD, 2, 1);
   (0x4D0, 0x52E, 2, 1); (0x531, 0x556, 1, 48); (0x10A0, 0x10C5, 1, 7264);
   (0x10C7, 0x10C7, 1, 7264); (0x10CD, 0x10CD, 1, 7264); (0x13A0, 0x13EF, 1, 38864);
   (0x13F0, 0x13F5, 1, 8); (0x1C90, 0x1CBA, 1, (-3008)); (0x1CBD, 0x1CBF, 1, (-3008));
   (0x1E00, 0x1E94, 2, 1); (0x1E9E, 0x1E9E, 1, (-7615)); (0x1EA0, 0x1EFE, 2, 1);
   (0x1F08, 0x1F0F, 1, (-8)); (0x1F18, 0x1F1D, 1, (-8)); (0x1F28, 0x1F2F, 1, (-8));
   (0x1F38, 0x1F3F, 1, (-8)); (0x1F48, 0x1F4D, 1, (-8)); (0x1F59, 0x1F5F, 2, (-8));
   (0x1F68, 0x1F6F, 1, (-8)); (0x1F88, 0x1F8F, 1, (-8)); (0x1F98, 0x1F9F, 1, (-8));
   (0x1FA8, 0x1FAF, 1, (-8)); (0x1FB8, 0x1FB9, 1, (-8)); (0x1FBA, 0x1FBB, 1, (-74));
   (0x1FBC, 0x1FBC, 1, (-9)); (0x1FC8, 0x1FCB, 1, (-86)); (0x1FCC, 0x1FCC, 1, (-9));
   (0x1FD8, 0x1FD9, 1, (-8)); (0x1FDA, 0x1FDB, 1, (-100)); (0x1FE8, 0x1FE9, 1, (-8));
   (0x1FEA, 0x1FEB, 1, (-112)); (0x1FEC, 0x1FEC, 1, (-7)); (0x1FF8, 0x1FF9, 1, (-128));
   (0x1FFA, 0x1FFB, 1, (-126)); (0x1FFC, 0x1FFC, 1, (-9)); (0x2126, 0x2126, 1, (-7517));
   (0x212A, 0x212A, 1, (-8383)); (0x212B, 0x212B, 1, (-8262)); (0x2132, 0x2132, 1, 28);
   (0x2160, 0x216F, 1, 16); (0x2183, 0x2183, 1, 1); (0x24B6, 0x24CF, 1, 26);
   (0x2C00, 0x2C2F, 1, 48); (0x2C60, 0x2C60, 1, 1); (0x2C62, 0x2C62, 1, (-10743));
   (0x2C63, 0x2C63, 1, (-3814)); (0x2C64, 0x2C64, 1, (-10727)); (0x2C67, 0x2C6B, 2, 1);
   (0x2C6D, 0x2C6D, 1, (-10780)); (0x2C6E, 0x2C6E, 1, (-10749)); (0x2C6F, 0x2C6F, 1, (-10783));
   (0x2C70, 0x2C70, 1, (-10782)); (0x2C72, 0x2C72, 1, 1); (0x2C75, 0x2C75, 1, 1);
   (0x2C7E, 0x2C7F, 1, (-10815)); (0x2C80, 0x2CE2, 2, 1); (0x2CEB, 0x2CED, 2, 1);
   (0x2CF2, 0x2CF2, 1, 1); (0xA640, 0xA66C, 2, 1); (0xA680, 0xA69A, 2, 1);
   (0xA722, 0xA72E, 2, 1); (0xA732, 0xA76E, 2, 1); (0xA779, 0xA77B, 2, 1);
   (0xA77D, 0xA77D, 1, (-35332)); (0xA77E, 0xA786, 2, 1); (0xA78B, 0xA78B, 1, 1);
   (0xA78D, 0xA78D, 1, (-42280)); (0xA790, 0xA792, 2, 1); (0xA796, 0xA7A8, 2, 1);
   (0xA7AA, 0xA7AA, 1, (-42308)); (0xA7AB, 0xA7AB, 1, (-42319)); (0xA7AC, 0xA7AC, 1, (-42315));
   (0xA7AD, 0xA7AD, 1, (-42305)); (0xA7AE, 0xA7AE, 1, (-42308)); (0xA7B0, 0xA7B0, 1, (-42258));
   (0xA7B1, 0xA7B1, 1, (-42282)); (0xA7B2, 0xA7B2, 1, (-42261)); (0xA7B3, 0xA7B3, 1, 928);
   (0xA7B4, 0xA7C2, 2, 1); (0xA7C4, 0xA7C4, 1, (-48)); (0xA7C5, 0xA7C5, 1, (-42307));
   (0xA7C6, 0xA7C6, 1, (-35384)); (0xA7C7, 0xA7C9, 2, 1); (0xA7D0, 0xA7D0, 1, 1);
   (0xA7D6, 0xA7D8, 2, 1); (0xA7F5, 0xA7F5, 1, 1); (0xFF21, 0xFF3A, 1, 32);
   (0x10400, 0x10427, 1, 40); (0x104B0, 0x104D3, 1, 40); (0x10570, 0x1057A, 1, 39);
   (0x1057C, 0x1058A, 1, 39); (0x1058C, 0x10592, 1, 39); (0x10594, 0x10595, 1, 39);
   (0x10C80, 0x10CB2, 1, 64); (0x118A0, 0x118BF, 1, 32); (0x16E40, 0x16E5F, 1, 32);
   (0x1E900, 0x1E921, 1, 34)
  ]%Z.

(** The code points with the property Cased (Unicode 14.0), as ranges. *)
Definition casedTable : list (Z * Z) :=
  [
   (0x41, 0x5A); (0x61, 0x7A); (0xAA, 0xAA); (0xB5, 0xB5);
   (0xBA, 0xBA); (0xC0, 0xD6); (0xD8, 0xF6); (0xF8, 0x1BA);
   (0x1BC, 0x1BF); (0x1C4, 0x293); (0x295, 0x2B8); (0x2C0, 0x2C1);
   (0x2E0, 0x2E4); (0x345, 0x345); (0x370, 0x373); (0x376, 0x377);
   (0x37A, 0x37D); (0x37F, 0x37F); (0x386, 0x386); (0x388, 0x38A);
   (0x38C, 0x38C); (0x38E, 0x3A1); (0x3A3, 0x3F5); (0x3F7, 0x481);
   (0x48A, 0x52F); (0x531, 0x556); (0x560, 0x588); (0x10A0, 0x10C5);
   (0x10C7, 0x10C7); (0x10CD, 0x10CD); (0x10D0, 0x10FA); (0x10FD, 0x10FF);
   (0x13A0, 0x13F5); (0x13F8, 0x13FD); (0x1C80, 0x1C88); (0x1C90, 0x1CBA);
   (0x1CBD, 0x1CBF); (0x1D00, 0x1DBF); (0x1E00, 0x1F15); (0x1F18, 0x1F1D);
   (0x1F20, 0x1F45); (0x1F48, 0x1F4D); (0x1F50, 0x1F57); (0x1F59, 0x1F59);
   (0x1F5B, 0x1F5B); (0x1F5D, 0x1F5D); (0x1F5F, 0x1F7D); (0x1F80, 0x1FB4);
   (0x1FB6, 0x1FBC); (0x1FBE, 0x1FBE); (0x1FC2, 0x1FC4); (0x1FC6, 0x1FCC);
   (0x1FD0, 0x1FD3); (0x1FD6, 0x1FDB); (0x1FE0, 0x1FEC); (0x1FF2, 0x1FF4);
   (0x1FF6, 0x1FFC); (0x2071, 0x2071); (0x207F, 0x207F); (0x2090, 0x209C);
   (0x2102, 0x2102); (0x2107, 0x2107); (0x210A, 0x2113); (0x2115, 0x2115);
   (0x2119, 0x211D); (0x2124, 0x2124); (0x2126, 0x2126); (0x2128, 0x2128);
   (0x212A, 0x212D); (0x212F, 0x2134); (0x2139, 0x2139); (0x213C, 0x213F);
   (0x2145, 0x2149); (0x214E, 0x214E); (0x2160, 0x217F); (0x2183, 0x2184);
   (0x24B6, 0x24E9); (0x2C00, 0x2CE4); (0x2CEB, 0x2CEE); (0x2CF2, 0x2CF3);
   (0x2D00, 0x2D25); (0x2D27, 0x2D27); (0x2D2D, 0x2D2D); (0xA640, 0xA66D);
   (0xA680, 0xA69D); (0xA722, 0xA787); (0xA78B, 0xA78E); (0xA790, 0xA7CA);
   (0xA7D0, 0xA7D1); (0xA7D3, 0xA7D3); (0xA7D5, 0xA7D9); (0xA7F5, 0xA7F6);
   (0xA7F8, 0xA7FA); (0xAB30, 0xAB5A); (0xAB5C, 0xAB68); (0xAB70, 0xABBF);
   (0xFB00, 0xFB06); (0xFB13, 0xFB17); (0xFF21, 0xFF3A); (0xFF41, 0xFF5A);
   (0x10400, 0x1044F); (0x104B0, 0x104D3); (0x104D8, 0x104FB); (0x10570, 0x1057A);
   (0x1057C, 0x1058A); (0x1058C, 0x10592); (0x10594, 0x10595); (0x10597, 0x105A1);
   (0x105A3, 0x105B1); (0x105B3, 0x105B9); (0x105BB, 0x105BC); (0x10780, 0x10780);
   (0x10783, 0x10785); (0x10787, 0x107B0); (0x107B2, 0x107BA); (0x10C80, 0x10CB2);
   (0x10CC0, 0x10CF2); (0x118A0, 0x118DF); (0x16E40, 0x16E7F); (0x1D400, 0x1D454);
   (0x1D456, 0x1D49C); (0x1D49E, 0x1D49F); (0x1D4A2, 0x1D4A2); (0x1D4A5, 0x1D4A6);
   (0x1D4A9, 0x1D4AC); (0x1D4AE, 0x1D4B9); (0x1D4BB, 0x1D4BB); (0x1D4BD, 0x1D4C3);
   (0x1D4C5, 0x1D505); (0x1D507, 0x1D50A); (0x1D50D, 0x1D514); (0x1D516, 0x1D51C);
   (0x1D51E, 0x1D539); (0x1D53B, 0x1D53E); (0x1D540, 0x1D544); (0x1D546, 0x1D546);
   (0x1D54A, 0x1D550); (0x1D552, 0x1D6A5); (0x1D6A8, 0x1D6C0); (0x1D6C2, 0x1D6DA);
   (0x1D6DC, 0x1D6FA); (0x1D6FC, 0x1D714); (0x1D716, 0x1D734); (0x1D736, 0x1D74E);
   (0x1D750, 0x1D76E); (0x1D770, 0x1D788); (0x1D78A, 0x1D7A8); (0x1D7AA, 0x1D7C2);
   (0x1D7C4, 0x1D7CB); (0x1DF00, 0x1DF09); (0x1DF0B, 0x1DF1E); (0x1E900, 0x1E943);
   (0x1F130, 0x1F149); (0x1F150, 0x1F169); (0x1F170, 0x1F189)
  ]%Z.

(** The code points with the property Case_Ignorable (Unicode 14.0). *)
Definition caseIgnorableTable : list (Z * Z) :=
  [
   (0x27, 0x27); (0x2E, 0x2E); (0x3A, 0x3A); (0x5E, 0x5E);
   (0x60, 0x60); (0xA8, 0xA8); (0xAD, 0xAD); (0xAF, 0xAF);
   (0xB4, 0xB4); (0xB7, 0xB8); (0x2B0, 0x36F); (0x374, 0x375);
   (0x37A, 0x37A); (0x384, 0x385); (0x387, 0x387); (0x483, 0x489);
   (0x559, 0x559); (0x55F, 0x55F); (0x591, 0x5BD); (0x5BF, 0x5BF);
   (0x5C1, 0x5C2); (0x5C4, 0x5C5); (0x5C7, 0x5C7); (0x5F4, 0x5F4);
   (0x600, 0x605); (0x610, 0x61A); (0x61C, 0x61C); (0x640, 0x640);
   (0x64B, 0x65F); (0x670, 0x670); (0x6D6, 0x6DD); (0x6DF, 0x6E8);
   (0x6EA, 0x6ED); (0x70F, 0x70F); (0x711, 0x711); (0x730, 0x74A);
   (0x7A6, 0x7B0); (0x7EB, 0x7F5); (0x7FA, 0x7FA); (0x7FD, 0x7FD);
   (0x816, 0x82D); (0x859, 0x85B); (0x888, 0x888); (0x890, 0x891);
   (0x898, 0x89F); (0x8C9, 0x902); (0x93A, 0x93A); (0x93C, 0x93C);
   (0x941, 0x948); (0x94D, 0x94D); (0x951, 0x957); (0x962, 0x963);
   (0x971, 0x971); (0x981, 0x981); (0x9BC, 0x9BC); (0x9C1, 0x9C4);
   (0x9CD, 0x9CD); (0x9E2, 0x9E3); (0x9FE, 0x9FE); (0xA01, 0xA02);
   (0xA3C, 0xA3C); (0xA41, 0xA42); (0xA47, 0xA48); (0xA4B, 0xA4D);
   (0xA51, 0xA51); (0xA70, 0xA71); (0xA75, 0xA75); (0xA81, 0xA82);
   (0xABC, 0xABC); (0xAC1, 0xAC5); (0xAC7, 0xAC8); (0xACD, 0xACD);
   (0xAE2, 0xAE3); (0xAFA, 0xAFF); (0xB01, 0xB01); (0xB3C, 0xB3C);
   (0xB3F, 0xB3F); (0xB41, 0xB44); (0xB4D, 0xB4D); (0xB55, 0xB56);
   (0xB62, 0xB63); (0xB82, 0xB82); (0xBC0, 0xBC0); (0xBCD, 0xBCD);
   (0xC00, 0xC00); (0xC04, 0xC04); (0xC3C, 0xC3C); (0xC3E, 0xC40);
   (0xC46, 0xC48); (0xC4A, 0xC4D); (0xC55, 0xC56); (0xC62, 0xC63);
   (0xC81, 0xC81); (0xCBC, 0xCBC); (0xCBF, 0xCBF); (0xCC6, 0xCC6);
   (0xCCC, 0xCCD); (0xCE2, 0xCE3); (0xD00, 0xD01); (0xD3B, 0xD3C);
   (0xD41, 0xD44); (0xD4D, 0xD4D); (0xD62, 0xD63); (0xD81, 0xD81);
   (0xDCA, 0xDCA); (0xDD2, 0xDD4); (0xDD6, 0xDD6); (0xE31, 0xE31);
   (0xE34, 0xE3A); (0xE46, 0xE4E); (0xEB1, 0xEB1); (0xEB4, 0xEBC);
   (0xEC6, 0xEC6); (0xEC8, 0xECD); (0xF18, 0xF19); (0xF35, 0xF35);
   (0xF37, 0xF37); (0xF39, 0xF39); (0xF71, 0xF7E); (0xF80, 0xF84);
   (0xF86, 0xF87); (0xF8D, 0xF97); (0xF99, 0xFBC); (0xFC6, 0xFC6);
   (0x102D, 0x1030); (0x1032, 0x1037); (0x1039, 0x103A); (0x103D, 0x103E);
   (0x1058, 0x1059); (0x105E, 0x1060); (0x1071, 0x1074); (0x1082, 0x1082);
   (0x1085, 0x1086); (0x108D, 0x108D); (0x109D, 0x109D); (0x10FC, 0x10FC);
   (0x135D, 0x135F); (0x1712, 0x1714); (0x1732, 0x1733); (0x1752, 0x1753);
   (0x1772, 0x1773); (0x17B4, 0x17B5); (0x17B7, 0x17BD); (0x17C6, 0x17C6);
   (0x17C9, 0x17D3); (0x17D7, 0x17D7); (0x17DD, 0x17DD); (0x180B, 0x180F);
   (0x1843, 0x1843); (0x1885, 0x1886); (0x18A9, 0x18A9); (0x1920, 0x1922);
   (0x1927, 0x1928); (0x1932, 0x1932); (0x1939, 0x193B); (0x1A17, 0x1A18);
   (0x1A1B, 0x1A1B); (0x1A56, 0x1A56); (0x1A58, 0x1A5E); (0x1A60, 0x1A60);
   (0x1A62, 0x1A62); (0x1A65, 0x1A6C); (0x1A73, 0x1A7C); (0x1A7F, 0x1A7F);
   (0x1AA7, 0x1AA7); (0x1AB0, 0x1ACE); (0x1B00, 0x1B03); (0x1B34, 0x1B34);
   (0x1B36, 0x1B3A); (0x1B3C, 0x1B3C); (0x1B42, 0x1B42); (0x1B6B, 0x1B73);
   (0x1B80, 0x1B81); (0x1BA2, 0x1BA5); (0x1BA8, 0x1BA9); (0x1BAB, 0x1BAD);
   (0x1BE6, 0x1BE6); (0x1BE8, 0x1BE9); (0x1BED, 0x1BED); (0x1BEF, 0x1BF1);
   (0x1C2C, 0x1C33); (0x1C36, 0x1C37); (0x1C78, 0x1C7D); (0x1CD0, 0x1CD2);
   (0x1CD4, 0x1CE0); (0x1CE2, 0x1CE8); (0x1CED, 0x1CED); (0x1CF4, 0x1CF4);
   (0x1CF8, 0x1CF9); (0x1D2C, 0x1D6A); (0x1D78, 0x1D78); (0x1D9B, 0x1DFF);
   (0x1FBD, 0x1FBD); (0x1FBF, 0x1FC1); (0x1FCD, 0x1FCF); (0x1FDD, 0x1FDF);
   (0x1FED, 0x1FEF); (0x1FFD, 0x1FFE); (0x200B, 0x200F); (0x2018, 0x2019);
   (0x2024, 0x2024); (0x2027, 0x2027); (0x202A, 0x202E); (0x2060, 0x2064);
   (0x2066, 0x206F); (0x2071, 0x2071); (0x207F, 0x207F); (0x2090, 0x209C);
   (0x20D0, 0x20F0); (0x2C7C, 0x2C7D); (0x2CEF, 0x2CF1); (0x2D6F, 0x2D6F);
   (0x2D7F, 0x2D7F); (0x2DE0, 0x2DFF); (0x2E2F, 0x2E2F); (0x3005, 0x3005);
   (0x302A, 0x302D); (0x3031, 0x3035); (0x303B, 0x303B); (0x3099, 0x309E);
   (0x30FC, 0x30FE); (0xA015, 0xA015); (0xA4F8, 0xA4FD); (0xA60C, 0xA60C);
   (0xA66F, 0xA672); (0xA674, 0xA67D); (0xA67F, 0xA67F); (0xA69C, 0xA69F);
   (0xA6F0, 0xA6F1); (0xA700, 0xA721); (0xA770, 0xA770); (0xA788, 0xA78A);
   (0xA7F2, 0xA7F4); (0xA7F8, 0xA7F9); (0xA802, 0xA802); (0xA806, 0xA806);
   (0xA80B, 0xA80B); (0xA825, 0xA826); (0xA82C, 0xA82C); (0xA8C4, 0xA8C5);
   (0xA8E0, 0xA8F1); (0xA8FF, 0xA8FF); (0xA926, 0xA92D); (0xA947, 0xA951);
   (0xA980, 0xA982); (0xA9B3, 0xA9B3); (0xA9B6, 0xA9B9); (0xA9BC, 0xA9BD);
   (0xA9CF, 0xA9CF); (0xA9E5, 0xA9E6); (0xAA29, 0xAA2E); (0xAA31, 0xAA32);
   (0xAA35, 0xAA36); (0xAA43, 0xAA43); (0xAA4C, 0xAA4C); (0xAA70, 0xAA70);
   (0xAA7C, 0xAA7C); (0xAAB0, 0xAAB0); (0xAAB2, 0xAAB4); (0xAAB7, 0xAAB8);
   (0xAABE, 0xAABF); (0xAAC1, 0xAAC1); (0xAADD, 0xAADD); (0xAAEC, 0xAAED);
   (0xAAF3, 0xAAF4); (0xAAF6, 0xAAF6); (0xAB5B, 0xAB5F); (0xAB69, 0xAB6B);
   (0xABE5, 0xABE5); (0xABE8, 0xABE8); (0xABED, 0xABED); (0xFB1E, 0xFB1E);
   (0xFBB2, 0xFBC2); (0xFE00, 0xFE0F); (0xFE13, 0xFE13); (0xFE20, 0xFE2F);
   (0xFE52, 0xFE52); (0xFE55, 0xFE55); (0xFEFF, 0xFEFF); (0xFF07, 0xFF07);
   (0xFF0E, 0xFF0E); (0xFF1A, 0xFF1A); (0xFF3E, 0xFF3E); (0xFF40, 0xFF40);
   (0xFF70, 0xFF70); (0xFF9E, 0xFF9F); (0xFFE3, 0xFFE3); (0xFFF9, 0xFFFB);
   (0x101FD, 0x101FD); (0x102E0, 0x102E0); (0x10376, 0x1037A); (0x10780, 0x10785);
   (0x10787, 0x107B0); (0x107B2, 0x107BA); (0x10A01, 0x10A03); (0x10A05, 0x10A06);
   (0x10A0C, 0x10A0F); (0x10A38, 0x10A3A); (0x10A3F, 0x10A3F); (0x10AE5, 0x10AE6);
   (0x10D24, 0x10D27); (0x10EAB, 0x10EAC); (0x10F46, 0x10F50); (0x10F82, 0x10F85);
   (0x11001, 0x11001); (0x11038, 0x11046); (0x11070, 0x11070); (0x11073, 0x11074);
   (0x1107F, 0x11081); (0x110B3, 0x110B6); (0x110B9, 0x110BA); (0x110BD, 0x110BD);
   (0x110C2, 0x110C2); (0x110CD, 0x110CD); (0x11100, 0x11102); (0x11127, 0x1112B);
   (0x1112D, 0x11134); (0x11173, 0x11173); (0x11180, 0x11181); (0x111B6, 0x111BE);
   (0x111C9, 0x111CC); (0x111CF, 0x111CF); (0x1122F, 0x11231); (0x11234, 0x11234);
   (0x11236, 0x11237); (0x1123E, 0x1123E); (0x112DF, 0x112DF); (0x112E3, 0x112EA);
   (0x11300, 0x11301); (0x1133B, 0x1133C); (0x11340, 0x11340); (0x11366, 0x1136C);
   (0x11370, 0x11374); (0x11438, 0x1143F); (0x11442, 0x11444); (0x11446, 0x11446);
   (0x1145E, 0x1145E); (0x114B3, 0x114B8); (0x114BA, 0x114BA); (0x114BF, 0x114C0);
   (0x114C2, 0x114C3); (0x115B2, 0x115B5); (0x115BC, 0x115BD); (0x115BF, 0x115C0);
   (0x115DC, 0x115DD); (0x11633, 0x1163A); (0x1163D, 0x1163D); (0x1163F, 0x11640);
   (0x116AB, 0x116AB); (0x116AD, 0x116AD); (0x116B0, 0x116B5); (0x116B7, 0x116B7);
   (0x1171D, 0x1171F); (0x11722, 0x11725); (0x11727, 0x1172B); (0x1182F, 0x11837);
   (0x11839, 0x1183A); (0x1193B, 0x1193C); (0x1193E, 0x1193E); (0x11943, 0x11943);
   (0x119D4, 0x119D7); (0x119DA, 0x119DB); (0x119E0, 0x119E0); (0x11A01, 0x11A0A);
   (0x11A33, 0x11A38); (0x11A3B, 0x11A3E); (0x11A47, 0x11A47); (0x11A51, 0x11A56);
   (0x11A59, 0x11A5B); (0x11A8A, 0x11A96); (0x11A98, 0x11A99); (0x11C30, 0x11C36);
   (0x11C38, 0x11C3D); (0x11C3F, 0x11C3F); (0x11C92, 0x11CA7); (0x11CAA, 0x11CB0);
   (0x11CB2, 0x11CB3); (0x11CB5, 0x11CB6); (0x11D31, 0x11D36); (0x11D3A, 0x11D3A);
   (0x11D3C, 0x11D3D); (0x11D3F, 0x11D45); (0x11D47, 0x11D47); (0x11D90, 0x11D91);
   (0x11D95, 0x11D95); (0x11D97, 0x11D97); (0x11EF3, 0x11EF4); (0x13430, 0x13438);
   (0x16AF0, 0x16AF4); (0x16B30, 0x16B36); (0x16B40, 0x16B43); (0x16F4F, 0x16F4F);
   (0x16F8F, 0x16F9F); (0x16FE0, 0x16FE1); (0x16FE3, 0x16FE4); (0x1AFF0, 0x1AFF3);
   (0x1AFF5, 0x1AFFB); (0x1AFFD, 0x1AFFE); (0x1BC9D, 0x1BC9E); (0x1BCA0, 0x1BCA3);
   (0x1CF00, 0x1CF2D); (0x1CF30, 0x1CF46); (0x1D167, 0x1D169); (0x1D173, 0x1D182);
   (0x1D185, 0x1D18B); (0x1D1AA, 0x1D1AD); (0x1D242, 0x1D244); (0x1DA00, 0x1DA36);
   (0x1DA3B, 0x1DA6C); (0x1DA75, 0x1DA75); (0x1DA84, 0x1DA84); (0x1DA9B, 0x1DA9F);
   (0x1DAA1, 0x1DAAF); (0x1E000, 0x1E006); (0x1E008, 0x1E018); (0x1E01B, 0x1E021);
   (0x1E023, 0x1E024); (0x1E026, 0x1E02A); (0x1E130, 0x1E13D); (0x1E2AE, 0x1E2AE);
   (0x1E2EC, 0x1E2EF); (0x1E8D0, 0x1E8D6); (0x1E944, 0x1E94B); (0x1F3FB, 0x1F3FF);
   (0xE0001, 0xE0001); (0xE0020, 0xE007F); (0xE0100, 0xE01EF)
  ]%Z.

Definition inRanges (t : list (Z * Z)) (c : Z) : bool :=
  existsb (fun r => (fst r <=? c)%Z && (c <=? snd r)%Z) t.

Definition isCased (c : Z) : bool := inRanges casedTable c.

Definition isCaseIgnorable (c : Z) : bool := inRanges caseIgnorableTable c.

Fixpoint lookupLower (t : list (Z * Z * Z * Z)) (c : Z) : Z :=
  match t with
  | [] => c
  | (first, last, step, delta) :: t' =>
      if (first <=? c)%Z && (c <=? last)%Z && ((c - first) mod step =? 0)%Z
      then (c + delta)%Z
      else lookupLower t' c
  end.

(** The lower case form of one code point, whatever is around it.  The one
    entry of SpecialCasing.txt that holds in every language is U+0130, which
    becomes two code points. *)
Definition toLowerCodePoint (c : Z) : list Z :=
  if (c =? 0x130)%Z then [0x69; 0x307]%Z else [lookupLower lowerCaseTable c].

(** Past any case-ignorable code points, the next one is a cased letter. *)
Fixpoint casedNext (l : list Z) : bool :=
  match l with
  | [] => false
  | c :: l' => if isCaseIgnorable c then casedNext l' else isCased c
  end.

(** The condition Final_Sigma of SpecialCasing.txt: [before] holds the code
    points in front of the sigma, the nearest first, [after] those behind
    it. *)
Definition finalSigma (before after : list Z) : bool :=
  casedNext before && negb (casedNext after).

(** The lower case form of [l], which [before] precedes (nearest first). *)
Fixpoint toLower (before l : list Z) : list Z :=
  match l with
  | [] => []
  | c :: l' =>
      (if (c =? 0x3A3)%Z then
         [if finalSigma before l' then 0x3C2%Z else 0x3C3%Z]
       else toLowerCodePoint c)
      ++ toLower (c :: before) l'
  end.

(** [String.prototype.toLowerCase]. *)
Definition toLowerCase (s : string) : string :=
  fromCodePoints (toLower [] (codePoints s)).

(** The code points of Unicode. *)
Definition isCodePoint (c : Z) : Prop := (0 <= c <= 0x10FFFF)%Z.

(* ------------------------------------------------------------------ *)
(** ** Data held by the server *)

Definition SocketId := string.
Definition RoomId := string.
(** A [Date], as milliseconds since the epoch. *)
Definition Timestamp := Z.

(** An entry of [room.users]. *)
Record User := mkUser {
  socketId : SocketId;
  nickname : string;
  joinedAt : Timestamp;
  userIsOwner : bool        (* the entry's [isOwner], fixed when it is pushed *)
}.

(** A value of [chatRooms]. *)
Record Room := mkRoom {
  id : RoomId;
  name : string;
  owner : SocketId;
  ownerName : string;
  users : list User;
  createdAt : Timestamp;
  isPrivate : bool
}.

(** A value of [connectedUsers]. *)
Record Session := mkSession {
  username : string;
  room : RoomId;
  isOwner : bool
}.

Definition setUsers (r : Room) (us : list User) : Room :=
  mkRoom (id r) (name r) (owner r) (ownerName r) us (createdAt r) (isPrivate r).

Definition setOwner (r : Room) (o : SocketId) (n : string) : Room :=
  mkRoom (id r) (name r) o n (users r) (createdAt r) (isPrivate r).

Definition setIsOwner (s : Session) (b : bool) : Session :=
  mkSession (username s) (room s) b.

Record State := mkState {
  chatRooms : JsMap.t Room;
  connectedUsers : JsMap.t Session;
  sockets : list SocketId;               (* io.sockets.sockets, connection order *)
  adapter : list (RoomId * SocketId)     (* socket.io rooms, join order *)
}.

Definition withChatRooms (st : State) (m : JsMap.t Room) : State :=
  mkState m (connectedUsers st) (sockets st) (adapter st).

Definition withConnectedUsers (st : State) (m : JsMap.t Session) : State :=
  mkState (chatRooms st) m (sockets st) (adapter st).

Definition withSockets (st : State) (l : list SocketId) : State :=
  mkState (chatRooms st) (connectedUsers st) l (adapter st).

Definition withAdapter (st : State) (a : list (RoomId * SocketId)) : State :=
  mkState (chatRooms st) (connectedUsers st) (sockets st) a.

(** The server right after start: no room, no user, no connection. *)
Definition initial : State := mkState JsMap.empty JsMap.empty [] [].

(* ------------------------------------------------------------------ *)
(** ** Events *)

(** Payload of 'create room'. *)
Record CreateData := mkCreateData {
  c_user : string;
  roomName : string
}.

(** Payload of 'join' and of 'leave'. *)
Record RoomData := mkRoomData {
  d_user : string;
  d_room : RoomId
}.

(** Payload of 'chat message'. *)
Record Msg := mkMsg {
  m_user : string;
  message : string;
  m_room : RoomId;
  m_timestamp : Timestamp
}.

(** A row of the rooms list. *)
Record RoomSummary := mkRoomSummary {
  s_id : RoomId;
  s_name : string;
  s_owner : string;             (* the owner's display name *)
  s_userCount : nat;
  s_users : list string;        (* nicknames *)
  s_createdAt : Timestamp;
  s_isPrivate : bool
}.

(** A row of [room.users] in 'join confirmed'. *)
Record UserView := mkUserView {
  v_nickname : string;
  v_isOwner : bool;
  v_joinedAt : Timestamp
}.

(** What the server emits.  The constant fields [success: true] and
    [type: 'system'] are implied by the constructor. *)
Inductive OutEvent : Type :=
| RoomCreationFailed (error code : string)
| RoomCreated (roomId : RoomId) (roomName ownerNick : string) (isOwner : bool)
    (userCount : nat) (text : string) (timestamp : Timestamp)
| JoinFailed (error code : string)
| UserJoined (user text : string) (timestamp : Timestamp)
| JoinConfirmed (roomId : RoomId) (roomName ownerNick : string) (isOwner : bool)
    (userCount : nat) (members : list UserView) (user text : string)
    (timestamp : Timestamp)
| ErrorEvent (text : string)
| ChatMessageOut (msg : Msg) (msgId : string) (serverTimestamp : Timestamp)
    (sender : SocketId) (isOwner : bool)
| LeaveFailed (error code : string)
| UserLeft (user text : string) (timestamp : Timestamp) (wasOwner : bool)
| OwnershipTransferred (text : string) (roomId : RoomId) (roomName : string)
    (timestamp : Timestamp)
| OwnerChanged (newOwner text : string) (timestamp : Timestamp)
| LeaveConfirmed (roomId : RoomId) (roomName user text : string)
    (roomDeleted : bool) (newOwner : option string) (timestamp : Timestamp)
| RoomsList (rooms : list RoomSummary) (totalRooms : nat) (timestamp : Timestamp).

(** One emitted event reaching one socket. *)
Definition Delivery : Type := SocketId * OutEvent.

(** What a connected client sends. *)
Inductive ClientEvent : Type :=
| CreateRoom (data : CreateData) (generatedId : RoomId)
| Join (data : RoomData)
| ChatMessage (msg : Msg) (generatedId : string)
| Leave (data : RoomData)
| GetRooms.

(** What the server reacts to. *)
Inductive Input : Type :=
| Connection (sid : SocketId)
| FromClient (sid : SocketId) (ev : ClientEvent) (now : Timestamp)
| Disconnect (sid : SocketId) (now : Timestamp).

(* ------------------------------------------------------------------ *)
(** ** The socket.io objects [io] and [socket] *)

Definition pairEqb (p q : RoomId * SocketId) : bool :=
  String.eqb (fst p) (fst q) && String.eqb (snd p) (snd q).

Definition memStr (s : string) (l : list string) : bool :=
  existsb (String.eqb s) l.

(** The sockets in socket.io room [r]. *)
Definition roomSockets (st : State) (r : RoomId) : list SocketId :=
  map snd (filter (fun p => String.eqb (fst p) r) (adapter st)).

(** [socket.join(r)]. *)
Definition socket_join (st : State) (sid : SocketId) (r : RoomId) : State :=
  if existsb (pairEqb (r, sid)) (adapter st) then st
  else withAdapter st (adapter st ++ [(r, sid)]).

(** [socket.leave(r)]. *)
Definition socket_leave (st : State) (sid : SocketId) (r : RoomId) : State :=
  withAdapter st (filter (fun p => negb (pairEqb (r, sid) p)) (adapter st)).

(** [socket.emit(e)]: to this client only. *)
Definition socket_emit (sid : SocketId) (e : OutEvent) : list Delivery :=
  [(sid, e)].

(** [io.emit(e)]: to every connected client. *)
Definition io_emit (st : State) (e : OutEvent) : list Delivery :=
  map (fun s => (s, e)) (sockets st).

(** [io.to(r).emit(e)]: to every client in room [r], the sender too. *)
Definition io_to_emit (st : State) (r : RoomId) (e : OutEvent) : list Delivery :=
  map (fun s => (s, e)) (roomSockets st r).

(** [socket.to(r).emit(e)]: to the clients in room [r] but this one. *)
Definition socket_to_emit (st : State) (sid : SocketId) (r : RoomId)
  (e : OutEvent) : list Delivery :=
  map (fun s => (s, e))
      (filter (fun s => negb (String.eqb s sid)) (roomSockets st r)).

(** What socket.io does to a socket before its 'disconnect' handler runs:
    it leaves all its rooms and is dropped from [io.sockets.sockets]. *)
Definition socket_close (st : State) (sid : SocketId) : State :=
  mkState (chatRooms st) (connectedUsers st)
    (filter (fun s => negb (String.eqb s sid)) (sockets st))
    (filter (fun p => negb (String.eqb (snd p) sid)) (adapter st)).

(* ------------------------------------------------------------------ *)
(** ** Array helpers *)

(** [Array.prototype.findIndex]; [None] is [-1]. *)
Fixpoint findIndex {A : Type} (f : A -> bool) (l : list A) : option nat :=
  match l with
  | [] => None
  | x :: l' =>
      if f x then Some 0
      else match findIndex f l' with
           | Some i => Some (S i)
           | None => None
           end
  end.

(** [l.splice(i, 1)]: the array without its element at index [i]. *)
Fixpoint splice1 {A : Type} (i : nat) (l : list A) : list A :=
  match l, i with
  | [], _ => []
  | _ :: l', 0 => l'
  | x :: l', S j => x :: splice1 j l'
  end.

Definition isSocket (sid : SocketId) (u : User) : bool :=
  String.eqb (socketId u) sid.

(* ------------------------------------------------------------------ *)
(** ** Helper functions of the server *)

(** [transferOwnership(roomId)]: the new owner, or [None] for [null]. *)
Definition transferOwnership (rooms : JsMap.t Room) (roomId : RoomId)
  : JsMap.t Room * option User :=
  match JsMap.get rooms roomId with
  | None => (JsMap.delete rooms roomId, None)
  | Some room =>
      match users room with
      | [] => (JsMap.delete rooms roomId, None)
      | newOwner :: _ =>
          (JsMap.set rooms roomId
             (setOwner room (socketId newOwner) (nickname newOwner)),
           Some newOwner)
      end
  end.

(** [removeUserFromRoom(roomId, socketId)]. *)
Definition removeUserFromRoom (rooms : JsMap.t Room) (roomId : RoomId)
  (sid : SocketId) : JsMap.t Room * bool :=
  match JsMap.get rooms roomId with
  | None => (rooms, false)
  | Some room =>
      match findIndex (isSocket sid) (users room) with
      | None => (rooms, false)
      | Some userIndex =>
          (JsMap.set rooms roomId (setUsers room (splice1 userIndex (users room))),
           true)
      end
  end.

Definition summary (room : Room) : RoomSummary :=
  mkRoomSummary (id room) (name room) (ownerName room) (List.length (users room))
    (map nickname (users room)) (createdAt room) (isPrivate room).

(** The [roomsList] array both senders build. *)
Definition roomsList (st : State) : list RoomSummary :=
  map summary (JsMap.values (chatRooms st)).

(** [broadcastRoomsList()]. *)
Definition broadcastRoomsList (st : State) (now : Timestamp) : list Delivery :=
  io_emit st (RoomsList (roomsList st) (List.length (roomsList st)) now).

(** [sendRoomsListToClient(socket)]. *)
Definition sendRoomsListToClient (st : State) (sid : SocketId) (now : Timestamp)
  : list Delivery :=
  socket_emit sid (RoomsList (roomsList st) (List.length (roomsList st)) now).

(* ------------------------------------------------------------------ *)
(** ** Objects held by reference *)

(** The handlers fetch a room object once and keep using it after the helper
    functions have changed it in place.  [current st roomId rm] is the
    present content of the object [rm] that lives in [chatRooms] under
    [roomId]. *)
Definition current (st : State) (roomId : RoomId) (rm : Room) : Room :=
  match JsMap.get (chatRooms st) roomId with
  | Some r => r
  | None => rm
  end.

(** [const userData = connectedUsers.get(sid); if (userData) userData.isOwner = true]. *)
Definition markOwner (m : JsMap.t Session) (sid : SocketId) : JsMap.t Session :=
  match JsMap.get m sid with
  | Some userData => JsMap.set m sid (setIsOwner userData true)
  | None => m
  end.

(* ------------------------------------------------------------------ *)
(** ** The handlers *)

(** socket.on('create room'). *)
Definition onCreateRoom (st : State) (sid : SocketId) (data : CreateData)
  (roomId : RoomId) (now : Timestamp) : State * list Delivery :=
  if falsy (roomName data) || Nat.eqb (String.length (trim (roomName data))) 0 then
    (st, socket_emit sid
           (RoomCreationFailed "채팅방 이름을 입력해주세요." "INVALID_ROOM_NAME"))
  else if existsb
            (fun rm => String.eqb (toLowerCase (name rm))
                                  (toLowerCase (trim (roomName data))))
            (JsMap.values (chatRooms st)) then
    (st, socket_emit sid
           (RoomCreationFailed "이미 존재하는 채팅방 이름입니다." "ROOM_NAME_EXISTS"))
  else
    let roomName' := trim (roomName data) in
    let newRoom :=
      mkRoom roomId roomName' sid (c_user data)
             [mkUser sid (c_user data) now true] now false in
    let st1 := withChatRooms st (JsMap.set (chatRooms st) roomId newRoom) in
    let st2 := withConnectedUsers st1
                 (JsMap.set (connectedUsers st1) sid
                    (mkSession (c_user data) roomId true)) in
    let st3 := socket_join st2 sid roomId in
    (st3,
     socket_emit sid
       (RoomCreated roomId roomName' (c_user data) true 1
          ("'" ++ roomName' ++ "' 채팅방이 생성되었습니다. 당신이 방장입니다.") now)
     ++ broadcastRoomsList st3 now).

(** The block [if (currentUser && currentUser.room !== data.room) { ... }] of
    'join' (lines 298-304): the socket leaves the room its session names. *)
Definition leaveCurrentRoom (st : State) (sid : SocketId) (target : RoomId)
  : State :=
  match JsMap.get (connectedUsers st) sid with
  | Some currentUser =>
      if negb (String.eqb (room currentUser) target) then
        let st' := socket_leave st sid (room currentUser) in
        withChatRooms st'
          (fst (removeUserFromRoom (chatRooms st') (room currentUser) sid))
      else st
  | None => st
  end.

(** socket.on('join'). *)
Definition onJoin (st : State) (sid : SocketId) (data : RoomData)
  (now : Timestamp) : State * list Delivery :=
  match JsMap.get (chatRooms st) (d_room data) with
  | None =>
      (st, socket_emit sid
             (JoinFailed "존재하지 않는 채팅방입니다." "ROOM_NOT_FOUND"))
  | Some rm =>
      let st1 := leaveCurrentRoom st sid (d_room data) in
      let st2 := withConnectedUsers st1
                   (JsMap.set (connectedUsers st1) sid
                      (mkSession (d_user data) (d_room data)
                                 (String.eqb (owner rm) sid))) in
      (* the object [rm] was not touched above: the room left has another key *)
      let st3 :=
        match findIndex (isSocket sid) (users rm) with
        | None =>
            withChatRooms st2
              (JsMap.set (chatRooms st2) (d_room data)
                 (setUsers rm
                    (users rm ++ [mkUser sid (d_user data) now
                                         (String.eqb (owner rm) sid)])))
        | Some _ => st2
        end in
      let st4 := socket_join st3 sid (d_room data) in
      let rm' := current st4 (d_room data) rm in
      (st4,
       socket_to_emit st4 sid (d_room data)
         (UserJoined (d_user data)
            (d_user data ++ "님이 채팅방에 입장했습니다.") now)
       ++ socket_emit sid
            (JoinConfirmed (d_room data) (name rm') (ownerName rm')
               (String.eqb (owner rm') sid) (List.length (users rm'))
               (map (fun u => mkUserView (nickname u) (userIsOwner u) (joinedAt u))
                    (users rm'))
               (d_user data)
               (name rm' ++ " 채팅방에 성공적으로 입장했습니다.") now)
       ++ broadcastRoomsList st4 now)
  end.

(** socket.on('chat message'). *)
Definition onChatMessage (st : State) (sid : SocketId) (msg : Msg)
  (msgId : string) (now : Timestamp) : State * list Delivery :=
  if falsy (m_user msg) || falsy (message msg) || falsy (m_room msg) then
    (st, socket_emit sid (ErrorEvent "메시지 데이터가 올바르지 않습니다."))
  else
    match JsMap.get (chatRooms st) (m_room msg) with
    | None => (st, socket_emit sid (ErrorEvent "존재하지 않는 채팅방입니다."))
    | Some rm =>
        match find (isSocket sid) (users rm) with
        | None =>
            (st, socket_emit sid (ErrorEvent "채팅방에 입장하지 않은 상태입니다."))
        | Some _ =>
            (st, io_to_emit st (m_room msg)
                   (ChatMessageOut msg msgId now sid (String.eqb (owner rm) sid)))
        end
    end.

(** What the owner's departure leaves behind. *)
Record OwnerGone := mkOwnerGone {
  og_state : State;
  og_out : list Delivery;
  og_newOwner : option User;
  og_roomDeleted : bool
}.

(** The block [if (wasOwner) { ... }] of 'leave' (lines 517-560), which
    'disconnect' repeats (lines 642-684) with [disconnectedUser.room] for
    [data.room]: [st] is the state after [removeUserFromRoom], [rm] the room
    object the handler holds. *)
Definition ownerLeft (st : State) (roomId : RoomId) (rm : Room)
  (now : Timestamp) : OwnerGone :=
  if Nat.ltb 0 (List.length (users (current st roomId rm))) then
    let st1 := withChatRooms st (fst (transferOwnership (chatRooms st) roomId)) in
    match snd (transferOwnership (chatRooms st) roomId) with
    | Some newOwner =>
        let newOwnerSocket := memStr (socketId newOwner) (sockets st1) in
        let out1 :=
          if newOwnerSocket then
            socket_emit (socketId newOwner)
              (OwnershipTransferred "당신이 새로운 방장이 되었습니다."
                 roomId (name rm) now)
          else [] in
        let st2 :=
          if newOwnerSocket then
            withConnectedUsers st1
              (markOwner (connectedUsers st1) (socketId newOwner))
          else st1 in
        mkOwnerGone st2
          (out1 ++ io_to_emit st2 roomId
                     (OwnerChanged (nickname newOwner)
                        (nickname newOwner ++ "님이 새로운 방장이 되었습니다.") now))
          (Some newOwner) false
    | None => mkOwnerGone st1 [] None false
    end
  else
    mkOwnerGone (withChatRooms st (JsMap.delete (chatRooms st) roomId))
      [] None true.

(** The same handler state when the departing socket was not the owner. *)
Definition ownerStays (st : State) : OwnerGone := mkOwnerGone st [] None false.

(** socket.on('leave'). *)
Definition onLeave (st : State) (sid : SocketId) (data : RoomData)
  (now : Timestamp) : State * list Delivery :=
  match JsMap.get (chatRooms st) (d_room data) with
  | None =>
      (st, socket_emit sid
             (LeaveFailed "존재하지 않는 채팅방입니다." "ROOM_NOT_FOUND"))
  | Some rm =>
      let wasOwner := String.eqb (owner rm) sid in
      let st1 := socket_leave st sid (d_room data) in
      let st2 := withChatRooms st1
                   (fst (removeUserFromRoom (chatRooms st1) (d_room data) sid)) in
      let out1 :=
        socket_to_emit st2 sid (d_room data)
          (UserLeft (d_user data)
             (d_user data ++ "님이 채팅방을 나갔습니다.") now wasOwner) in
      let og := if wasOwner then ownerLeft st2 (d_room data) rm now
                else ownerStays st2 in
      let st3 := og_state og in
      let out3 :=
        socket_emit sid
          (LeaveConfirmed (d_room data) (name rm) (d_user data)
             (name rm ++ " 채팅방에서 나갔습니다.")
             (og_roomDeleted og) (option_map nickname (og_newOwner og)) now) in
      let st4 := withConnectedUsers st3
                   (JsMap.delete (connectedUsers st3) sid) in
      (st4, out1 ++ og_out og ++ out3 ++ broadcastRoomsList st4 now)
  end.

(** socket.on('get rooms'). *)
Definition onGetRooms (st : State) (sid : SocketId) (now : Timestamp)
  : State * list Delivery :=
  (st, sendRoomsListToClient st sid now).

(** socket.on('disconnect'), run by socket.io once the socket is closed. *)
Definition onDisconnect (st : State) (sid : SocketId) (now : Timestamp)
  : State * list Delivery :=
  let st0 := socket_close st sid in
  match JsMap.get (connectedUsers st0) sid with
  | None => (st0, [])
  | Some disconnectedUser =>
      match JsMap.get (chatRooms st0) (room disconnectedUser) with
      | None =>
          (withConnectedUsers st0 (JsMap.delete (connectedUsers st0) sid), [])
      | Some rm =>
          let roomId := room disconnectedUser in
          let wasOwner := isOwner disconnectedUser in
          let st1 := withChatRooms st0
                       (fst (removeUserFromRoom (chatRooms st0) roomId sid)) in
          let out1 :=
            socket_to_emit st1 sid roomId
              (UserLeft (username disconnectedUser)
                 (username disconnectedUser ++ "님이 연결을 해제했습니다.")
                 now wasOwner) in
          let og := if wasOwner then ownerLeft st1 roomId rm now
                    else ownerStays st1 in
          let st2 := og_state og in
          let out2 := broadcastRoomsList st2 now in
          (withConnectedUsers st2 (JsMap.delete (connectedUsers st2) sid),
           out1 ++ og_out og ++ out2)
      end
  end.

(* ------------------------------------------------------------------ *)
(** ** The server as a transition system *)

Definition handle (st : State) (sid : SocketId) (ev : ClientEvent)
  (now : Timestamp) : State * list Delivery :=
  match ev with
  | CreateRoom data roomId => onCreateRoom st sid data roomId now
  | Join data => onJoin st sid data now
  | ChatMessage msg msgId => onChatMessage st sid msg msgId now
  | Leave data => onLeave st sid data now
  | GetRooms => onGetRooms st sid now
  end.

(** io.on('connection'): the handlers are registered, nothing is emitted. *)
Definition onConnection (st : State) (sid : SocketId) : State * list Delivery :=
  (withSockets st (sockets st ++ [sid]), []).

Definition step (st : State) (i : Input) : State * list Delivery :=
  match i with
  | Connection sid => onConnection st sid
  | FromClient sid ev now => handle st sid ev now
  | Disconnect sid now => onDisconnect st sid now
  end.

(** The state after a run of inputs. *)
Fixpoint run (st : State) (tr : list Input) : State :=
  match tr with
  | [] => st
  | i :: tr' => run (fst (step st i)) tr'
  end.

(** Socket ids that the server still holds somewhere. *)
Definition knownSocket (st : State) (sid : SocketId) : bool :=
  memStr sid (sockets st)
  || existsb (fun rm => existsb (isSocket sid) (users rm))
             (JsMap.values (chatRooms st)).

(** What the environment guarantees of an input: socket.io gives a new
    connection an id of its own, only connected sockets send events or
    disconnect, and [generateRoomId] returns an id no live room has. *)
Definition admissible (st : State) (i : Input) : bool :=
  match i with
  | Connection sid => negb (knownSocket st sid)
  | FromClient sid (CreateRoom _ roomId) _ =>
      memStr sid (sockets st) && negb (JsMap.has (chatRooms st) roomId)
  | FromClient sid _ _ => memStr sid (sockets st)
  | Disconnect sid _ => memStr sid (sockets st)
  end.

Fixpoint admissibleRun (st : State) (tr : list Input) : bool :=
  match tr with
  | [] => true
  | i :: tr' => admissible st i && admissibleRun (fst (step st i)) tr'
  end.

(** The states the server can be in. *)
Inductive reachable : State -> Prop :=
| reachable_initial : reachable initial
| reachable_step st i :
    reachable st -> admissible st i = true -> reachable (fst (step st i)).

(* ------------------------------------------------------------------ *)
(** ** Notions used in the statements *)

(** The socket ids of a member list, in list order. *)
Definition ids (us : list User) : list SocketId := map socketId us.

(** [us] without its first entry for socket [sid]: what
    [removeUserFromRoom] leaves of [room.users]. *)
Fixpoint dropUser (sid : SocketId) (us : list User) : list User :=
  match us with
  | [] => []
  | u :: us' => if isSocket sid u then us' else u :: dropUser sid us'
  end.

(** Socket [s] has an entry in the member list of the room stored under [r]. *)
Definition member (rooms : JsMap.t Room) (r : RoomId) (s : SocketId) : Prop :=
  exists rm, JsMap.get rooms r = Some rm /\ In s (ids (users rm)).

(** Every stored room satisfies [Q]. *)
Definition allRooms (Q : Room -> Prop) (rooms : JsMap.t Room) : Prop :=
  forall r rm, JsMap.get rooms r = Some rm -> Q rm.

Definition namedRoom (rm : Room) : Prop := name rm <> EmptyString.

Definition distinctUsers (rm : Room) : Prop := NoDup (ids (users rm)).

(** The socket.io rooms mirror the member lists, as far as the members are
    connected. *)
Definition adapterSynced (st : State) : Prop :=
  forall r s,
    In (r, s) (adapter st) <-> In s (sockets st) /\ member (chatRooms st) r s.

(** Only connected sockets have a session. *)
Definition sessionsLive (sessions : JsMap.t Session) (socks : list SocketId)
  : Prop :=
  forall s u, JsMap.get sessions s = Some u -> In s socks.

(** The owner of the room a session names carries the owner flag. *)
Definition ownerFlagged (sessions : JsMap.t Session) (rooms : JsMap.t Room)
  : Prop :=
  forall s u rm,
    JsMap.get sessions s = Some u ->
    JsMap.get rooms (room u) = Some rm ->
    owner rm = s ->
    isOwner u = true.

(** [connectedUsers.delete(sid)], which ends 'leave' and 'disconnect'. *)
Definition dropSession (sid : SocketId) (st : State) : State :=
  withConnectedUsers st (JsMap.delete (connectedUsers st) sid).

(** What holds of every reachable state. *)
Record invariant (st : State) : Prop := mkInvariant {
  inv_names : allRooms namedRoom (chatRooms st);
  inv_users : allRooms distinctUsers (chatRooms st);
  inv_sockets : NoDup (sockets st);
  inv_adapter_nodup : NoDup (adapter st);
  inv_adapter : adapterSynced st;
  inv_sessions : sessionsLive (connectedUsers st) (sockets st);
  inv_flag : ownerFlagged (connectedUsers st) (chatRooms st)
}.

(** The event is a create, join or leave that the server accepts. *)
Definition updatesRooms (st : State) (ev : ClientEvent) : bool :=
  match ev with
  | CreateRoom data _ =>
      negb (falsy (roomName data)
            || Nat.eqb (String.length (trim (roomName data))) 0)
      && negb (existsb
                 (fun rm => String.eqb (toLowerCase (name rm))
                                       (toLowerCase (trim (roomName data))))
                 (JsMap.values (chatRooms st)))
  | Join data => JsMap.has (chatRooms st) (d_room data)
  | Leave data => JsMap.has (chatRooms st) (d_room data)
  | ChatMessage _ _ => false
  | GetRooms => false
  end.

(** The 'rooms list' event built from state [st] at time [now]. *)
Definition roomsListEvent (st : State) (now : Timestamp) : OutEvent :=
  RoomsList (roomsList st) (List.length (roomsList st)) now.

(** What no event changes of a stored room. *)
Definition sameIdentity (rm rm' : Room) : Prop :=
  id rm' = id rm /\ name rm' = name rm /\ createdAt rm' = createdAt rm
  /\ isPrivate rm' = isPrivate rm.

(** The succession rule carried out on room [roomId] (object [rm] before the
    event) when its owner [x] departs at time [now]: the first of the
    remaining members is the new owner; if its socket is connected it is
    sent 'ownership transferred', which nobody else is sent; and every
    remaining member whose socket is connected is sent 'owner changed' with
    the new owner's name. *)
Definition succession (x : SocketId) (roomId : RoomId) (rm : Room)
  (now : Timestamp) (res : State * list Delivery) : Prop :=
  exists newOwner rest rm',
    dropUser x (users rm) = newOwner :: rest
    /\ JsMap.get (chatRooms (fst res)) roomId = Some rm'
    /\ owner rm' = socketId newOwner
    /\ ownerName rm' = nickname newOwner
    /\ users rm' = newOwner :: rest
    /\ sameIdentity rm rm'
    /\ (In (socketId newOwner) (sockets (fst res)) ->
        In (socketId newOwner,
            OwnershipTransferred "당신이 새로운 방장이 되었습니다."
              roomId (name rm) now) (snd res))
    /\ (forall s text r nm t,
          In (s, OwnershipTransferred text r nm t) (snd res) ->
          s = socketId newOwner)
    /\ (forall s, In s (ids (newOwner :: rest)) -> In s (sockets (fst res)) ->
          In (s, OwnerChanged (nickname newOwner)
                   (nickname newOwner ++ "님이 새로운 방장이 되었습니다.") now)
             (snd res)).

(** The rows of a rooms list describe the rooms of a map: one row per room,
    in the order of the map, with the room's id, name, owner's display name,
    number of users, nicknames and creation time. *)
Definition describes (rows : list RoomSummary) (rooms : JsMap.t Room) : Prop :=
  List.length rows = JsMap.size rooms
  /\ forall i rm,
       nth_error (JsMap.values rooms) i = Some rm ->
       exists row,
         nth_error rows i = Some row
         /\ s_id row = id rm
         /\ s_name row = name rm
         /\ s_owner row = ownerName rm
         /\ s_userCount row = List.length (users rm)
         /\ s_users row = map nickname (users rm)
         /\ s_createdAt row = createdAt rm
         /\ s_isPrivate row = isPrivate rm.

(** ** Notions used in the further properties *)

(** The socket an input comes from. *)
Definition actor (i : Input) : SocketId :=
  match i with
  | Connection sid => sid
  | FromClient sid _ _ => sid
  | Disconnect sid _ => sid
  end.

(** The request passes the checks of its handler. *)
Definition accepts (st : State) (sid : SocketId) (ev : ClientEvent) : bool :=
  match ev with
  | CreateRoom _ _ => updatesRooms st ev
  | Join _ => updatesRooms st ev
  | Leave _ => updatesRooms st ev
  | ChatMessage msg _ =>
      negb (falsy (m_user msg) || falsy (message msg) || falsy (m_room msg))
      && match JsMap.get (chatRooms st) (m_room msg) with
         | Some rm => memStr sid (ids (users rm))
         | None => false
         end
  | GetRooms => true
  end.

(** The four events with which the server turns a request down. *)
Definition isFailure (e : OutEvent) : bool :=
  match e with
  | RoomCreationFailed _ _ => true
  | JoinFailed _ _ => true
  | LeaveFailed _ _ => true
  | ErrorEvent _ => true
  | _ => false
  end.

(** Every character of [s] is white space. *)
Definition allWhiteSpace (s : string) : bool :=
  forallb isWhiteSpace (codePoints s).

(** No two stored rooms have the same name up to letter case. *)
Definition uniqueNames (rooms : JsMap.t Room) : Prop :=
  forall r1 r2 rm1 rm2,
    JsMap.get rooms r1 = Some rm1 ->
    JsMap.get rooms r2 = Some rm2 ->
    toLowerCase (name rm1) = toLowerCase (name rm2) ->
    r1 = r2.

(** The room a session names is stored and lists the session's socket. *)
Definition sessionsJoined (st : State) : Prop :=
  forall s u,
    JsMap.get (connectedUsers st) s = Some u ->
    member (chatRooms st) (room u) s.

(** A room is stored under its own id. *)
Definition keyedById (rm : Room) (r : RoomId) : Prop := id rm = r.

(** The object 'create room' stores. *)
Definition createdRoom (sid : SocketId) (data : CreateData) (roomId : RoomId)
  (now : Timestamp) : Room :=
  mkRoom roomId (trim (roomName data)) sid (c_user data)
    [mkUser sid (c_user data) now true] now false.

(** The entry 'join' pushes. *)
Definition joinedUser (sid : SocketId) (data : RoomData) (rm : Room)
  (now : Timestamp) : User :=
  mkUser sid (d_user data) now (String.eqb (owner rm) sid).

(** ** Scenarios *)

Definition sockA : SocketId := "sockA".
Definition sockB : SocketId := "sockB".
Definition sockC : SocketId := "sockC".

(** A, B and C connect; A creates the room Lobby, B and C join it in turn. *)
Definition lobbyRun : list Input :=
  [Connection sockA; Connection sockB; Connection sockC;
   FromClient sockA (CreateRoom (mkCreateData "alice" "Lobby") "room_1") 10%Z;
   FromClient sockB (Join (mkRoomData "bob" "room_1")) 20%Z;
   FromClient sockC (Join (mkRoomData "carol" "room_1")) 30%Z].

Definition lobby : State := run initial lobbyRun.

(** The room object of Lobby in state [lobby]. *)
Definition lobbyRoom : Room :=
  mkRoom "room_1" "Lobby" sockA "alice"
    [mkUser sockA "alice" 10%Z true; mkUser sockB "bob" 20%Z false;
     mkUser sockC "carol" 30%Z false]
    10%Z false.

(** A and B connect and each creates a room; then A, alone in its room and
    its owner, joins B's room. *)
Definition abandonRun : list Input :=
  [Connection sockA; Connection sockB;
   FromClient sockA (CreateRoom (mkCreateData "alice" "One") "room_1") 10%Z;
   FromClient sockB (CreateRoom (mkCreateData "bob" "Two") "room_2") 20%Z].

Definition abandonJoin : Input :=
  FromClient sockA (Join (mkRoomData "alice" "room_2")) 30%Z.

(** A creates a room and B joins it; C creates another room; then A, the
    owner of the first room, joins C's room. *)
Definition moveRun : list Input :=
  [Connection sockA; Connection sockB; Connection sockC;
   FromClient sockA (CreateRoom (mkCreateData "alice" "One") "room_1") 10%Z;
   FromClient sockB (Join (mkRoomData "bob" "room_1")) 20%Z;
   FromClient sockC (CreateRoom (mkCreateData "carol" "Two") "room_2") 30%Z].

Definition moveJoin : Input :=
  FromClient sockA (Join (mkRoomData "alice" "room_2")) 40%Z.

(** A creates room_1 and B joins it; then A creates room_2 without leaving
    room_1, so that its session names room_2. *)
Definition strayRun : list Input :=
  [Connection sockA; Connection sockB;
   FromClient sockA (CreateRoom (mkCreateData "alice" "One") "room_1") 10%Z;
   FromClient sockB (Join (mkRoomData "bob" "room_1")) 20%Z;
   FromClient sockA (CreateRoom (mkCreateData "alice" "Two") "room_2") 30%Z].

Definition stray : State := run initial strayRun.

(** The room object of room_1 in state [stray]. *)
Definition strayRoom : Room :=
  mkRoom "room_1" "One" sockA "alice"
    [mkUser sockA "alice" 10%Z true; mkUser sockB "bob" 20%Z false] 10%Z false.

(** A creates room_1, C and then B join it; C creates room_2 without leaving
    room_1 and disconnects: its entry stays in the member list of room_1. *)
Definition ghostRun : list Input :=
  [Connection sockA; Connection sockB; Connection sockC;
   FromClient sockA (CreateRoom (mkCreateData "alice" "One") "room_1") 10%Z;
   FromClient sockC (Join (mkRoomData "carol" "room_1")) 20%Z;
   FromClient sockB (Join (mkRoomData "bob" "room_1")) 30%Z;
   FromClient sockC (CreateRoom (mkCreateData "carol" "Two") "room_2") 40%Z;
   Disconnect sockC 50%Z].

Definition ghost : State := run initial ghostRun.

(** The room object of room_1 in state [ghost]. *)
Definition ghostRoom : Room :=
  mkRoom "room_1" "One" sockA "alice"
    [mkUser sockA "alice" 10%Z true; mkUser sockC "carol" 20%Z false;
     mkUser sockB "bob" 30%Z false] 10%Z false.

(** A and B connect and A creates the room Café. *)
Definition cafeRun : list Input :=
  [Connection sockA; Connection sockB;
   FromClient sockA (CreateRoom (mkCreateData "alice" "Café") "room_1") 10%Z].

Definition cafe : State := run initial cafeRun.


(** The name Café in capitals, behind a no-break space and in front of an
    ideographic space. *)
Definition cafeName : string := utf8 0xA0 ++ "CAFÉ" ++ utf8 0x3000.

(** After [cafeRun], B asks for a room named like Café in capitals, which is
    turned down, and then creates the room Cafe. *)
Definition cafesRun : list Input :=
  cafeRun
  ++ [FromClient sockB (CreateRoom (mkCreateData "bob" cafeName) "room_2") 20%Z;
      FromClient sockB (CreateRoom (mkCreateData "bob" "Cafe") "room_3") 30%Z].

Definition cafes : State := run initial cafesRun.

(** A no-break space, an en quad and an ideographic space. *)
Definition blankName : string := utf8 0xA0 ++ utf8 0x2000 ++ utf8 0x3000.

(** The state of 'leave' and 'disconnect' once the socket is out of the
    socket.io room and of the member list of [roomId]. *)
Definition leftRoom (st : State) (sid : SocketId) (roomId : RoomId) : State :=
  withChatRooms (socket_leave st sid roomId)
    (fst (removeUserFromRoom (chatRooms st) roomId sid)).

(** The branch on [wasOwner] both handlers take next. *)
Definition departed (st : State) (roomId : RoomId) (rm : Room)
  (now : Timestamp) (wasOwner : bool) : OwnerGone :=
  if wasOwner then ownerLeft st roomId rm now else ownerStays st.

(** 'ownership transferred' and 'owner changed'. *)
Definition isOwnerEvent (e : OutEvent) : bool :=
  match e with
  | OwnershipTransferred _ _ _ _ => true
  | OwnerChanged _ _ _ => true
  | _ => false
  end.

(** The keys of a map, in insertion order. *)
Definition keys {V : Type} (m : JsMap.t V) : list string := map fst m.

(** No key occurs twice in either map of the server. *)
Definition wellKeyed (st : State) : Prop :=
  NoDup (keys (chatRooms st)) /\ NoDup (keys (connectedUsers st)).

(** The input is a 'leave' or a 'disconnect'. *)
Definition isDeparture (i : Input) : bool :=
  match i with
  | FromClient _ (Leave _) _ => true
  | Disconnect _ _ => true
  | _ => false
  end.

(** A has created room_1 and then room_2 without leaving room_1. *)
Definition twoRoomsRun : list Input :=
  [Connection sockA;
   FromClient sockA (CreateRoom (mkCreateData "alice" "One") "room_1") 10%Z;
   FromClient sockA (CreateRoom (mkCreateData "alice" "Two") "room_2") 20%Z].

Definition twoRooms : State := run initial twoRoomsRun.

(* ------------------------------------------------------------------ *)
(** * Lemmas *)

(** ** Strings *)

Lemma byte_range a : (0 <= byte a < 256)%Z.
Proof.
  unfold byte. pose proof (N_ascii_bounded a) as H. lia.
Qed.

Lemma byte_char b : (0 <= b < 256)%Z -> byte (char b) = b.
Proof.
  intros H. unfold byte, char. rewrite N_ascii_embedding by lia. lia.
Qed.

Lemma codePoints_one a0 s :
  (byte a0 <? 0x80)%Z = true ->
  codePoints (String a0 s) = byte a0 :: codePoints s.
Proof. intros H. cbn [codePoints]. now rewrite H. Qed.

Lemma codePoints_two a0 a1 s :
  (byte a0 <? 0x80)%Z = false ->
  isTwo (byte a0) (byte a1) = true ->
  codePoints (String a0 (String a1 s))
  = decode2 (byte a0) (byte a1) :: codePoints s.
Proof. intros H0 H1. cbn [codePoints]. now rewrite H0, H1. Qed.

Lemma codePoints_three a0 a1 a2 s :
  (byte a0 <? 0x80)%Z = false ->
  isTwo (byte a0) (byte a1) = false ->
  isThree (byte a0) (byte a1) (byte a2) = true ->
  codePoints (String a0 (String a1 (String a2 s)))
  = decode3 (byte a0) (byte a1) (byte a2) :: codePoints s.
Proof. intros H0 H1 H2. cbn [codePoints]. now rewrite H0, H1, H2. Qed.

Lemma codePoints_four a0 a1 a2 a3 s :
  (byte a0 <? 0x80)%Z = false ->
  isTwo (byte a0) (byte a1) = false ->
  isThree (byte a0) (byte a1) (byte a2) = false ->
  isFour (byte a0) (byte a1) (byte a2) (byte a3) = true ->
  codePoints (String a0 (String a1 (String a2 (String a3 s))))
  = decode4 (byte a0) (byte a1) (byte a2) (byte a3) :: codePoints s.
Proof. intros H0 H1 H2 H3. cbn [codePoints]. now rewrite H0, H1, H2, H3. Qed.

Ltac bools :=
  repeat match goal with
         | |- (_ && _)%bool = true => apply andb_true_iff; split
         | |- (_ <=? _)%Z = true => apply Z.leb_le
         | |- (_ <? _)%Z = true => apply Z.ltb_lt
         | |- (_ <? _)%Z = false => apply Z.ltb_ge
         | |- (_ <=? _)%Z = false => apply Z.leb_gt
         end.

(** Reading back the bytes of a code point gives the code point. *)
Lemma codePoints_utf8 c s :
  isCodePoint c -> codePoints (utf8 c ++ s) = c :: codePoints s.
Proof.
  unfold isCodePoint, utf8. intros Hc.
  destruct (c <? 0x80)%Z eqn:H1; [|destruct (c <? 0x800)%Z eqn:H2;
    [|destruct (c <? 0x10000)%Z eqn:H3]];
    rewrite ?Z.ltb_lt, ?Z.ltb_ge in *; cbn [append].
  - rewrite codePoints_one; rewrite byte_char by lia; [reflexivity|].
    bools. lia.
  - pose proof (Z.div_mod c 64 ltac:(lia)) as E.
    pose proof (Z.mod_pos_bound c 64 ltac:(lia)) as M.
    assert (D : (2 <= c / 64 < 32)%Z) by lia.
    rewrite codePoints_two; rewrite !byte_char by lia.
    + unfold decode2. f_equal. lia.
    + bools. lia.
    + unfold isTwo, isContinuation, decode2. bools; lia.
  - pose proof (Z.div_mod c 64 ltac:(lia)) as E.
    pose proof (Z.mod_pos_bound c 64 ltac:(lia)) as M.
    pose proof (Z.div_mod (c / 64) 64 ltac:(lia)) as E'.
    pose proof (Z.mod_pos_bound (c / 64) 64 ltac:(lia)) as M'.
    assert (Q : (c / 4096 = c / 64 / 64)%Z)
      by (rewrite Z.div_div by lia; reflexivity).
    assert (D : (0 <= c / 64 / 64 < 16)%Z) by lia.
    rewrite Q.
    rewrite codePoints_three; rewrite !byte_char by lia.
    + unfold decode3. f_equal. lia.
    + bools. lia.
    + unfold isTwo. rewrite !andb_false_iff. left. left. right. bools. lia.
    + unfold isThree, isContinuation, decode3. bools; lia.
  - pose proof (Z.div_mod c 64 ltac:(lia)) as E.
    pose proof (Z.mod_pos_bound c 64 ltac:(lia)) as M.
    pose proof (Z.div_mod (c / 64) 64 ltac:(lia)) as E'.
    pose proof (Z.mod_pos_bound (c / 64) 64 ltac:(lia)) as M'.
    pose proof (Z.div_mod (c / 64 / 64) 64 ltac:(lia)) as E''.
    pose proof (Z.mod_pos_bound (c / 64 / 64) 64 ltac:(lia)) as M''.
    assert (Q : (c / 4096 = c / 64 / 64)%Z)
      by (rewrite Z.div_div by lia; reflexivity).
    assert (Q' : (c / 262144 = c / 64 / 64 / 64)%Z)
      by (rewrite !Z.div_div by lia; reflexivity).
    assert (D : (0 <= c / 64 / 64 / 64 < 5)%Z) by lia.
    rewrite Q, Q'.
    rewrite codePoints_four; rewrite !byte_char by lia.
    + unfold decode4. f_equal. lia.
    + bools. lia.
    + unfold isTwo. rewrite !andb_false_iff. left. left. right. bools. lia.
    + unfold isThree. rewrite !andb_false_iff. left. left. left. right.
      bools. lia.
    + unfold isFour, isContinuation, decode4. bools; lia.
Qed.

Lemma codePoints_valid s : Forall isCodePoint (codePoints s).
Proof.
  assert (Hrep : isCodePoint 0xFFFD) by (unfold isCodePoint; lia).
  assert (H : forall n s, String.length s <= n -> Forall isCodePoint (codePoints s)).
  { induction n as [|n IH]; intros s0 Hlen.
    - destruct s0; [constructor | simpl in Hlen; lia].
    - destruct s0 as [|a0 s1]; [constructor|]. cbn [codePoints].
      simpl in Hlen.
      destruct (byte a0 <? 0x80)%Z eqn:H0.
      { constructor; [|apply IH; lia]. pose proof (byte_range a0).
        unfold isCodePoint. lia. }
      destruct s1 as [|a1 s2]; [now repeat constructor|]. simpl in Hlen.
      destruct (isTwo (byte a0) (byte a1)) eqn:H1.
      { constructor; [|apply IH; lia]. unfold isTwo in H1.
        rewrite !andb_true_iff, !Z.leb_le, !Z.ltb_lt in H1.
        unfold isContinuation in H1. rewrite andb_true_iff, !Z.leb_le in H1.
        unfold isCodePoint, decode2 in *. lia. }
      destruct s2 as [|a2 s3];
        [constructor; [exact Hrep | apply IH; simpl; lia]|].
      simpl in Hlen.
      destruct (isThree (byte a0) (byte a1) (byte a2)) eqn:H2.
      { constructor; [|apply IH; lia]. unfold isThree in H2.
        rewrite !andb_true_iff, !Z.leb_le, !Z.ltb_lt in H2.
        unfold isContinuation in H2. rewrite !andb_true_iff, !Z.leb_le in H2.
        unfold isCodePoint, decode3 in *. lia. }
      destruct s3 as [|a3 s4];
        [constructor; [exact Hrep | apply IH; simpl; lia]|].
      simpl in Hlen.
      destruct (isFour (byte a0) (byte a1) (byte a2) (byte a3)) eqn:H3.
      { constructor; [|apply IH; lia]. unfold isFour in H3.
        rewrite !andb_true_iff, !Z.leb_le in H3.
        unfold isCodePoint in *. lia. }
      constructor; [exact Hrep | apply IH; simpl; lia]. }
  apply (H (String.length s)). lia.
Qed.

Lemma codePoints_fromCodePoints l :
  Forall isCodePoint l -> codePoints (fromCodePoints l) = l.
Proof.
  induction 1 as [|c l Hc Hl IH]; simpl; [reflexivity|].
  now rewrite codePoints_utf8, IH.
Qed.






Lemma trimStart_valid l : Forall isCodePoint l -> Forall isCodePoint (trimStart l).
Proof.
  induction 1 as [|c l Hc Hl IH]; simpl; [constructor|].
  destruct (isWhiteSpace c); auto.
Qed.

Lemma trimEnd_valid l : Forall isCodePoint l -> Forall isCodePoint (trimEnd l).
Proof.
  induction 1 as [|c l Hc Hl IH]; simpl; [constructor|].
  destruct (trimEnd l); [destruct (isWhiteSpace c)|]; auto.
Qed.

Lemma trimEnd_idempotent l : trimEnd (trimEnd l) = trimEnd l.
Proof.
  induction l as [|c l IH]; simpl; auto.
  destruct (trimEnd l) as [|c' t] eqn:E.
  - destruct (isWhiteSpace c) eqn:Hc; simpl; auto. now rewrite Hc.
  - change (trimEnd (c :: c' :: t)) with
      (match trimEnd (c' :: t) with
       | [] => if isWhiteSpace c then [] else [c]
       | c'' :: t' => c :: c'' :: t'
       end).
    now rewrite IH.
Qed.

Lemma trimStart_head l :
  match trimStart l with
  | [] => True
  | c :: _ => isWhiteSpace c = false
  end.
Proof.
  induction l as [|c l IH]; simpl; auto.
  destruct (isWhiteSpace c) eqn:Hc; auto.
Qed.

Lemma trimEnd_head l :
  match l with
  | [] => True
  | c :: _ => isWhiteSpace c = false
  end ->
  match trimEnd l with
  | [] => True
  | c :: _ => isWhiteSpace c = false
  end.
Proof.
  destruct l as [|c l]; simpl; auto.
  intros Hc. destruct (trimEnd l); [now rewrite Hc | exact Hc].
Qed.

Lemma trimStart_fixed l :
  match l with
  | [] => True
  | c :: _ => isWhiteSpace c = false
  end ->
  trimStart l = l.
Proof. destruct l as [|c l]; simpl; auto. now intros ->. Qed.

Lemma trim_idempotent s : trim (trim s) = trim s.
Proof.
  unfold trim.
  rewrite codePoints_fromCodePoints
    by apply trimEnd_valid, trimStart_valid, codePoints_valid.
  rewrite (trimStart_fixed (trimEnd (trimStart (codePoints s)))).
  - now rewrite trimEnd_idempotent.
  - apply trimEnd_head, trimStart_head.
Qed.

(** ** Maps *)

Module JsMapFacts.

Section WithValue.

Context {V : Type}.
Implicit Types (m : JsMap.t V) (k : string) (v : V).

Lemma get_set_eq m k v : JsMap.get (JsMap.set m k v) k = Some v.
Proof.
  induction m as [|[k' v'] m IH]; simpl.
  - now rewrite String.eqb_refl.
  - destruct (String.eqb k' k) eqn:E; simpl.
    + now rewrite String.eqb_refl.
    + now rewrite E.
Qed.

Lemma get_set_neq m k k' v :
  k <> k' -> JsMap.get (JsMap.set m k v) k' = JsMap.get m k'.
Proof.
  intros Hne. induction m as [|[k0 v0] m IH]; simpl.
  - apply String.eqb_neq in Hne. now rewrite Hne.
  - destruct (String.eqb k0 k) eqn:E; simpl.
    + apply String.eqb_eq in E. subst k0.
      apply String.eqb_neq in Hne. now rewrite Hne.
    + now rewrite IH.
Qed.

Lemma get_set m k k' v :
  JsMap.get (JsMap.set m k v) k' =
  if String.eqb k k' then Some v else JsMap.get m k'.
Proof.
  destruct (String.eqb k k') eqn:E.
  - apply String.eqb_eq in E. subst. apply get_set_eq.
  - apply String.eqb_neq in E. now apply get_set_neq.
Qed.

Lemma get_delete_eq m k : JsMap.get (JsMap.delete m k) k = None.
Proof.
  induction m as [|[k' v'] m IH]; simpl; auto.
  destruct (String.eqb k' k) eqn:E; simpl; auto.
  now rewrite E.
Qed.

Lemma get_delete_neq m k k' :
  k <> k' -> JsMap.get (JsMap.delete m k) k' = JsMap.get m k'.
Proof.
  intros Hne. induction m as [|[k0 v0] m IH]; simpl; auto.
  destruct (String.eqb k0 k) eqn:E; simpl.
  - apply String.eqb_eq in E. subst k0.
    apply String.eqb_neq in Hne. now rewrite Hne.
  - now rewrite IH.
Qed.

Lemma get_delete m k k' :
  JsMap.get (JsMap.delete m k) k' =
  if String.eqb k k' then None else JsMap.get m k'.
Proof.
  destruct (String.eqb k k') eqn:E.
  - apply String.eqb_eq in E. subst. apply get_delete_eq.
  - apply String.eqb_neq in E. now apply get_delete_neq.
Qed.

Lemma get_values m k v : JsMap.get m k = Some v -> In v (JsMap.values m).
Proof.
  induction m as [|[k' v'] m IH]; simpl; [discriminate|].
  destruct (String.eqb k' k); intros H.
  - injection H as ->. now left.
  - right. now apply IH.
Qed.

Lemma has_true m k : JsMap.has m k = true <-> exists v, JsMap.get m k = Some v.
Proof.
  unfold JsMap.has. destruct (JsMap.get m k).
  - split; eauto.
  - split; [discriminate | intros [v H]; discriminate].
Qed.

End WithValue.

End JsMapFacts.

Import JsMapFacts.

(** ** Arrays and member lists *)

Lemma memStr_In (s : string) (l : list string) : memStr s l = true <-> In s l.
Proof.
  unfold memStr. rewrite existsb_exists. split.
  - intros [x [Hin Heq]]. apply String.eqb_eq in Heq. now subst.
  - intros Hin. exists s. split; auto. apply String.eqb_refl.
Qed.

Lemma memStr_false (s : string) (l : list string) :
  memStr s l = false <-> ~ In s l.
Proof.
  rewrite <- memStr_In. destruct (memStr s l); split; congruence.
Qed.

Lemma isSocket_true sid u : isSocket sid u = true <-> socketId u = sid.
Proof. unfold isSocket. apply String.eqb_eq. Qed.

Lemma findIndex_None_ids sid us :
  findIndex (isSocket sid) us = None <-> ~ In sid (ids us).
Proof.
  induction us as [|u us IH]; simpl.
  - tauto.
  - destruct (isSocket sid u) eqn:E.
    + apply isSocket_true in E. split; [discriminate | tauto].
    + assert (socketId u <> sid) by (intros H; apply isSocket_true in H; congruence).
      destruct (findIndex (isSocket sid) us).
      * split; [discriminate|]. intros Hn. exfalso. apply Hn. right.
        destruct (in_dec string_dec sid (ids us)); auto. now apply IH in n0.
      * split; auto. intros _ [Hc|Hc]; [congruence|]. now apply IH in Hc.
Qed.

(** [findIndex] followed by [splice] removes the first entry of the socket. *)
Lemma splice_findIndex sid us :
  match findIndex (isSocket sid) us with
  | Some i => splice1 i us
  | None => us
  end = dropUser sid us.
Proof.
  induction us as [|u us IH]; simpl; auto.
  destruct (isSocket sid u); auto.
  destruct (findIndex (isSocket sid) us); simpl; now rewrite <- IH.
Qed.

Lemma find_isSocket sid us :
  (exists u, find (isSocket sid) us = Some u) <-> In sid (ids us).
Proof.
  induction us as [|u us IH]; simpl.
  - split; [intros [u H]; discriminate | tauto].
  - destruct (isSocket sid u) eqn:E.
    + apply isSocket_true in E. split; eauto.
    + rewrite IH. split; auto. intros [Hc|Hc]; auto.
      apply isSocket_true in Hc. congruence.
Qed.

Lemma dropUser_incl sid us s : In s (ids (dropUser sid us)) -> In s (ids us).
Proof.
  induction us as [|u us IH]; simpl; auto.
  destruct (isSocket sid u); simpl; intuition.
Qed.

Lemma dropUser_NoDup sid us : NoDup (ids us) -> NoDup (ids (dropUser sid us)).
Proof.
  induction us as [|u us IH]; simpl; auto.
  intros Hnd. inversion Hnd as [|? ? Hnotin Hnd']; subst.
  destruct (isSocket sid u); simpl; auto.
  constructor; auto. intros Hin. apply Hnotin. eapply dropUser_incl; eauto.
Qed.

Lemma dropUser_In sid us s :
  NoDup (ids us) ->
  (In s (ids (dropUser sid us)) <-> In s (ids us) /\ s <> sid).
Proof.
  induction us as [|u us IH]; simpl.
  - tauto.
  - intros Hnd. inversion Hnd as [|? ? Hnotin Hnd']; subst.
    destruct (isSocket sid u) eqn:E.
    + apply isSocket_true in E. subst sid. split.
      * intros Hin. split; auto. intros ->. tauto.
      * intros [[Heq|Hin] Hne]; congruence.
    + assert (socketId u <> sid)
        by (intros H; apply isSocket_true in H; congruence).
      simpl. rewrite (IH Hnd'). split.
      * intros [Heq|[Hin Hne]]; subst; auto.
      * intros [[Heq|Hin] Hne]; auto.
Qed.

Lemma setUsers_same rm : setUsers rm (users rm) = rm.
Proof. now destruct rm. Qed.

(** ** The helper functions *)

Lemma removeUserFromRoom_get rooms roomId sid r :
  JsMap.get (fst (removeUserFromRoom rooms roomId sid)) r =
  if String.eqb roomId r then
    option_map (fun rm => setUsers rm (dropUser sid (users rm)))
               (JsMap.get rooms roomId)
  else JsMap.get rooms r.
Proof.
  unfold removeUserFromRoom.
  destruct (JsMap.get rooms roomId) as [rm|] eqn:Hget; simpl.
  - pose proof (splice_findIndex sid (users rm)) as Hs.
    destruct (findIndex (isSocket sid) (users rm)) as [i|]; simpl.
    + rewrite get_set. now rewrite Hs.
    + rewrite <- Hs, setUsers_same.
      destruct (String.eqb roomId r) eqn:E; auto.
      apply String.eqb_eq in E. now subst.
  - destruct (String.eqb roomId r) eqn:E; auto.
    apply String.eqb_eq in E. now subst.
Qed.

Lemma transferOwnership_get rooms roomId r :
  JsMap.get (fst (transferOwnership rooms roomId)) r =
  if String.eqb roomId r then
    match JsMap.get rooms roomId with
    | Some rm =>
        match users rm with
        | [] => None
        | newOwner :: _ =>
            Some (setOwner rm (socketId newOwner) (nickname newOwner))
        end
    | None => None
    end
  else JsMap.get rooms r.
Proof.
  unfold transferOwnership.
  destruct (JsMap.get rooms roomId) as [rm|] eqn:Hget; simpl.
  - destruct (users rm) as [|n us]; simpl.
    + apply get_delete.
    + apply get_set.
  - apply get_delete.
Qed.

Lemma transferOwnership_snd rooms roomId :
  snd (transferOwnership rooms roomId) =
  match JsMap.get rooms roomId with
  | Some rm => hd_error (users rm)
  | None => None
  end.
Proof.
  unfold transferOwnership.
  destruct (JsMap.get rooms roomId) as [rm|]; simpl; auto.
  destruct (users rm); auto.
Qed.

(** ** Membership and room-wise properties under the helper functions *)

Lemma eqb_cases (a b : string) :
  (a = b /\ String.eqb a b = true) \/ (a <> b /\ String.eqb a b = false).
Proof.
  destruct (String.eqb a b) eqn:E.
  - left. split; auto. now apply String.eqb_eq.
  - right. split; auto. now apply String.eqb_neq.
Qed.

Lemma member_removeUser rooms roomId sid r s :
  allRooms distinctUsers rooms ->
  (member (fst (removeUserFromRoom rooms roomId sid)) r s <->
   member rooms r s /\ ~ (r = roomId /\ s = sid)).
Proof.
  intros Hnd. unfold member. rewrite removeUserFromRoom_get.
  destruct (eqb_cases roomId r) as [[Heq Hb]|[Heq Hb]]; rewrite Hb.
  - subst r. destruct (JsMap.get rooms roomId) as [rm|] eqn:Hget; simpl.
    + pose proof (dropUser_In sid (users rm) s (Hnd _ _ Hget)) as Hd.
      split.
      * intros [rm' [Hrm' Hin]]. injection Hrm' as <-. simpl in Hin.
        apply Hd in Hin. destruct Hin as [Hin Hne].
        split; [exists rm; auto|]. intros [_ Hs]. auto.
      * intros [[rm' [Hrm' Hin]] Hne]. injection Hrm' as <-.
        eexists. split; [reflexivity|]. simpl. apply Hd. split; auto.
    + split; [intros [rm' [H _]]|intros [[rm' [H _]] _]]; discriminate.
  - split.
    + intros H. split; auto. intros [Hc _]. congruence.
    + tauto.
Qed.

Lemma member_transfer rooms roomId r s :
  member (fst (transferOwnership rooms roomId)) r s <-> member rooms r s.
Proof.
  unfold member. rewrite transferOwnership_get.
  destruct (eqb_cases roomId r) as [[Heq Hb]|[Heq Hb]]; rewrite Hb; [|tauto].
  subst r. destruct (JsMap.get rooms roomId) as [rm|]; [|tauto].
  destruct (users rm) as [|n us] eqn:Hus.
  - split.
    + intros [rm' [H _]]. discriminate.
    + intros [rm' [H Hin]]. injection H as <-. rewrite Hus in Hin. destruct Hin.
  - split.
    + intros [rm' [H Hin]]. injection H as <-. simpl in Hin. eauto.
    + intros [rm' [H Hin]]. injection H as <-.
      eexists. split; [reflexivity|]. exact Hin.
Qed.

Lemma member_delete_empty rooms roomId r s :
  (forall rm, JsMap.get rooms roomId = Some rm -> users rm = []) ->
  (member (JsMap.delete rooms roomId) r s <-> member rooms r s).
Proof.
  intros Hempty. unfold member. rewrite get_delete.
  destruct (eqb_cases roomId r) as [[Heq Hb]|[Heq Hb]]; rewrite Hb; [|tauto].
  subst r. split.
  - intros [rm [H _]]. discriminate.
  - intros [rm [H Hin]]. rewrite (Hempty _ H) in Hin. destruct Hin.
Qed.

Lemma member_set rooms roomId rm' r s :
  member (JsMap.set rooms roomId rm') r s <->
  (r = roomId /\ In s (ids (users rm'))) \/ (r <> roomId /\ member rooms r s).
Proof.
  unfold member. rewrite get_set.
  destruct (eqb_cases roomId r) as [[Heq Hb]|[Heq Hb]]; rewrite Hb.
  - subst r. split.
    + intros [rm [H Hin]]. injection H as <-. auto.
    + intros [[_ Hin]|[Hc _]]; [eauto | congruence].
  - split.
    + intros H. right. split; auto.
    + intros [[Hc _]|[_ H]]; [congruence | auto].
Qed.

Lemma allRooms_removeUser (Q : Room -> Prop) rooms roomId sid :
  (forall rm, Q rm -> Q (setUsers rm (dropUser sid (users rm)))) ->
  allRooms Q rooms ->
  allRooms Q (fst (removeUserFromRoom rooms roomId sid)).
Proof.
  intros HQ Hall r rm. rewrite removeUserFromRoom_get.
  destruct (String.eqb roomId r).
  - destruct (JsMap.get rooms roomId) as [rm0|] eqn:Hget; simpl; [|discriminate].
    intros H. injection H as <-. apply HQ. eapply Hall; eauto.
  - apply Hall.
Qed.

Lemma allRooms_transfer (Q : Room -> Prop) rooms roomId :
  (forall rm o n, Q rm -> Q (setOwner rm o n)) ->
  allRooms Q rooms ->
  allRooms Q (fst (transferOwnership rooms roomId)).
Proof.
  intros HQ Hall r rm. rewrite transferOwnership_get.
  destruct (String.eqb roomId r).
  - destruct (JsMap.get rooms roomId) as [rm0|] eqn:Hget; [|discriminate].
    destruct (users rm0); [discriminate|].
    intros H. injection H as <-. apply HQ. eapply Hall; eauto.
  - apply Hall.
Qed.

Lemma allRooms_delete (Q : Room -> Prop) rooms roomId :
  allRooms Q rooms -> allRooms Q (JsMap.delete rooms roomId).
Proof.
  intros Hall r rm. rewrite get_delete.
  destruct (String.eqb roomId r); [discriminate | apply Hall].
Qed.

Lemma allRooms_set (Q : Room -> Prop) rooms roomId rm' :
  Q rm' -> allRooms Q rooms -> allRooms Q (JsMap.set rooms roomId rm').
Proof.
  intros HQ Hall r rm. rewrite get_set.
  destruct (String.eqb roomId r).
  - intros H. now injection H as <-.
  - apply Hall.
Qed.

Lemma distinctUsers_drop sid rm :
  distinctUsers rm -> distinctUsers (setUsers rm (dropUser sid (users rm))).
Proof. unfold distinctUsers. simpl. apply dropUser_NoDup. Qed.

(** ** The socket.io rooms *)

Lemma pairEqb_true p q : pairEqb p q = true <-> p = q.
Proof.
  unfold pairEqb. destruct p as [a b], q as [c d]; simpl.
  rewrite andb_true_iff, !String.eqb_eq. split.
  - intros [-> ->]. reflexivity.
  - intros H. injection H as -> ->. auto.
Qed.

Lemma pairEqb_false p q : pairEqb p q = false <-> p <> q.
Proof.
  rewrite <- pairEqb_true. destruct (pairEqb p q); split; congruence.
Qed.

Lemma socket_join_chatRooms st sid r :
  chatRooms (socket_join st sid r) = chatRooms st.
Proof. unfold socket_join. now destruct (existsb _ _). Qed.

Lemma socket_join_connectedUsers st sid r :
  connectedUsers (socket_join st sid r) = connectedUsers st.
Proof. unfold socket_join. now destruct (existsb _ _). Qed.

Lemma socket_join_sockets st sid r :
  sockets (socket_join st sid r) = sockets st.
Proof. unfold socket_join. now destruct (existsb _ _). Qed.

Create Rewrite HintDb fields.

#[local] Hint Rewrite socket_join_chatRooms socket_join_connectedUsers
  socket_join_sockets : fields.

Lemma socket_join_In st sid r p :
  In p (adapter (socket_join st sid r)) <-> In p (adapter st) \/ p = (r, sid).
Proof.
  unfold socket_join.
  destruct (existsb (pairEqb (r, sid)) (adapter st)) eqn:E; simpl.
  - apply existsb_exists in E. destruct E as [q [Hin Hq]].
    apply pairEqb_true in Hq. subst q. split; auto.
    intros [H| ->]; auto.
  - rewrite in_app_iff. simpl. intuition.
Qed.

Lemma socket_join_NoDup st sid r :
  NoDup (adapter st) -> NoDup (adapter (socket_join st sid r)).
Proof.
  intros Hnd. unfold socket_join.
  destruct (existsb (pairEqb (r, sid)) (adapter st)) eqn:E; simpl; auto.
  apply NoDup_app; auto.
  - repeat constructor. simpl. tauto.
  - intros p Hin [<-|[]].
    assert (existsb (pairEqb (r, sid)) (adapter st) = true); [|congruence].
    apply existsb_exists. exists (r, sid). split; auto. now apply pairEqb_true.
Qed.

Lemma socket_leave_In st sid r p :
  In p (adapter (socket_leave st sid r)) <-> In p (adapter st) /\ p <> (r, sid).
Proof.
  unfold socket_leave. simpl. rewrite filter_In, negb_true_iff, pairEqb_false.
  intuition.
Qed.

Lemma socket_close_sockets st sid s :
  In s (sockets (socket_close st sid)) <-> In s (sockets st) /\ s <> sid.
Proof.
  unfold socket_close. simpl. rewrite filter_In, negb_true_iff, String.eqb_neq.
  tauto.
Qed.

Lemma socket_close_adapter st sid r s :
  In (r, s) (adapter (socket_close st sid)) <->
  In (r, s) (adapter st) /\ s <> sid.
Proof.
  unfold socket_close. simpl. rewrite filter_In, negb_true_iff, String.eqb_neq.
  tauto.
Qed.

Lemma roomSockets_In st r s : In s (roomSockets st r) <-> In (r, s) (adapter st).
Proof.
  unfold roomSockets. rewrite in_map_iff. split.
  - intros [[r' s'] [Hs Hin]]. simpl in Hs. subst s'.
    apply filter_In in Hin. destruct Hin as [Hin Hr]. simpl in Hr.
    apply String.eqb_eq in Hr. now subst.
  - intros Hin. exists (r, s). split; auto.
    apply filter_In. split; auto. simpl. apply String.eqb_refl.
Qed.

(** ** The owner's departure *)

Lemma markOwner_get m k s :
  JsMap.get (markOwner m k) s =
  if String.eqb k s then option_map (fun u => setIsOwner u true) (JsMap.get m k)
  else JsMap.get m s.
Proof.
  unfold markOwner. destruct (JsMap.get m k) as [u|] eqn:Hget.
  - rewrite get_set. destruct (String.eqb k s); auto.
  - destruct (eqb_cases k s) as [[Heq Hb]|[Heq Hb]]; rewrite Hb; auto.
    now subst.
Qed.

(** The three ways [ownerLeft] can go: the room was empty and is deleted;
    the room is not stored any more; the first remaining member takes over. *)
Lemma ownerLeft_cases st roomId rm now :
  (ownerLeft st roomId rm now =
     mkOwnerGone (withChatRooms st (JsMap.delete (chatRooms st) roomId))
       [] None true
   /\ forall r0, JsMap.get (chatRooms st) roomId = Some r0 -> users r0 = [])
  \/
  (JsMap.get (chatRooms st) roomId = None
   /\ ownerLeft st roomId rm now =
        mkOwnerGone (withChatRooms st (JsMap.delete (chatRooms st) roomId))
          [] None false)
  \/
  (exists r0 n us,
      JsMap.get (chatRooms st) roomId = Some r0
      /\ users r0 = n :: us
      /\ ownerLeft st roomId rm now =
           mkOwnerGone
             (mkState
                (JsMap.set (chatRooms st) roomId
                   (setOwner r0 (socketId n) (nickname n)))
                (if memStr (socketId n) (sockets st)
                 then markOwner (connectedUsers st) (socketId n)
                 else connectedUsers st)
                (sockets st) (adapter st))
             ((if memStr (socketId n) (sockets st)
               then [(socketId n,
                      OwnershipTransferred "당신이 새로운 방장이 되었습니다."
                        roomId (name rm) now)]
               else [])
              ++ map (fun s =>
                        (s, OwnerChanged (nickname n)
                              (nickname n ++ "님이 새로운 방장이 되었습니다.") now))
                     (roomSockets st roomId))
             (Some n) false).
Proof.
  unfold ownerLeft, current, transferOwnership.
  destruct (JsMap.get (chatRooms st) roomId) as [r0|] eqn:Hget.
  - destruct (users r0) as [|n us] eqn:Hus; simpl.
    + left. split; auto. intros r1 H. now injection H as <-.
    + right. right. exists r0, n, us. repeat split; auto.
      destruct (memStr (socketId n) (sockets st)); reflexivity.
  - destruct (Nat.ltb 0 (List.length (users rm))); simpl.
    + right. left. auto.
    + left. split; auto. discriminate.
Qed.

Lemma ownerLeft_sockets st roomId rm now :
  sockets (og_state (ownerLeft st roomId rm now)) = sockets st.
Proof.
  destruct (ownerLeft_cases st roomId rm now)
    as [[-> _]|[[_ ->]|[r0 [n [us [_ [_ ->]]]]]]]; reflexivity.
Qed.

Lemma ownerLeft_adapter st roomId rm now :
  adapter (og_state (ownerLeft st roomId rm now)) = adapter st.
Proof.
  destruct (ownerLeft_cases st roomId rm now)
    as [[-> _]|[[_ ->]|[r0 [n [us [_ [_ ->]]]]]]]; reflexivity.
Qed.

Lemma ownerLeft_member st roomId rm now r s :
  member (chatRooms (og_state (ownerLeft st roomId rm now))) r s <->
  member (chatRooms st) r s.
Proof.
  destruct (ownerLeft_cases st roomId rm now)
    as [[-> He]|[[Hn ->]|[r0 [n [us [Hget [Hus ->]]]]]]]; simpl.
  - now apply member_delete_empty.
  - apply member_delete_empty. intros r0 H. congruence.
  - rewrite member_set. unfold member. split.
    + intros [[-> Hin]|[_ H]]; auto. exists r0. auto.
    + intros [rm' [H Hin]].
      destruct (string_dec r roomId) as [->|Hne].
      * left. split; auto. rewrite Hget in H. now injection H as <-.
      * right. split; eauto.
Qed.

Lemma ownerLeft_allRooms (Q : Room -> Prop) st roomId rm now :
  (forall r0 o n, Q r0 -> Q (setOwner r0 o n)) ->
  allRooms Q (chatRooms st) ->
  allRooms Q (chatRooms (og_state (ownerLeft st roomId rm now))).
Proof.
  intros HQ Hall.
  destruct (ownerLeft_cases st roomId rm now)
    as [[-> He]|[[Hn ->]|[r0 [n [us [Hget [Hus ->]]]]]]]; simpl.
  - now apply allRooms_delete.
  - now apply allRooms_delete.
  - apply allRooms_set; auto. apply HQ. eapply Hall; eauto.
Qed.

Lemma ownerLeft_session st roomId rm now s u' :
  JsMap.get (connectedUsers (og_state (ownerLeft st roomId rm now))) s = Some u' ->
  exists u, JsMap.get (connectedUsers st) s = Some u /\ room u' = room u.
Proof.
  destruct (ownerLeft_cases st roomId rm now)
    as [[-> He]|[[Hn ->]|[r0 [n [us [Hget [Hus ->]]]]]]]; simpl; eauto.
  destruct (memStr (socketId n) (sockets st)); eauto.
  rewrite markOwner_get. destruct (eqb_cases (socketId n) s) as [[Heq Hb]|[Heq Hb]];
    rewrite Hb; eauto.
  subst s. destruct (JsMap.get (connectedUsers st) (socketId n)) as [u|]; simpl.
  - intros H. injection H as <-. eauto.
  - discriminate.
Qed.

(** The owner flag survives the owner's departure, for every socket but the
    departing one [x] (whose session is about to be deleted). *)
Lemma ownerLeft_flag st roomId rm now x :
  (forall s u, JsMap.get (connectedUsers st) s = Some u -> s <> x ->
               In s (sockets st)) ->
  (forall s u r0, s <> x ->
     JsMap.get (connectedUsers st) s = Some u ->
     JsMap.get (chatRooms st) (room u) = Some r0 ->
     owner r0 = s -> isOwner u = true) ->
  forall s u r0, s <> x ->
    JsMap.get (connectedUsers (og_state (ownerLeft st roomId rm now))) s = Some u ->
    JsMap.get (chatRooms (og_state (ownerLeft st roomId rm now))) (room u) = Some r0 ->
    owner r0 = s -> isOwner u = true.
Proof.
  intros Hlive Hflag s u r1 Hsx.
  destruct (ownerLeft_cases st roomId rm now)
    as [[-> He]|[[Hn ->]|[r0 [n [us [Hget [Hus ->]]]]]]]; simpl.
  - rewrite get_delete. destruct (String.eqb roomId (room u)); [discriminate|].
    eauto.
  - rewrite get_delete. destruct (String.eqb roomId (room u)); [discriminate|].
    eauto.
  - rewrite get_set. intros Hs Hr Ho.
    destruct (memStr (socketId n) (sockets st)) eqn:Hmem.
    + rewrite markOwner_get in Hs.
      destruct (eqb_cases (socketId n) s) as [[Heq Hb]|[Heq Hb]];
        rewrite Hb in Hs.
      * destruct (JsMap.get (connectedUsers st) (socketId n)); simpl in Hs;
          [|discriminate].
        injection Hs as <-. reflexivity.
      * destruct (eqb_cases roomId (room u)) as [[Hk Hkb]|[Hk Hkb]];
          rewrite Hkb in Hr.
        -- injection Hr as <-. simpl in Ho. congruence.
        -- eauto.
    + destruct (eqb_cases roomId (room u)) as [[Hk Hkb]|[Hk Hkb]];
        rewrite Hkb in Hr.
      * injection Hr as <-. simpl in Ho.
        apply memStr_false in Hmem. exfalso. apply Hmem.
        rewrite Ho. eapply Hlive; eauto.
      * eauto.
Qed.

(** ** The invariant *)

Lemma In_ids_isSocket sid us :
  In sid (ids us) <-> existsb (isSocket sid) us = true.
Proof.
  rewrite existsb_exists. unfold ids. rewrite in_map_iff. split.
  - intros [u [Hu Hin]]. exists u. split; auto. now apply isSocket_true.
  - intros [u [Hin Hu]]. exists u. split; auto. now apply isSocket_true.
Qed.

Lemma knownSocket_false st sid :
  knownSocket st sid = false ->
  ~ In sid (sockets st) /\ forall r, ~ member (chatRooms st) r sid.
Proof.
  unfold knownSocket. rewrite orb_false_iff. intros [H1 H2]. split.
  - now apply memStr_false.
  - intros r [rm [Hget Hin]].
    assert (existsb (fun rm => existsb (isSocket sid) (users rm))
                    (JsMap.values (chatRooms st)) = true); [|congruence].
    apply existsb_exists. exists rm. split.
    + eapply get_values; eauto.
    + now apply In_ids_isSocket.
Qed.

Lemma invariant_initial : invariant initial.
Proof.
  constructor; simpl.
  - intros r rm H. discriminate.
  - intros r rm H. discriminate.
  - constructor.
  - constructor.
  - intros r s. simpl. split; [tauto|]. intros [[] _].
  - intros s u H. discriminate.
  - intros s u rm H. discriminate.
Qed.

Lemma onConnection_invariant st sid :
  invariant st -> knownSocket st sid = false ->
  invariant (fst (onConnection st sid)).
Proof.
  intros [Hn Hu Hs Han Ha Hl Hf] Hk.
  apply knownSocket_false in Hk. destruct Hk as [Hnew Hnomem].
  constructor; simpl; auto.
  - apply NoDup_app; auto.
    + repeat constructor. simpl. tauto.
    + intros s Hin [<-|[]]. tauto.
  - intros r s. simpl. rewrite in_app_iff. rewrite (Ha r s). simpl. split.
    + tauto.
    + intros [[Hin|[<-|[]]] Hm]; auto. exfalso. eapply Hnomem; eauto.
  - intros s u H. apply in_app_iff. left. eauto.
Qed.

Lemma onChatMessage_state st sid msg msgId now :
  fst (onChatMessage st sid msg msgId now) = st.
Proof.
  unfold onChatMessage.
  destruct (falsy (m_user msg) || falsy (message msg) || falsy (m_room msg));
    auto.
  destruct (JsMap.get (chatRooms st) (m_room msg)) as [rm|]; auto.
  destruct (find (isSocket sid) (users rm)); auto.
Qed.

Lemma validName_nonempty s :
  falsy s || Nat.eqb (String.length (trim s)) 0 = false ->
  trim s <> EmptyString.
Proof.
  rewrite orb_false_iff. intros [_ H] Hc. rewrite Hc in H. discriminate.
Qed.

Lemma onCreateRoom_invariant st sid data roomId now :
  invariant st -> In sid (sockets st) ->
  JsMap.get (chatRooms st) roomId = None ->
  invariant (fst (onCreateRoom st sid data roomId now)).
Proof.
  intros Hinv Hsid Hfresh. unfold onCreateRoom.
  destruct (falsy (roomName data)
            || Nat.eqb (String.length (trim (roomName data))) 0) eqn:Hvalid;
    auto.
  destruct (existsb _ (JsMap.values (chatRooms st))); auto.
  destruct Hinv as [Hn Hu Hs Han Ha Hl Hf].
  constructor; unfold fst; autorewrite with fields; simpl.
  - apply allRooms_set; auto. unfold namedRoom. simpl.
    now apply validName_nonempty.
  - apply allRooms_set; auto. unfold distinctUsers. simpl.
    repeat constructor. simpl. tauto.
  - auto.
  - apply socket_join_NoDup. auto.
  - intros r s. autorewrite with fields.
    rewrite socket_join_In. simpl. rewrite member_set. simpl.
    rewrite (Ha r s). split.
    + intros [[Hin Hm]|Heq].
      * split; auto. right. split; auto. intros ->.
        destruct Hm as [rm [Hget _]]. congruence.
      * injection Heq as -> ->. auto.
    + intros [Hin [[-> [<-|[]]]|[Hne Hm]]]; auto.
  - intros s u. rewrite get_set.
    destruct (eqb_cases sid s) as [[Heq Hb]|[Heq Hb]]; rewrite Hb.
    + now subst.
    + apply Hl.
  - intros s u rm. rewrite !get_set.
    destruct (eqb_cases sid s) as [[Heq Hb]|[Heq Hb]]; rewrite Hb.
    + intros H. now injection H as <-.
    + intros Hsu.
      destruct (eqb_cases roomId (room u)) as [[Hk Hkb]|[Hk Hkb]]; rewrite Hkb.
      * intros H. injection H as <-. simpl. congruence.
      * eauto.
Qed.

Lemma leaveCurrentRoom_cases st sid target :
  leaveCurrentRoom st sid target = st
  \/ exists cu,
       JsMap.get (connectedUsers st) sid = Some cu
       /\ room cu <> target
       /\ leaveCurrentRoom st sid target =
            withChatRooms (socket_leave st sid (room cu))
              (fst (removeUserFromRoom (chatRooms st) (room cu) sid)).
Proof.
  unfold leaveCurrentRoom.
  destruct (JsMap.get (connectedUsers st) sid) as [cu|]; auto.
  destruct (eqb_cases (room cu) target) as [[Heq Hb]|[Heq Hb]]; rewrite Hb;
    simpl; auto.
  right. exists cu. auto.
Qed.

(** The room joined is not the room left: the object fetched at the head of
    'join' is still what [chatRooms] holds after the implicit leave. *)
Lemma leaveCurrentRoom_target st sid target :
  JsMap.get (chatRooms (leaveCurrentRoom st sid target)) target =
  JsMap.get (chatRooms st) target.
Proof.
  destruct (leaveCurrentRoom_cases st sid target)
    as [->|[cu [Hcu [Hne ->]]]]; auto.
  simpl. rewrite removeUserFromRoom_get.
  apply String.eqb_neq in Hne. now rewrite Hne.
Qed.

Lemma leaveCurrentRoom_sockets st sid target :
  sockets (leaveCurrentRoom st sid target) = sockets st.
Proof.
  destruct (leaveCurrentRoom_cases st sid target)
    as [->|[cu [Hcu [Hne ->]]]]; auto.
Qed.

Lemma removeUser_owner rooms roomId sid r rm :
  JsMap.get (fst (removeUserFromRoom rooms roomId sid)) r = Some rm ->
  exists rm0, JsMap.get rooms r = Some rm0 /\ owner rm0 = owner rm.
Proof.
  rewrite removeUserFromRoom_get.
  destruct (eqb_cases roomId r) as [[Heq Hb]|[Heq Hb]]; rewrite Hb; eauto.
  subst r. destruct (JsMap.get rooms roomId) as [rm0|]; simpl; [|discriminate].
  intros H. injection H as <-. eauto.
Qed.

(** Leaving the socket.io room and the member list together. *)
Lemma leaveRoom_invariant st sid roomId :
  invariant st ->
  invariant (withChatRooms (socket_leave st sid roomId)
               (fst (removeUserFromRoom (chatRooms st) roomId sid))).
Proof.
  intros [Hn Hu Hs Han Ha Hl Hf].
  constructor; simpl.
  - apply allRooms_removeUser; auto.
  - apply allRooms_removeUser; auto. intros rm. apply distinctUsers_drop.
  - auto.
  - now apply NoDup_filter.
  - intros r s. simpl.
    rewrite member_removeUser by auto.
    pose proof (socket_leave_In st sid roomId (r, s)) as Hsl.
    simpl in Hsl. rewrite Hsl, (Ha r s). split.
    + intros [[Hin Hm] Hneq]. repeat split; auto.
      intros [-> ->]. now apply Hneq.
    + intros [Hin [Hm Hneq]]. repeat split; auto.
      intros Heq. injection Heq as -> ->. now apply Hneq.
  - auto.
  - intros s u rm Hsu Hrm Ho.
    apply removeUser_owner in Hrm. destruct Hrm as [rm0 [Hrm0 Hown]].
    eapply Hf; eauto. congruence.
Qed.

Lemma leaveCurrentRoom_invariant st sid target :
  invariant st -> invariant (leaveCurrentRoom st sid target).
Proof.
  intros Hinv.
  destruct (leaveCurrentRoom_cases st sid target)
    as [->|[cu [Hcu [Hne ->]]]]; auto.
  now apply leaveRoom_invariant.
Qed.

Lemma onJoin_invariant st sid data now :
  invariant st -> In sid (sockets st) ->
  invariant (fst (onJoin st sid data now)).
Proof.
  intros Hinv Hsid. unfold onJoin.
  destruct (JsMap.get (chatRooms st) (d_room data)) as [rm|] eqn:Hget; auto.
  cbv zeta.
  pose proof (leaveCurrentRoom_invariant st sid (d_room data) Hinv) as Hinv1.
  pose proof (leaveCurrentRoom_target st sid (d_room data)) as Htgt.
  rewrite Hget in Htgt.
  pose proof (leaveCurrentRoom_sockets st sid (d_room data)) as Hsock.
  revert Hinv1 Htgt Hsock. generalize (leaveCurrentRoom st sid (d_room data)).
  intros st1 [Hn Hu Hs Han Ha Hl Hf] Htgt Hsock.
  rewrite <- Hsock in Hsid.
  set (newUser := mkUser sid (d_user data) now (String.eqb (owner rm) sid)).
  set (sess := mkSession (d_user data) (d_room data) (String.eqb (owner rm) sid)).
  match goal with
  | |- invariant (fst (socket_join ?x _ _, _)) => set (st3 := x)
  end.
  assert (Hrooms : forall r,
    JsMap.get (chatRooms st3) r =
    if String.eqb (d_room data) r then
      Some (setUsers rm (if memStr sid (ids (users rm)) then users rm
                         else users rm ++ [newUser]))
    else JsMap.get (chatRooms st1) r).
  { intros r. unfold st3.
    pose proof (findIndex_None_ids sid (users rm)) as Hfi.
    destruct (findIndex (isSocket sid) (users rm)) as [i|]; simpl.
    - assert (Hin : In sid (ids (users rm))).
      { destruct (in_dec string_dec sid (ids (users rm))); auto.
        apply Hfi in n. discriminate. }
      apply memStr_In in Hin. rewrite Hin, setUsers_same.
      destruct (eqb_cases (d_room data) r) as [[Heq Hb]|[Heq Hb]]; rewrite Hb;
        auto. now subst.
    - assert (Hnin : memStr sid (ids (users rm)) = false)
        by (apply memStr_false; now apply Hfi).
      rewrite Hnin. apply get_set. }
  assert (Hsess : connectedUsers st3 = JsMap.set (connectedUsers st1) sid sess)
    by (unfold st3; destruct (findIndex _ _); reflexivity).
  assert (Hsocks : sockets st3 = sockets st1)
    by (unfold st3; destruct (findIndex _ _); reflexivity).
  assert (Hadp : adapter st3 = adapter st1)
    by (unfold st3; destruct (findIndex _ _); reflexivity).
  clearbody st3.
  assert (Hmem : forall r s,
            member (chatRooms st3) r s <->
            member (chatRooms st1) r s \/ (r = d_room data /\ s = sid)).
  { intros r s. unfold member. rewrite Hrooms.
    destruct (eqb_cases (d_room data) r) as [[Heq Hb]|[Heq Hb]]; rewrite Hb.
    - subst r. rewrite Htgt. split.
      + intros [rm' [H Hin]]. injection H as <-. simpl in Hin.
        destruct (memStr sid (ids (users rm))) eqn:Hm.
        * left. eauto.
        * unfold ids in Hin. rewrite map_app, in_app_iff in Hin. simpl in Hin.
          destruct Hin as [Hin|[<-|[]]]; [left; eauto | right; auto].
      + intros [[rm' [H Hin]]|[_ ->]].
        * injection H as <-. eexists. split; [reflexivity|]. simpl.
          destruct (memStr sid (ids (users rm))); auto.
          unfold ids. rewrite map_app, in_app_iff. now left.
        * eexists. split; [reflexivity|]. simpl.
          destruct (memStr sid (ids (users rm))) eqn:Hm.
          -- now apply memStr_In.
          -- unfold ids. rewrite map_app, in_app_iff. right. simpl. auto.
    - split; [tauto|]. intros [H|[Hc _]]; [auto | congruence]. }
  constructor; unfold fst; autorewrite with fields.
  - intros r rm'. rewrite Hrooms.
    destruct (String.eqb (d_room data) r).
    + intros H. injection H as <-. unfold namedRoom. simpl. eapply Hn; eauto.
    + apply Hn.
  - intros r rm'. rewrite Hrooms.
    destruct (String.eqb (d_room data) r).
    + intros H. injection H as <-. unfold distinctUsers. simpl.
      pose proof (Hu _ _ Htgt) as Hnd. unfold distinctUsers in Hnd.
      destruct (memStr sid (ids (users rm))) eqn:Hm; auto.
      apply memStr_false in Hm. unfold ids. rewrite map_app. simpl.
      apply NoDup_app; auto.
      * repeat constructor. simpl. tauto.
      * intros s Hin [<-|[]]. auto.
    + apply Hu.
  - now rewrite Hsocks.
  - apply socket_join_NoDup. now rewrite Hadp.
  - intros r s. autorewrite with fields. rewrite socket_join_In, Hadp, Hsocks.
    rewrite Hmem, (Ha r s). split.
    + intros [[Hin Hm]|Heq]; [tauto|]. injection Heq as -> ->. auto.
    + intros [Hin [Hm|[-> ->]]]; auto.
  - rewrite Hsess, Hsocks. intros s u. rewrite get_set.
    destruct (eqb_cases sid s) as [[Heq Hb]|[Heq Hb]]; rewrite Hb.
    + now subst.
    + apply Hl.
  - rewrite Hsess. intros s u rm'. rewrite get_set, Hrooms.
    destruct (eqb_cases sid s) as [[Heq Hb]|[Heq Hb]]; rewrite Hb.
    + intros H. injection H as <-. simpl. rewrite String.eqb_refl.
      intros H. injection H as <-. simpl. subst s. apply String.eqb_eq.
    + intros Hsu.
      destruct (eqb_cases (d_room data) (room u)) as [[Hk Hkb]|[Hk Hkb]];
        rewrite Hkb.
      * intros H. injection H as <-. simpl. intros Ho.
        eapply Hf; eauto. now rewrite <- Hk.
      * eauto.
Qed.

Lemma dropSession_get sid st s :
  JsMap.get (connectedUsers (dropSession sid st)) s =
  if String.eqb sid s then None else JsMap.get (connectedUsers st) s.
Proof. unfold dropSession. simpl. apply get_delete. Qed.

Lemma dropSession_invariant sid st :
  invariant st -> invariant (dropSession sid st).
Proof.
  intros [Hn Hu Hs Han Ha Hl Hf]. constructor; auto.
  - intros s u. rewrite dropSession_get.
    destruct (String.eqb sid s); [discriminate | apply Hl].
  - intros s u rm. rewrite dropSession_get.
    destruct (String.eqb sid s); [discriminate | apply Hf].
Qed.

(** The owner's departure keeps the invariant once the departing socket's
    session is deleted. *)
Lemma ownerLeft_invariant st roomId rm now x :
  invariant (dropSession x st) ->
  invariant (dropSession x (og_state (ownerLeft st roomId rm now))).
Proof.
  intros [Hn Hu Hs Han Ha Hl Hf]. simpl in *.
  assert (Hlive : forall s u, JsMap.get (connectedUsers st) s = Some u ->
                              s <> x -> In s (sockets st)).
  { intros s u Hsu Hne. apply (Hl s u). rewrite get_delete.
    apply not_eq_sym, String.eqb_neq in Hne. now rewrite Hne. }
  assert (Hflag : forall s u r0, s <> x ->
            JsMap.get (connectedUsers st) s = Some u ->
            JsMap.get (chatRooms st) (room u) = Some r0 ->
            owner r0 = s -> isOwner u = true).
  { intros s u r0 Hne Hsu Hr Ho. apply (Hf s u r0); auto. rewrite get_delete.
    apply not_eq_sym, String.eqb_neq in Hne. now rewrite Hne. }
  constructor; simpl.
  - apply ownerLeft_allRooms; auto.
  - apply ownerLeft_allRooms; auto.
  - now rewrite ownerLeft_sockets.
  - now rewrite ownerLeft_adapter.
  - intros r s. simpl.
    rewrite ownerLeft_adapter, ownerLeft_sockets, ownerLeft_member.
    apply (Ha r s).
  - intros s u. rewrite get_delete, ownerLeft_sockets.
    destruct (eqb_cases x s) as [[Heq Hb]|[Heq Hb]]; rewrite Hb;
      [discriminate|].
    intros H. apply ownerLeft_session in H. destruct H as [u0 [Hu0 _]].
    eapply Hlive; eauto.
  - intros s u r0. rewrite get_delete.
    destruct (eqb_cases x s) as [[Heq Hb]|[Heq Hb]]; rewrite Hb;
      [discriminate|].
    intros Hsu Hr Ho.
    eapply (ownerLeft_flag st roomId rm now x Hlive Hflag s u r0); eauto.
Qed.

Lemma onLeave_invariant st sid data now :
  invariant st -> invariant (fst (onLeave st sid data now)).
Proof.
  intros Hinv. unfold onLeave.
  destruct (JsMap.get (chatRooms st) (d_room data)) as [rm|] eqn:Hget; auto.
  cbv zeta. unfold fst.
  pose proof (leaveRoom_invariant st sid (d_room data) Hinv) as Hinv2.
  apply (dropSession_invariant sid) in Hinv2.
  destruct (String.eqb (owner rm) sid).
  - now apply (ownerLeft_invariant _ (d_room data) rm now sid) in Hinv2.
  - exact Hinv2.
Qed.

Lemma socket_close_invariant st sid :
  invariant st -> invariant (dropSession sid (socket_close st sid)).
Proof.
  intros [Hn Hu Hs Han Ha Hl Hf]. constructor; simpl; auto.
  - now apply NoDup_filter.
  - now apply NoDup_filter.
  - intros r s.
    pose proof (socket_close_sockets st sid s) as H1.
    pose proof (socket_close_adapter st sid r s) as H2.
    simpl in H1, H2. simpl. rewrite H1, H2, (Ha r s). tauto.
  - intros s u. rewrite get_delete.
    destruct (eqb_cases sid s) as [[Heq Hb]|[Heq Hb]]; rewrite Hb;
      [discriminate|].
    intros Hsu. pose proof (socket_close_sockets st sid s) as H1.
    simpl in H1. apply H1. split; eauto.
  - intros s u rm. rewrite get_delete.
    destruct (String.eqb sid s); [discriminate | apply Hf].
Qed.

(** A closed socket loses its entry in the member list of [roomId]. *)
Lemma closeAndRemove_invariant st sid roomId :
  invariant st ->
  invariant (dropSession sid
               (withChatRooms (socket_close st sid)
                  (fst (removeUserFromRoom (chatRooms st) roomId sid)))).
Proof.
  intros Hinv. pose proof (socket_close_invariant st sid Hinv) as Hc.
  destruct Hinv as [Hn Hu Hs Han Ha Hl Hf].
  destruct Hc as [Hn' Hu' Hs' Han' Ha' Hl' Hf']. simpl in *.
  constructor; simpl; auto.
  - apply allRooms_removeUser; auto.
  - apply allRooms_removeUser; auto. intros rm. apply distinctUsers_drop.
  - intros r s. simpl. rewrite member_removeUser by auto.
    pose proof (Ha' r s) as H. simpl in H. rewrite H.
    rewrite filter_In, negb_true_iff, String.eqb_neq. split.
    + intros [[Hin Hne] Hm]. repeat split; auto. intros [_ Hc]. auto.
    + tauto.
  - intros s u rm. rewrite get_delete.
    destruct (String.eqb sid s) eqn:Hb; [discriminate|].
    intros Hsu Hrm Ho.
    apply removeUser_owner in Hrm. destruct Hrm as [rm0 [Hrm0 Hown]].
    eapply Hf; eauto. congruence.
Qed.

Lemma onDisconnect_invariant st sid now :
  invariant st -> invariant (fst (onDisconnect st sid now)).
Proof.
  intros Hinv. unfold onDisconnect. cbv zeta.
  change (connectedUsers (socket_close st sid)) with (connectedUsers st).
  change (chatRooms (socket_close st sid)) with (chatRooms st).
  destruct (JsMap.get (connectedUsers st) sid) as [du|] eqn:Hdu.
  - destruct (JsMap.get (chatRooms st) (room du)) as [rm|] eqn:Hrm; unfold fst.
    + pose proof (closeAndRemove_invariant st sid (room du) Hinv) as H1.
      destruct (isOwner du).
      * now apply (ownerLeft_invariant _ (room du) rm now sid) in H1.
      * exact H1.
    + now apply socket_close_invariant.
  - unfold fst. pose proof (socket_close_invariant st sid Hinv) as H.
    destruct H as [Hn Hu Hs Han Ha Hl Hf]. simpl in *.
    constructor; simpl; auto.
    + intros s u Hsu. apply (Hl s u). rewrite get_delete.
      destruct (eqb_cases sid s) as [[Heq Hb]|[Heq Hb]]; rewrite Hb; auto.
      congruence.
    + intros s u rm Hsu. apply (Hf s u rm). rewrite get_delete.
      destruct (eqb_cases sid s) as [[Heq Hb]|[Heq Hb]]; rewrite Hb; auto.
      congruence.
Qed.

Lemma step_invariant st i :
  invariant st -> admissible st i = true -> invariant (fst (step st i)).
Proof.
  intros Hinv Hadm. destruct i as [sid|sid ev now|sid now]; simpl in *.
  - apply onConnection_invariant; auto. now apply negb_true_iff.
  - destruct ev as [data roomId|data|msg msgId|data|]; simpl.
    + apply andb_true_iff in Hadm. destruct Hadm as [Hs Hfresh].
      apply onCreateRoom_invariant; auto.
      * now apply memStr_In.
      * apply negb_true_iff in Hfresh. unfold JsMap.has in Hfresh.
        destruct (JsMap.get (chatRooms st) roomId); [discriminate | auto].
    + apply onJoin_invariant; auto. now apply memStr_In.
    + now rewrite onChatMessage_state.
    + now apply onLeave_invariant.
    + exact Hinv.
  - now apply onDisconnect_invariant.
Qed.

Lemma reachable_invariant st : reachable st -> invariant st.
Proof.
  induction 1.
  - apply invariant_initial.
  - now apply step_invariant.
Qed.

Lemma reachable_run st tr :
  reachable st -> admissibleRun st tr = true -> reachable (run st tr).
Proof.
  revert st. induction tr as [|i tr IH]; simpl; intros st Hr Ha; auto.
  apply andb_true_iff in Ha. destruct Ha as [Hi Htr].
  apply IH; auto. now constructor.
Qed.

(* ------------------------------------------------------------------ *)
(** * The claims *)

(** ** Joining twice *)

(** C7: a socket that already has an entry in the member list of a room and
    sends 'join' for that room again leaves the room object as it was: no
    entry is added, the entry it has keeps its place and its [joinedAt], and
    the owner is the same. *)
Theorem join_again_keeps_room st sid data now rm :
  JsMap.get (chatRooms st) (d_room data) = Some rm ->
  In sid (ids (users rm)) ->
  JsMap.get (chatRooms (fst (step st (FromClient sid (Join data) now))))
            (d_room data) = Some rm.
Proof.
  intros Hget Hin. simpl. unfold onJoin. rewrite Hget. cbv zeta. unfold fst.
  rewrite socket_join_chatRooms.
  destruct (findIndex (isSocket sid) (users rm)) as [i|] eqn:Hfi.
  - simpl. now rewrite leaveCurrentRoom_target.
  - apply findIndex_None_ids in Hfi. contradiction.
Qed.

Lemma join_again_keeps_room_witness :
  JsMap.get (chatRooms lobby) "room_1" = Some lobbyRoom
  /\ In sockB (ids (users lobbyRoom))
  /\ JsMap.get
       (chatRooms (fst (step lobby
          (FromClient sockB (Join (mkRoomData "bob" "room_1")) 40%Z))))
       "room_1" = Some lobbyRoom.
Proof.
  split; [reflexivity|]. split; [simpl; auto|].
  apply (join_again_keeps_room lobby sockB (mkRoomData "bob" "room_1") 40%Z
           lobbyRoom).
  - reflexivity.
  - simpl. auto.
Defined.

(** ** Leaving a room that is not there *)

(** C6, as the claim states it, fails: a 'leave' for an unknown room is
    answered with 'leave failed', not with a confirmation. *)
Lemma leave_unknown_room_counterexample :
  JsMap.get (chatRooms lobby) "room_0" = None
  /\ snd (step lobby (FromClient sockB (Leave (mkRoomData "bob" "room_0")) 40%Z))
     = [(sockB, LeaveFailed "존재하지 않는 채팅방입니다." "ROOM_NOT_FOUND")]
  /\ (forall roomId roomName user text roomDeleted newOwner timestamp,
        ~ In (sockB, LeaveConfirmed roomId roomName user text roomDeleted
                       newOwner timestamp)
             (snd (step lobby
                     (FromClient sockB (Leave (mkRoomData "bob" "room_0")) 40%Z)))).
Proof.
  split; [reflexivity|]. split; [reflexivity|].
  intros roomId roomName user text roomDeleted newOwner timestamp [H|[]].
  discriminate.
Qed.

(** C6, amended: a 'leave' that names no stored room changes nothing and is
    answered, to the sender only, with 'leave failed' and the code
    ROOM_NOT_FOUND. *)
Theorem leave_unknown_room_rejected st sid data now :
  JsMap.get (chatRooms st) (d_room data) = None ->
  step st (FromClient sid (Leave data) now)
  = (st, [(sid, LeaveFailed "존재하지 않는 채팅방입니다." "ROOM_NOT_FOUND")]).
Proof. intros Hget. simpl. unfold onLeave. now rewrite Hget. Qed.

Lemma leave_unknown_room_rejected_witness :
  JsMap.get (chatRooms lobby) (d_room (mkRoomData "bob" "room_0")) = None
  /\ step lobby (FromClient sockB (Leave (mkRoomData "bob" "room_0")) 40%Z)
     = (lobby, [(sockB, LeaveFailed "존재하지 않는 채팅방입니다." "ROOM_NOT_FOUND")]).
Proof.
  split; [reflexivity|].
  apply (leave_unknown_room_rejected lobby sockB (mkRoomData "bob" "room_0") 40%Z).
  reflexivity.
Defined.

(** ** The rooms list *)

Lemma broadcastRoomsList_In st now s :
  In s (sockets st) ->
  In (s, roomsListEvent st now) (broadcastRoomsList st now).
Proof.
  intros Hin. unfold broadcastRoomsList, io_emit, roomsListEvent.
  apply in_map_iff. exists s. auto.
Qed.

Lemma onJoin_sockets st sid data now :
  sockets (fst (onJoin st sid data now)) = sockets st.
Proof.
  unfold onJoin. destruct (JsMap.get (chatRooms st) (d_room data)); auto.
  cbv zeta. unfold fst. rewrite socket_join_sockets.
  destruct (findIndex _ _); simpl; apply leaveCurrentRoom_sockets.
Qed.

Lemma onLeave_sockets st sid data now :
  sockets (fst (onLeave st sid data now)) = sockets st.
Proof.
  unfold onLeave. destruct (JsMap.get (chatRooms st) (d_room data)); auto.
  cbv zeta. unfold fst. simpl.
  destruct (String.eqb _ sid); auto. now rewrite ownerLeft_sockets.
Qed.

Lemma describes_roomsList st : describes (roomsList st) (chatRooms st).
Proof.
  unfold describes, roomsList, JsMap.size, JsMap.values.
  split; [now rewrite !length_map|].
  intros i rm Hnth. exists (summary rm). split.
  - now apply map_nth_error.
  - repeat split.
Qed.

(** C10: a 'create room', 'join' or 'leave' that the server accepts ends with
    one 'rooms list' event sent to every connected socket; its rows are the
    stored rooms as they are after the event, one row per room, each with the
    room's id, name, owner's display name, user count, nicknames and creation
    time.  'get rooms' is answered with such a list of the present rooms to
    the asking socket alone, and changes nothing. *)
Theorem rooms_list_broadcast st sid ev now :
  updatesRooms st ev = true ->
  (exists rows,
     describes rows (chatRooms (fst (step st (FromClient sid ev now))))
     /\ forall s, In s (sockets st) ->
          In (s, RoomsList rows (List.length rows) now)
             (snd (step st (FromClient sid ev now))))
  /\ (exists rows,
        describes rows (chatRooms st)
        /\ step st (FromClient sid GetRooms now)
           = (st, [(sid, RoomsList rows (List.length rows) now)])).
Proof.
  intros Hup. split; [|exists (roomsList st); split;
                        [apply describes_roomsList | reflexivity]].
  exists (roomsList (fst (step st (FromClient sid ev now)))).
  split; [apply describes_roomsList|].
  change (RoomsList (roomsList (fst (step st (FromClient sid ev now))))
            (List.length (roomsList (fst (step st (FromClient sid ev now)))))
            now)
    with (roomsListEvent (fst (step st (FromClient sid ev now))) now).
  intros s Hs. destruct ev as [data roomId|data|msg msgId|data|]; simpl in *;
    try discriminate.
  - apply andb_true_iff in Hup. destruct Hup as [H1 H2].
    apply negb_true_iff in H1, H2. unfold onCreateRoom. rewrite H1, H2.
    cbv zeta. unfold fst, snd. apply in_app_iff. right.
    apply broadcastRoomsList_In. now rewrite socket_join_sockets.
  - pose proof (onJoin_sockets st sid data now) as Hsock. revert Hsock.
    unfold onJoin. apply has_true in Hup. destruct Hup as [rm ->].
    cbv zeta. unfold fst, snd. intros Hsock.
    rewrite !in_app_iff. right. right.
    apply broadcastRoomsList_In. now rewrite Hsock.
  - pose proof (onLeave_sockets st sid data now) as Hsock. revert Hsock.
    unfold onLeave. apply has_true in Hup. destruct Hup as [rm ->].
    cbv zeta. unfold fst, snd. intros Hsock.
    rewrite !in_app_iff. right. right. right.
    apply broadcastRoomsList_In. now rewrite Hsock.
Qed.

Lemma rooms_list_broadcast_witness :
  updatesRooms lobby (Leave (mkRoomData "alice" "room_1")) = true
  /\ (exists rows,
        describes rows
          (chatRooms
             (fst (step lobby
                     (FromClient sockA (Leave (mkRoomData "alice" "room_1"))
                        40%Z))))
        /\ forall s, In s (sockets lobby) ->
             In (s, RoomsList rows (List.length rows) 40%Z)
                (snd (step lobby
                        (FromClient sockA (Leave (mkRoomData "alice" "room_1"))
                           40%Z))))
  /\ (exists rows,
        describes rows (chatRooms lobby)
        /\ step lobby (FromClient sockB GetRooms 40%Z)
           = (lobby, [(sockB, RoomsList rows (List.length rows) 40%Z)]))
  /\ In (sockC,
         RoomsList
           [mkRoomSummary "room_1" "Lobby" "bob" 2 ["bob"; "carol"] 10%Z false]
           1 40%Z)
        (snd (step lobby
                (FromClient sockA (Leave (mkRoomData "alice" "room_1")) 40%Z)))
  /\ snd (step lobby (FromClient sockB GetRooms 40%Z))
     = [(sockB,
         RoomsList
           [mkRoomSummary "room_1" "Lobby" "alice" 3 ["alice"; "bob"; "carol"]
              10%Z false] 1 40%Z)].
Proof.
  split; [reflexivity|].
  assert (H := rooms_list_broadcast lobby sockA
                 (Leave (mkRoomData "alice" "room_1")) 40%Z eq_refl).
  destruct H as [H1 H2].
  split; [exact H1|].
  split; [exists (roomsList lobby); split;
            [apply describes_roomsList | reflexivity]|].
  split; [|reflexivity].
  vm_compute. tauto.
Defined.

(** ** Room names *)




(** ** Chat messages *)

Lemma roomSockets_NoDup st r : NoDup (adapter st) -> NoDup (roomSockets st r).
Proof.
  unfold roomSockets. generalize (adapter st). intros l.
  induction l as [|[r' s'] l IH]; simpl; intros Hnd.
  - constructor.
  - inversion Hnd as [|? ? Hnotin Hnd']; subst.
    destruct (eqb_cases r' r) as [[Heq Hb]|[Heq Hb]]; rewrite Hb; auto.
    subst r'. simpl. constructor; auto.
    intros Hin. apply Hnotin. apply in_map_iff in Hin.
    destruct Hin as [[r0 s0] [Hs Hin]]. simpl in Hs. subst s0.
    apply filter_In in Hin. destruct Hin as [Hin Hr]. simpl in Hr.
    apply String.eqb_eq in Hr. now subst.
Qed.

Lemma deliveries_NoDup (e : OutEvent) (l : list SocketId) :
  NoDup l -> NoDup (map (fun s => (s, e)) l).
Proof.
  induction 1 as [|s l Hnotin Hnd IH]; simpl; constructor; auto.
  intros Hin. apply in_map_iff in Hin. destruct Hin as [s' [Heq Hin]].
  injection Heq as ->. contradiction.
Qed.

Lemma deliveries_In (e e' : OutEvent) (l : list SocketId) s :
  In (s, e') (map (fun s => (s, e)) l) <-> In s l /\ e' = e.
Proof.
  rewrite in_map_iff. split.
  - intros [s' [Heq Hin]]. injection Heq as -> ->. auto.
  - intros [Hin ->]. eauto.
Qed.

(** In a reachable state the sockets in socket.io room [r] are the connected
    members of the room stored under [r]. *)
Lemma roomSockets_members st r rm s :
  invariant st ->
  JsMap.get (chatRooms st) r = Some rm ->
  (In s (roomSockets st r) <-> In s (sockets st) /\ In s (ids (users rm))).
Proof.
  intros Hinv Hget. rewrite roomSockets_In, (inv_adapter st Hinv r s).
  unfold member. split.
  - intros [Hs [rm' [Hget' Hin]]]. rewrite Hget in Hget'.
    injection Hget' as <-. auto.
  - intros [Hs Hin]. eauto.
Qed.

(** What 'chat message' does with a well-formed message of a member. *)
Lemma onChatMessage_accepted st sid msg msgId now rm :
  falsy (m_user msg) || falsy (message msg) || falsy (m_room msg) = false ->
  JsMap.get (chatRooms st) (m_room msg) = Some rm ->
  In sid (ids (users rm)) ->
  onChatMessage st sid msg msgId now
  = (st, io_to_emit st (m_room msg)
           (ChatMessageOut msg msgId now sid (String.eqb (owner rm) sid))).
Proof.
  intros Hvalid Hget Hin. unfold onChatMessage. rewrite Hvalid, Hget.
  apply find_isSocket in Hin. destruct Hin as [u ->]. reflexivity.
Qed.

(** C8 as it is worded fails on the code: in state [ghost] room_1 has the
    members A, C and B, and the message that member B sends for room_1 is
    delivered to A and B and not to the member C, whose socket is closed. *)
Lemma chat_message_fanout_counterexample :
  reachable ghost
  /\ admissible ghost
       (FromClient sockB
          (ChatMessage (mkMsg "bob" "hello" "room_1" 55%Z) "msg_1") 60%Z) = true
  /\ JsMap.get (chatRooms ghost) "room_1" = Some ghostRoom
  /\ ids (users ghostRoom) = [sockA; sockC; sockB]
  /\ snd (step ghost
            (FromClient sockB
               (ChatMessage (mkMsg "bob" "hello" "room_1" 55%Z) "msg_1") 60%Z))
     = [(sockA, ChatMessageOut (mkMsg "bob" "hello" "room_1" 55%Z) "msg_1" 60%Z
                  sockB false);
        (sockB, ChatMessageOut (mkMsg "bob" "hello" "room_1" 55%Z) "msg_1" 60%Z
                  sockB false)]
  /\ forall e,
       ~ In (sockC, e)
            (snd (step ghost
                    (FromClient sockB
                       (ChatMessage (mkMsg "bob" "hello" "room_1" 55%Z) "msg_1")
                       60%Z))).
Proof.
  split; [apply reachable_run; [constructor | reflexivity]|].
  split; [reflexivity|]. split; [reflexivity|]. split; [reflexivity|].
  split; [reflexivity|].
  intros e Hin. vm_compute in Hin.
  repeat (destruct Hin as [Hin|Hin]; [discriminate|]).
  destruct Hin.
Qed.

(** C8, amended: a well-formed chat message sent by a member of a room is
    delivered, with the message id, the server timestamp (and the sender's
    socket id and owner flag) added, to those members of the room whose
    socket is connected and to nobody else, once each; the sender, being
    connected, is one of them. *)
Theorem chat_message_fanout st sid msg msgId now rm :
  reachable st ->
  falsy (m_user msg) || falsy (message msg) || falsy (m_room msg) = false ->
  JsMap.get (chatRooms st) (m_room msg) = Some rm ->
  In sid (ids (users rm)) ->
  fst (step st (FromClient sid (ChatMessage msg msgId) now)) = st
  /\ (forall s e,
        In (s, e) (snd (step st (FromClient sid (ChatMessage msg msgId) now)))
        <-> In s (ids (users rm)) /\ In s (sockets st)
            /\ e = ChatMessageOut msg msgId now sid (String.eqb (owner rm) sid))
  /\ (In sid (sockets st) ->
      In (sid, ChatMessageOut msg msgId now sid (String.eqb (owner rm) sid))
         (snd (step st (FromClient sid (ChatMessage msg msgId) now))))
  /\ NoDup (snd (step st (FromClient sid (ChatMessage msg msgId) now))).
Proof.
  intros Hreach Hvalid Hget Hin. apply reachable_invariant in Hreach.
  simpl. rewrite (onChatMessage_accepted st sid msg msgId now rm); auto.
  simpl.
  assert (Hiff : forall s e,
            In (s, e)
               (io_to_emit st (m_room msg)
                  (ChatMessageOut msg msgId now sid (String.eqb (owner rm) sid)))
            <-> In s (ids (users rm)) /\ In s (sockets st)
                /\ e = ChatMessageOut msg msgId now sid
                         (String.eqb (owner rm) sid)).
  { intros s e. unfold io_to_emit. rewrite deliveries_In.
    rewrite (roomSockets_members st (m_room msg) rm s Hreach Hget). tauto. }
  split; [reflexivity|]. split; [exact Hiff|]. split.
  - intros Hs. apply Hiff. auto.
  - unfold io_to_emit. apply deliveries_NoDup, roomSockets_NoDup.
    apply (inv_adapter_nodup st Hreach).
Qed.

Lemma chat_message_fanout_witness :
  reachable lobby
  /\ falsy (m_user (mkMsg "bob" "hello" "room_1" 35%Z))
     || falsy (message (mkMsg "bob" "hello" "room_1" 35%Z))
     || falsy (m_room (mkMsg "bob" "hello" "room_1" 35%Z)) = false
  /\ JsMap.get (chatRooms lobby) "room_1" = Some lobbyRoom
  /\ In sockB (ids (users lobbyRoom))
  /\ snd (step lobby
            (FromClient sockB
               (ChatMessage (mkMsg "bob" "hello" "room_1" 35%Z) "msg_1") 40%Z))
     = [(sockA, ChatMessageOut (mkMsg "bob" "hello" "room_1" 35%Z) "msg_1" 40%Z
                  sockB false);
        (sockB, ChatMessageOut (mkMsg "bob" "hello" "room_1" 35%Z) "msg_1" 40%Z
                  sockB false);
        (sockC, ChatMessageOut (mkMsg "bob" "hello" "room_1" 35%Z) "msg_1" 40%Z
                  sockB false)]
  /\ (forall s e,
        In (s, e)
           (snd (step lobby
                   (FromClient sockB
                      (ChatMessage (mkMsg "bob" "hello" "room_1" 35%Z) "msg_1")
                      40%Z)))
        <-> In s (ids (users lobbyRoom)) /\ In s (sockets lobby)
            /\ e = ChatMessageOut (mkMsg "bob" "hello" "room_1" 35%Z) "msg_1"
                     40%Z sockB (String.eqb (owner lobbyRoom) sockB)).
Proof.
  split; [apply reachable_run; [constructor | reflexivity]|].
  split; [reflexivity|]. split; [reflexivity|].
  split; [simpl; auto|]. split; [reflexivity|].
  exact (proj1 (proj2
           (chat_message_fanout lobby sockB (mkMsg "bob" "hello" "room_1" 35%Z)
              "msg_1" 40%Z lobbyRoom
              (reachable_run initial lobbyRun reachable_initial eq_refl)
              eq_refl eq_refl (or_intror (or_introl eq_refl))))).
Defined.

(** ** Ownership succession *)

Lemma dropUser_leaves_one x us :
  In x (ids us) -> 2 <= List.length us ->
  exists n rest, dropUser x us = n :: rest.
Proof.
  destruct us as [|u us]; simpl; [tauto|].
  intros _ Hlen. destruct (isSocket x u); [|eauto].
  destruct us as [|n rest]; simpl in Hlen; [lia | eauto].
Qed.

Lemma ownerLeft_transfers st roomId rm now r0 n rest :
  JsMap.get (chatRooms st) roomId = Some r0 ->
  users r0 = n :: rest ->
  ownerLeft st roomId rm now =
  mkOwnerGone
    (mkState
       (JsMap.set (chatRooms st) roomId
          (setOwner r0 (socketId n) (nickname n)))
       (if memStr (socketId n) (sockets st)
        then markOwner (connectedUsers st) (socketId n)
        else connectedUsers st)
       (sockets st) (adapter st))
    ((if memStr (socketId n) (sockets st)
      then [(socketId n,
             OwnershipTransferred "당신이 새로운 방장이 되었습니다."
               roomId (name rm) now)]
      else [])
     ++ map (fun s =>
               (s, OwnerChanged (nickname n)
                     (nickname n ++ "님이 새로운 방장이 되었습니다.") now))
            (roomSockets st roomId))
    (Some n) false.
Proof.
  intros Hget Hus.
  destruct (ownerLeft_cases st roomId rm now)
    as [[_ He]|[[Hn _]|[r1 [n1 [us1 [Hget1 [Hus1 ->]]]]]]].
  - specialize (He _ Hget). congruence.
  - congruence.
  - rewrite Hget in Hget1. injection Hget1 as <-. rewrite Hus in Hus1.
    injection Hus1 as <- <-. reflexivity.
Qed.

Lemma dropUser_nonempty x us :
  2 <= List.length us -> exists n rest, dropUser x us = n :: rest.
Proof.
  destruct us as [|u us]; simpl; [lia|].
  intros Hlen. destruct (isSocket x u); [|eauto].
  destruct us as [|n rest]; simpl in Hlen; [lia | eauto].
Qed.

(** The core of both departures: [st] is the state once the owner [x] has
    been taken out of the member list and of the socket.io room. *)
Lemma ownerLeft_succession st x roomId rm now n rest :
  invariant (dropSession x st) ->
  JsMap.get (chatRooms st) roomId = Some (setUsers rm (n :: rest)) ->
  exists rm',
    JsMap.get (chatRooms (og_state (ownerLeft st roomId rm now))) roomId
    = Some rm'
    /\ owner rm' = socketId n
    /\ ownerName rm' = nickname n
    /\ users rm' = n :: rest
    /\ sameIdentity rm rm'
    /\ (In (socketId n) (sockets st) ->
        In (socketId n,
            OwnershipTransferred "당신이 새로운 방장이 되었습니다."
              roomId (name rm) now) (og_out (ownerLeft st roomId rm now)))
    /\ (forall s text r nm t,
          In (s, OwnershipTransferred text r nm t)
             (og_out (ownerLeft st roomId rm now)) ->
          s = socketId n)
    /\ (forall s, In s (ids (n :: rest)) -> In s (sockets st) ->
          In (s, OwnerChanged (nickname n)
                   (nickname n ++ "님이 새로운 방장이 되었습니다.") now)
             (og_out (ownerLeft st roomId rm now))).
Proof.
  intros Hinv Hget.
  rewrite (ownerLeft_transfers st roomId rm now _ n rest Hget eq_refl).
  simpl og_state. simpl og_out. simpl chatRooms.
  exists (setOwner (setUsers rm (n :: rest)) (socketId n) (nickname n)).
  split; [apply get_set_eq|].
  split; [reflexivity|]. split; [reflexivity|]. split; [reflexivity|].
  split; [unfold sameIdentity; simpl; auto|].
  split; [|split].
  - intros Hn. apply memStr_In in Hn. rewrite Hn. simpl. auto.
  - intros s text r nm t Hin. apply in_app_iff in Hin.
    destruct Hin as [Hin|Hin].
    + destruct (memStr (socketId n) (sockets st)); [|destruct Hin].
      destruct Hin as [Heq|[]]. now injection Heq as <-.
    + apply deliveries_In in Hin. destruct Hin as [_ Hc]. discriminate.
  - intros s Hs Hconn. apply in_app_iff. right. apply deliveries_In.
    split; auto.
    change (roomSockets st roomId) with (roomSockets (dropSession x st) roomId).
    apply (roomSockets_members (dropSession x st) roomId
             (setUsers rm (n :: rest)) s Hinv Hget).
    split; [exact Hconn | exact Hs].
Qed.

Lemma not_transferred_In (e : OutEvent) (l : list SocketId) s text r nm t :
  (forall text' r' nm' t', e <> OwnershipTransferred text' r' nm' t') ->
  ~ In (s, OwnershipTransferred text r nm t) (map (fun s => (s, e)) l).
Proof.
  intros Hne Hin. apply deliveries_In in Hin. destruct Hin as [_ Hc].
  symmetry in Hc. now apply Hne in Hc.
Qed.

Lemma onLeave_succession st x data now rm :
  invariant st ->
  JsMap.get (chatRooms st) (d_room data) = Some rm ->
  owner rm = x ->
  2 <= List.length (users rm) ->
  succession x (d_room data) rm now (onLeave st x data now).
Proof.
  intros Hinv Hget Hown Hlen.
  destruct (dropUser_nonempty x (users rm) Hlen) as [n [rest Hdrop]].
  pose proof (leaveRoom_invariant st x (d_room data) Hinv) as Hinv2.
  apply (dropSession_invariant x) in Hinv2.
  assert (Hget2 : JsMap.get
            (chatRooms (withChatRooms (socket_leave st x (d_room data))
               (fst (removeUserFromRoom (chatRooms st) (d_room data) x))))
            (d_room data) = Some (setUsers rm (n :: rest))).
  { simpl. rewrite removeUserFromRoom_get, String.eqb_refl, Hget. simpl.
    now rewrite Hdrop. }
  destruct (ownerLeft_succession _ x (d_room data) rm now n rest Hinv2 Hget2)
    as [rm' [H1 [Ho [Hn [Hu [Hi [H2 [H3 H4]]]]]]]].
  exists n, rest, rm'. split; auto.
  unfold onLeave. rewrite Hget. cbv zeta.
  apply String.eqb_eq in Hown. rewrite Hown.
  change (chatRooms (socket_leave st x (d_room data))) with (chatRooms st).
  cbn [fst snd]. simpl sockets. rewrite ownerLeft_sockets. simpl sockets.
  split; [exact H1|]. repeat (split; [assumption|]).
  split; [|split].
  - intros Hc. rewrite !in_app_iff. auto.
  - intros s text r nm t. rewrite !in_app_iff.
    intros [Hc|[Hc|[Hc|Hc]]].
    + exfalso. revert Hc. apply not_transferred_In. discriminate.
    + eapply H3; eauto.
    + destruct Hc as [Hc|[]]. discriminate.
    + exfalso. revert Hc. apply not_transferred_In. discriminate.
  - intros s Hs Hc. rewrite !in_app_iff. auto.
Qed.

Lemma onDisconnect_succession st x u now rm :
  invariant st ->
  JsMap.get (connectedUsers st) x = Some u ->
  JsMap.get (chatRooms st) (room u) = Some rm ->
  owner rm = x ->
  2 <= List.length (users rm) ->
  succession x (room u) rm now (onDisconnect st x now).
Proof.
  intros Hinv Hsess Hget Hown Hlen.
  destruct (dropUser_nonempty x (users rm) Hlen) as [n [rest Hdrop]].
  pose proof (closeAndRemove_invariant st x (room u) Hinv) as Hinv2.
  pose proof (inv_flag st Hinv x u rm Hsess Hget Hown) as Hflag.
  assert (Hget2 : JsMap.get
            (chatRooms (withChatRooms (socket_close st x)
               (fst (removeUserFromRoom (chatRooms st) (room u) x))))
            (room u) = Some (setUsers rm (n :: rest))).
  { simpl. rewrite removeUserFromRoom_get, String.eqb_refl, Hget. simpl.
    now rewrite Hdrop. }
  destruct (ownerLeft_succession _ x (room u) rm now n rest Hinv2 Hget2)
    as [rm' [H1 [Ho [Hn [Hu [Hi [H2 [H3 H4]]]]]]]].
  exists n, rest, rm'. split; auto.
  unfold onDisconnect. cbv zeta.
  change (connectedUsers (socket_close st x)) with (connectedUsers st).
  change (chatRooms (socket_close st x)) with (chatRooms st).
  rewrite Hsess, Hget, Hflag.
  cbn [fst snd]. simpl sockets. rewrite ownerLeft_sockets.
  split; [exact H1|]. repeat (split; [assumption|]).
  split; [|split].
  - intros Hc. rewrite !in_app_iff. auto.
  - intros s text r nm t. rewrite !in_app_iff.
    intros [Hc|[Hc|Hc]].
    + exfalso. revert Hc. apply not_transferred_In. discriminate.
    + eapply H3; eauto.
    + exfalso. revert Hc. apply not_transferred_In. discriminate.
  - intros s Hs Hc. rewrite !in_app_iff. auto.
Qed.

(** C1 as it is worded fails on the code, in two ways.  In state [stray]
    room_1 has the members A and B and the owner A, whose session names
    room_2: when A disconnects, room_1 is left as it is, still owned by the
    closed socket A, and nobody is sent 'ownership transferred' or 'owner
    changed'.  In state [ghost] room_1 has the members A, C and B, with C's
    socket closed: when the owner A leaves, C's entry becomes the owner and
    nobody is sent 'ownership transferred'. *)
Lemma owner_succession_counterexample :
  (reachable stray
   /\ admissible stray (Disconnect sockA 40%Z) = true
   /\ JsMap.get (chatRooms stray) "room_1" = Some strayRoom
   /\ owner strayRoom = sockA
   /\ 2 <= List.length (users strayRoom)
   /\ JsMap.get (chatRooms (fst (step stray (Disconnect sockA 40%Z)))) "room_1"
      = Some strayRoom
   /\ ~ In sockA (sockets (fst (step stray (Disconnect sockA 40%Z))))
   /\ forall s e, In (s, e) (snd (step stray (Disconnect sockA 40%Z))) ->
                  isOwnerEvent e = false)
  /\ (reachable ghost
      /\ admissible ghost
           (FromClient sockA (Leave (mkRoomData "alice" "room_1")) 60%Z) = true
      /\ JsMap.get (chatRooms ghost) "room_1" = Some ghostRoom
      /\ owner ghostRoom = sockA
      /\ 2 <= List.length (users ghostRoom)
      /\ dropUser sockA (users ghostRoom)
         = [mkUser sockC "carol" 20%Z false; mkUser sockB "bob" 30%Z false]
      /\ (exists rm',
            JsMap.get
              (chatRooms
                 (fst (step ghost
                         (FromClient sockA (Leave (mkRoomData "alice" "room_1"))
                            60%Z)))) "room_1" = Some rm'
            /\ owner rm' = sockC)
      /\ forall s text r nm t,
           ~ In (s, OwnershipTransferred text r nm t)
                (snd (step ghost
                        (FromClient sockA (Leave (mkRoomData "alice" "room_1"))
                           60%Z)))).
Proof.
  split.
  - split; [apply reachable_run; [constructor | reflexivity]|].
    split; [reflexivity|]. split; [reflexivity|]. split; [reflexivity|].
    split; [simpl; lia|]. split; [reflexivity|]. split.
    + vm_compute. intros [H|[]]. discriminate.
    + intros s e Hin. vm_compute in Hin.
      repeat (destruct Hin as [Hin|Hin]; [injection Hin as <- <-; reflexivity|]).
      destruct Hin.
  - split; [apply reachable_run; [constructor | reflexivity]|].
    split; [reflexivity|]. split; [reflexivity|]. split; [reflexivity|].
    split; [simpl; lia|]. split; [reflexivity|]. split.
    + eexists. split; reflexivity.
    + intros s text r nm t Hin. vm_compute in Hin.
      repeat (destruct Hin as [Hin|Hin]; [discriminate|]).
      destruct Hin.
Qed.

(** C1, amended: in a room with at least two members whose owner [x] leaves
    the room, or disconnects while its session names the room, the first of
    the remaining members (the earliest joined of them) becomes the owner; if
    its socket is connected it is sent 'ownership transferred', which nobody
    else is sent; and every remaining member whose socket is connected, the
    new owner among them, is sent 'owner changed' with the new owner's
    name. *)
Theorem owner_succession st x roomId rm :
  reachable st ->
  JsMap.get (chatRooms st) roomId = Some rm ->
  owner rm = x ->
  2 <= List.length (users rm) ->
  (forall data now,
      d_room data = roomId ->
      succession x roomId rm now (step st (FromClient x (Leave data) now)))
  /\ (forall u now,
        JsMap.get (connectedUsers st) x = Some u ->
        room u = roomId ->
        succession x roomId rm now (step st (Disconnect x now))).
Proof.
  intros Hreach Hget Hown Hlen.
  apply reachable_invariant in Hreach. split.
  - intros data now <-. simpl. now apply onLeave_succession.
  - intros u now Hsess <-. simpl. now apply onDisconnect_succession.
Qed.

Lemma owner_succession_witness :
  reachable lobby
  /\ JsMap.get (chatRooms lobby) "room_1" = Some lobbyRoom
  /\ owner lobbyRoom = sockA
  /\ 2 <= List.length (users lobbyRoom)
  /\ succession sockA "room_1" lobbyRoom 40%Z
       (step lobby (FromClient sockA (Leave (mkRoomData "alice" "room_1")) 40%Z))
  /\ succession sockA "room_1" lobbyRoom 40%Z (step lobby (Disconnect sockA 40%Z))
  /\ succession sockA "room_1" ghostRoom 60%Z
       (step ghost (FromClient sockA (Leave (mkRoomData "alice" "room_1")) 60%Z)).
Proof.
  assert (Hr : reachable lobby)
    by (apply reachable_run; [constructor | reflexivity]).
  assert (Hg : reachable ghost)
    by (apply reachable_run; [constructor | reflexivity]).
  split; [exact Hr|]. split; [reflexivity|]. split; [reflexivity|].
  split; [simpl; lia|].
  split; [|split].
  - exact (proj1 (owner_succession lobby sockA "room_1" lobbyRoom Hr eq_refl
                    eq_refl (le_S _ _ (le_n 2)))
             (mkRoomData "alice" "room_1") 40%Z eq_refl).
  - exact (proj2 (owner_succession lobby sockA "room_1" lobbyRoom Hr eq_refl
                    eq_refl (le_S _ _ (le_n 2)))
             (mkSession "alice" "room_1" true) 40%Z eq_refl eq_refl).
  - exact (proj1 (owner_succession ghost sockA "room_1" ghostRoom Hg eq_refl
                    eq_refl (le_S _ _ (le_n 2)))
             (mkRoomData "alice" "room_1") 60%Z eq_refl).
Defined.

(** ** Disconnecting *)

Lemma ownerLeft_recipients st roomId rm now s e :
  In (s, e) (og_out (ownerLeft st roomId rm now)) ->
  In s (sockets st) \/ In (roomId, s) (adapter st).
Proof.
  destruct (ownerLeft_cases st roomId rm now)
    as [[-> _]|[[_ ->]|[r0 [n [us [_ [_ ->]]]]]]]; simpl; try tauto.
  rewrite in_app_iff. intros [Hin|Hin].
  - destruct (memStr (socketId n) (sockets st)) eqn:Hm; [|destruct Hin].
    destruct Hin as [Heq|[]]. injection Heq as <- _. left.
    now apply memStr_In.
  - apply deliveries_In in Hin. destruct Hin as [Hin _].
    right. now apply roomSockets_In.
Qed.

Lemma socket_to_emit_others st sid r e s e' :
  In (s, e') (socket_to_emit st sid r e) -> s <> sid.
Proof.
  unfold socket_to_emit. intros Hin. apply deliveries_In in Hin.
  destruct Hin as [Hin _]. apply filter_In in Hin. destruct Hin as [_ Hne].
  apply negb_true_iff in Hne. now apply String.eqb_neq.
Qed.



(** ** Joining from another room *)

(** C2 fails on the code: the 'join' handler takes the socket out of the
    room it was in (socket.io room and member list) and does nothing more.
    When A, owner of room_1 with B in it, joins room_2, room_1 keeps A as its
    owner, B is sent nothing but the rooms list; when A was alone in room_1,
    room_1 stays stored with no member. *)
Theorem join_skips_transfer_and_deletion :
  admissibleRun initial (moveRun ++ [moveJoin]) = true
  /\ JsMap.get (chatRooms (fst (step (run initial moveRun) moveJoin))) "room_1"
     = Some (mkRoom "room_1" "One" sockA "alice"
               [mkUser sockB "bob" 20%Z false] 10%Z false)
  /\ (forall e, In (sockB, e) (snd (step (run initial moveRun) moveJoin)) ->
        e = roomsListEvent (fst (step (run initial moveRun) moveJoin)) 40%Z)
  /\ admissibleRun initial (abandonRun ++ [abandonJoin]) = true
  /\ JsMap.get (chatRooms (fst (step (run initial abandonRun) abandonJoin)))
       "room_1"
     = Some (mkRoom "room_1" "One" sockA "alice" [] 10%Z false).
Proof.
  split; [reflexivity|]. split; [reflexivity|]. split.
  - intros e Hin. vm_compute in Hin.
    repeat (destruct Hin as [Hin|Hin]; [try discriminate|]).
    + injection Hin as <-. reflexivity.
    + destruct Hin.
  - split; reflexivity.
Qed.

(** C3 fails on the code: after the single event [abandonJoin], processed in
    a state the server can reach, room_1 is stored with no member. *)
Theorem empty_room_survives_join :
  reachable (run initial abandonRun)
  /\ admissible (run initial abandonRun) abandonJoin = true
  /\ exists rm,
       JsMap.get (chatRooms (fst (step (run initial abandonRun) abandonJoin)))
         "room_1" = Some rm
       /\ users rm = [].
Proof.
  split; [apply reachable_run; [constructor | reflexivity]|].
  split; [reflexivity|].
  eexists. split; reflexivity.
Qed.

(** C4 fails on the code: after the single event [moveJoin], processed in a
    state the server can reach, the owner of room_1 is a socket with no entry
    in the member list of room_1. *)
Theorem owner_not_member_after_join :
  reachable (run initial moveRun)
  /\ admissible (run initial moveRun) moveJoin = true
  /\ exists rm,
       JsMap.get (chatRooms (fst (step (run initial moveRun) moveJoin)))
         "room_1" = Some rm
       /\ owner rm = sockA
       /\ ~ In (owner rm) (ids (users rm)).
Proof.
  split; [apply reachable_run; [constructor | reflexivity]|].
  split; [reflexivity|].
  eexists. split; [reflexivity|]. split; [reflexivity|].
  simpl. intros [H|[]]. discriminate.
Qed.

(* ------------------------------------------------------------------ *)
(** * Further properties of the server *)

(** ** More on maps *)

Lemma jsmap_set_set {V : Type} (m : JsMap.t V) k v v' :
  JsMap.set (JsMap.set m k v) k v' = JsMap.set m k v'.
Proof.
  induction m as [|[k0 v0] m IH]; simpl.
  - now rewrite String.eqb_refl.
  - destruct (String.eqb k0 k) eqn:E; simpl.
    + now rewrite String.eqb_refl.
    + now rewrite E, IH.
Qed.

Lemma jsmap_set_get {V : Type} (m : JsMap.t V) k v :
  JsMap.get m k = Some v -> JsMap.set m k v = m.
Proof.
  induction m as [|[k0 v0] m IH]; simpl; [discriminate|].
  destruct (String.eqb k0 k) eqn:E; intros H.
  - apply String.eqb_eq in E. injection H as ->. now subst.
  - now rewrite IH.
Qed.

Lemma jsmap_delete_absent {V : Type} (m : JsMap.t V) k :
  JsMap.get m k = None -> JsMap.delete m k = m.
Proof.
  induction m as [|[k0 v0] m IH]; simpl; auto.
  destruct (String.eqb k0 k); [discriminate|].
  intros H. now rewrite IH.
Qed.

Lemma jsmap_delete_set {V : Type} (m : JsMap.t V) k v :
  JsMap.get m k = None -> JsMap.delete (JsMap.set m k v) k = m.
Proof.
  induction m as [|[k0 v0] m IH]; simpl.
  - now rewrite String.eqb_refl.
  - destruct (String.eqb k0 k) eqn:E; [discriminate|].
    intros H. simpl. now rewrite E, IH.
Qed.

Lemma jsmap_size_set_absent {V : Type} (m : JsMap.t V) k v :
  JsMap.get m k = None -> JsMap.size (JsMap.set m k v) = S (JsMap.size m).
Proof.
  unfold JsMap.size. induction m as [|[k0 v0] m IH]; simpl; auto.
  destruct (String.eqb k0 k); [discriminate|].
  intros H. simpl. now rewrite IH.
Qed.

(** ** The helper functions on their own *)

Lemma member_ids rooms r rm s :
  JsMap.get rooms r = Some rm -> (member rooms r s <-> In s (ids (users rm))).
Proof.
  intros Hget. unfold member. split.
  - intros [rm' [H Hin]]. rewrite Hget in H. now injection H as <-.
  - eauto.
Qed.


(** [removeUserFromRoom] answers [true] exactly when the socket had an entry
    in the member list of a stored room; when it answers [false] (room not
    stored, or socket not listed) the rooms are what they were. *)
Theorem removeUserFromRoom_result rooms roomId sid :
  (snd (removeUserFromRoom rooms roomId sid) = true <-> member rooms roomId sid)
  /\ (snd (removeUserFromRoom rooms roomId sid) = false ->
      fst (removeUserFromRoom rooms roomId sid) = rooms).
Proof.
  unfold removeUserFromRoom.
  destruct (JsMap.get rooms roomId) as [rm|] eqn:Hget; simpl.
  - rewrite (member_ids rooms roomId rm sid Hget).
    pose proof (findIndex_None_ids sid (users rm)) as Hfi.
    destruct (findIndex (isSocket sid) (users rm)) as [i|]; simpl.
    + split; [|discriminate]. split; auto. intros _.
      destruct (in_dec string_dec sid (ids (users rm))) as [H|H]; auto.
      apply Hfi in H. discriminate.
    + split; auto. split; [discriminate|]. intros Hin.
      exfalso. now apply (proj1 Hfi).
  - split; auto. split; [discriminate|]. intros [rm [H _]]. congruence.
Qed.



(** [transferOwnership] answers [null] exactly when the room is not stored
    or has no member, and then no room is stored under the id afterwards;
    otherwise it answers the first member and makes it the owner: the room
    stored under the id afterwards has that member's socket id as [owner]
    and its nickname as [ownerName], and the member list and the rest of the
    room as before.  Other rooms are never touched. *)
Theorem transferOwnership_result rooms roomId :
  (snd (transferOwnership rooms roomId) = None <->
   (forall rm, JsMap.get rooms roomId = Some rm -> users rm = []))
  /\ (snd (transferOwnership rooms roomId) = None ->
      JsMap.get (fst (transferOwnership rooms roomId)) roomId = None)
  /\ (forall rm newOwner rest,
        JsMap.get rooms roomId = Some rm ->
        users rm = newOwner :: rest ->
        snd (transferOwnership rooms roomId) = Some newOwner
        /\ exists rm',
             JsMap.get (fst (transferOwnership rooms roomId)) roomId = Some rm'
             /\ owner rm' = socketId newOwner
             /\ ownerName rm' = nickname newOwner
             /\ users rm' = users rm
             /\ sameIdentity rm rm')
  /\ (forall r, r <> roomId ->
        JsMap.get (fst (transferOwnership rooms roomId)) r = JsMap.get rooms r).
Proof.
  split; [|split; [|split]].
  - rewrite transferOwnership_snd.
    destruct (JsMap.get rooms roomId) as [rm|]; simpl.
    + destruct (users rm) as [|n us] eqn:Hus; simpl.
      * split; auto. intros _ rm' H. now injection H as <-.
      * split; [discriminate|]. intros H. specialize (H rm eq_refl).
        congruence.
    + split; auto. intros _ rm H. discriminate.
  - rewrite transferOwnership_snd, transferOwnership_get, String.eqb_refl.
    destruct (JsMap.get rooms roomId) as [rm|]; auto.
    destruct (users rm); [auto | discriminate].
  - intros rm n rest Hget Hus.
    rewrite transferOwnership_snd, transferOwnership_get, String.eqb_refl.
    rewrite Hget, Hus. split; [reflexivity|].
    exists (setOwner rm (socketId n) (nickname n)).
    split; [reflexivity|].
    split; [reflexivity|]. split; [reflexivity|]. split; [exact Hus|].
    unfold sameIdentity. simpl. auto.
  - intros r Hne. rewrite transferOwnership_get.
    apply not_eq_sym, String.eqb_neq in Hne. now rewrite Hne.
Qed.

(** ** The handlers, branch by branch *)

Lemma leaveCurrentRoom_connectedUsers_eq st sid target :
  connectedUsers (leaveCurrentRoom st sid target) = connectedUsers st.
Proof.
  destruct (leaveCurrentRoom_cases st sid target)
    as [->|[cu [Hcu [Hne ->]]]]; auto.
Qed.

Lemma onCreateRoom_accepted st sid data roomId now :
  updatesRooms st (CreateRoom data roomId) = true ->
  onCreateRoom st sid data roomId now =
  (socket_join
     (withConnectedUsers
        (withChatRooms st
           (JsMap.set (chatRooms st) roomId (createdRoom sid data roomId now)))
        (JsMap.set (connectedUsers st) sid (mkSession (c_user data) roomId true)))
     sid roomId,
   socket_emit sid
     (RoomCreated roomId (trim (roomName data)) (c_user data) true 1
        ("'" ++ trim (roomName data)
             ++ "' 채팅방이 생성되었습니다. 당신이 방장입니다.") now)
   ++ broadcastRoomsList
        (socket_join
           (withConnectedUsers
              (withChatRooms st
                 (JsMap.set (chatRooms st) roomId
                    (createdRoom sid data roomId now)))
              (JsMap.set (connectedUsers st) sid
                 (mkSession (c_user data) roomId true)))
           sid roomId) now).
Proof.
  simpl. intros Hup. apply andb_true_iff in Hup. destruct Hup as [H1 H2].
  apply negb_true_iff in H1, H2. unfold onCreateRoom. now rewrite H1, H2.
Qed.

Lemma onJoin_snd st sid data now rm :
  JsMap.get (chatRooms st) (d_room data) = Some rm ->
  snd (onJoin st sid data now) =
  socket_to_emit (fst (onJoin st sid data now)) sid (d_room data)
    (UserJoined (d_user data)
       (d_user data ++ "님이 채팅방에 입장했습니다.") now)
  ++ socket_emit sid
       (JoinConfirmed (d_room data)
          (name (current (fst (onJoin st sid data now)) (d_room data) rm))
          (ownerName (current (fst (onJoin st sid data now)) (d_room data) rm))
          (String.eqb
             (owner (current (fst (onJoin st sid data now)) (d_room data) rm))
             sid)
          (List.length
             (users (current (fst (onJoin st sid data now)) (d_room data) rm)))
          (map (fun u => mkUserView (nickname u) (userIsOwner u) (joinedAt u))
             (users (current (fst (onJoin st sid data now)) (d_room data) rm)))
          (d_user data)
          (name (current (fst (onJoin st sid data now)) (d_room data) rm)
             ++ " 채팅방에 성공적으로 입장했습니다.") now)
  ++ broadcastRoomsList (fst (onJoin st sid data now)) now.
Proof. intros Hget. unfold onJoin. rewrite Hget. reflexivity. Qed.

Lemma onJoin_rooms st sid data now rm r :
  JsMap.get (chatRooms st) (d_room data) = Some rm ->
  JsMap.get (chatRooms (fst (onJoin st sid data now))) r =
  if String.eqb (d_room data) r then
    Some (setUsers rm
            (if memStr sid (ids (users rm)) then users rm
             else users rm ++ [joinedUser sid data rm now]))
  else JsMap.get (chatRooms (leaveCurrentRoom st sid (d_room data))) r.
Proof.
  intros Hget. unfold onJoin. rewrite Hget. cbv zeta. cbn [fst].
  rewrite socket_join_chatRooms.
  pose proof (findIndex_None_ids sid (users rm)) as Hfi.
  destruct (findIndex (isSocket sid) (users rm)) as [i|]; simpl.
  - assert (Hin : In sid (ids (users rm))).
    { destruct (in_dec string_dec sid (ids (users rm))); auto.
      apply Hfi in n. discriminate. }
    apply memStr_In in Hin. rewrite Hin, setUsers_same.
    destruct (eqb_cases (d_room data) r) as [[Heq Hb]|[Heq Hb]]; rewrite Hb;
      auto. subst r. now rewrite leaveCurrentRoom_target.
  - assert (Hnin : memStr sid (ids (users rm)) = false)
      by (apply memStr_false; now apply Hfi).
    rewrite Hnin. apply get_set.
Qed.

Lemma onJoin_sessions st sid data now rm :
  JsMap.get (chatRooms st) (d_room data) = Some rm ->
  connectedUsers (fst (onJoin st sid data now)) =
  JsMap.set (connectedUsers st) sid
    (mkSession (d_user data) (d_room data) (String.eqb (owner rm) sid)).
Proof.
  intros Hget. unfold onJoin. rewrite Hget. cbv zeta. cbn [fst].
  rewrite socket_join_connectedUsers.
  destruct (findIndex (isSocket sid) (users rm)); simpl;
    now rewrite leaveCurrentRoom_connectedUsers_eq.
Qed.

Lemma onLeave_accepted st sid data now rm :
  JsMap.get (chatRooms st) (d_room data) = Some rm ->
  onLeave st sid data now =
  (dropSession sid
     (og_state (departed (leftRoom st sid (d_room data)) (d_room data) rm now
                  (String.eqb (owner rm) sid))),
   socket_to_emit (leftRoom st sid (d_room data)) sid (d_room data)
     (UserLeft (d_user data) (d_user data ++ "님이 채팅방을 나갔습니다.") now
        (String.eqb (owner rm) sid))
   ++ og_out (departed (leftRoom st sid (d_room data)) (d_room data) rm now
                (String.eqb (owner rm) sid))
   ++ socket_emit sid
        (LeaveConfirmed (d_room data) (name rm) (d_user data)
           (name rm ++ " 채팅방에서 나갔습니다.")
           (og_roomDeleted
              (departed (leftRoom st sid (d_room data)) (d_room data) rm now
                 (String.eqb (owner rm) sid)))
           (option_map nickname
              (og_newOwner
                 (departed (leftRoom st sid (d_room data)) (d_room data) rm now
                    (String.eqb (owner rm) sid))))
           now)
   ++ broadcastRoomsList
        (dropSession sid
           (og_state (departed (leftRoom st sid (d_room data)) (d_room data)
                        rm now (String.eqb (owner rm) sid))))
        now).
Proof. intros Hget. unfold onLeave. rewrite Hget. reflexivity. Qed.

Lemma onDisconnect_accepted st sid now u rm :
  JsMap.get (connectedUsers st) sid = Some u ->
  JsMap.get (chatRooms st) (room u) = Some rm ->
  onDisconnect st sid now =
  (dropSession sid
     (og_state
        (departed
           (withChatRooms (socket_close st sid)
              (fst (removeUserFromRoom (chatRooms st) (room u) sid)))
           (room u) rm now (isOwner u))),
   socket_to_emit
     (withChatRooms (socket_close st sid)
        (fst (removeUserFromRoom (chatRooms st) (room u) sid)))
     sid (room u)
     (UserLeft (username u) (username u ++ "님이 연결을 해제했습니다.") now
        (isOwner u))
   ++ og_out
        (departed
           (withChatRooms (socket_close st sid)
              (fst (removeUserFromRoom (chatRooms st) (room u) sid)))
           (room u) rm now (isOwner u))
   ++ broadcastRoomsList
        (og_state
           (departed
              (withChatRooms (socket_close st sid)
                 (fst (removeUserFromRoom (chatRooms st) (room u) sid)))
              (room u) rm now (isOwner u)))
        now).
Proof.
  intros Hu Hrm. unfold onDisconnect. cbv zeta.
  change (connectedUsers (socket_close st sid)) with (connectedUsers st).
  change (chatRooms (socket_close st sid)) with (chatRooms st).
  rewrite Hu, Hrm. reflexivity.
Qed.

Lemma leftRoom_room st sid roomId rm :
  JsMap.get (chatRooms st) roomId = Some rm ->
  JsMap.get (chatRooms (leftRoom st sid roomId)) roomId
  = Some (setUsers rm (dropUser sid (users rm))).
Proof.
  intros Hget. unfold leftRoom. simpl.
  now rewrite removeUserFromRoom_get, String.eqb_refl, Hget.
Qed.

Lemma leftRoom_other st sid roomId r :
  r <> roomId ->
  JsMap.get (chatRooms (leftRoom st sid roomId)) r = JsMap.get (chatRooms st) r.
Proof.
  intros Hne. unfold leftRoom. simpl. rewrite removeUserFromRoom_get.
  apply not_eq_sym, String.eqb_neq in Hne. now rewrite Hne.
Qed.

(** ** Requests the server turns down *)

Lemma trimStart_blank l : forallb isWhiteSpace l = true -> trimStart l = [].
Proof.
  induction l as [|c l IH]; simpl; auto.
  intros H. apply andb_true_iff in H. destruct H as [Hc Hl].
  rewrite Hc. auto.
Qed.

Lemma trim_blank s : allWhiteSpace s = true -> trim s = EmptyString.
Proof.
  unfold allWhiteSpace, trim. intros H. now rewrite (trimStart_blank _ H).
Qed.

(** A 'create room' whose name is empty or made of white space only is
    answered, to the sender alone, with 'room creation failed' and the code
    INVALID_ROOM_NAME, whatever rooms exist; nothing changes. *)
Theorem create_room_blank_name st sid data roomId now :
  allWhiteSpace (roomName data) = true ->
  step st (FromClient sid (CreateRoom data roomId) now)
  = (st, [(sid, RoomCreationFailed "채팅방 이름을 입력해주세요."
                  "INVALID_ROOM_NAME")]).
Proof.
  intros Hblank. simpl. unfold onCreateRoom.
  rewrite (trim_blank _ Hblank). simpl. now rewrite orb_true_r.
Qed.

Lemma create_room_blank_name_witness :
  allWhiteSpace (roomName (mkCreateData "bob" blankName)) = true
  /\ step lobby
       (FromClient sockB (CreateRoom (mkCreateData "bob" blankName) "room_2")
          40%Z)
     = (lobby, [(sockB, RoomCreationFailed "채팅방 이름을 입력해주세요."
                          "INVALID_ROOM_NAME")]).
Proof.
  split; [reflexivity|].
  apply (create_room_blank_name lobby sockB (mkCreateData "bob" blankName)
           "room_2" 40%Z).
  reflexivity.
Defined.

Lemma find_isSocket_None sid us :
  memStr sid (ids us) = false -> find (isSocket sid) us = None.
Proof.
  intros Hm. apply memStr_false in Hm.
  destruct (find (isSocket sid) us) as [u|] eqn:E; auto.
  exfalso. apply Hm. apply find_isSocket. eauto.
Qed.

(** Whatever request fails the checks of its handler - a room name that is
    blank or taken, a room id that is not stored, a chat message with an
    empty field, for a room not stored or from a socket not in its member
    list - changes nothing and makes the server emit exactly one event, a
    failure event, to the sender. *)
Theorem rejected_request_changes_nothing st sid ev now :
  accepts st sid ev = false ->
  exists e,
    isFailure e = true
    /\ step st (FromClient sid ev now) = (st, [(sid, e)]).
Proof.
  intros Hacc. destruct ev as [data roomId|data|msg msgId|data|]; simpl in *.
  - unfold onCreateRoom.
    destruct (falsy (roomName data)
              || Nat.eqb (String.length (trim (roomName data))) 0);
      [eexists; split; [|reflexivity]; reflexivity|].
    simpl in Hacc. apply negb_false_iff in Hacc. rewrite Hacc.
    eexists; split; [|reflexivity]; reflexivity.
  - unfold onJoin, JsMap.has in *.
    destruct (JsMap.get (chatRooms st) (d_room data)); [discriminate|].
    eexists; split; [|reflexivity]; reflexivity.
  - unfold onChatMessage.
    destruct (falsy (m_user msg) || falsy (message msg) || falsy (m_room msg));
      [eexists; split; [|reflexivity]; reflexivity|].
    simpl in Hacc.
    destruct (JsMap.get (chatRooms st) (m_room msg)) as [rm|];
      [|eexists; split; [|reflexivity]; reflexivity].
    rewrite (find_isSocket_None _ _ Hacc).
    eexists; split; [|reflexivity]; reflexivity.
  - unfold onLeave, JsMap.has in *.
    destruct (JsMap.get (chatRooms st) (d_room data)); [discriminate|].
    eexists; split; [|reflexivity]; reflexivity.
  - discriminate.
Qed.

Lemma rejected_request_changes_nothing_witness :
  accepts cafe sockB (CreateRoom (mkCreateData "bob" cafeName) "room_2") = false
  /\ exists e,
       isFailure e = true
       /\ step cafe
            (FromClient sockB (CreateRoom (mkCreateData "bob" cafeName) "room_2")
               40%Z)
          = (cafe, [(sockB, e)]).
Proof.
  split; [reflexivity|].
  apply (rejected_request_changes_nothing cafe sockB
           (CreateRoom (mkCreateData "bob" cafeName) "room_2") 40%Z).
  reflexivity.
Defined.

(** 'chat message' and 'get rooms' never change the state of the server,
    whether the message is accepted or not. *)
Theorem reading_events_keep_state st sid now :
  (forall msg msgId,
      fst (step st (FromClient sid (ChatMessage msg msgId) now)) = st)
  /\ fst (step st (FromClient sid GetRooms now)) = st.
Proof.
  split; [|reflexivity]. intros msg msgId. simpl. apply onChatMessage_state.
Qed.

(** ** Creating and joining *)

(** An accepted 'create room' with an id no stored room has stores one room
    more and touches no other: the new room carries the trimmed name, has the
    sender as owner and as its only member, the sender's session names it
    with the owner flag set, the sender is in its socket.io room, and the
    sender is sent 'room created'. *)
Theorem create_room_stores_room st sid data roomId now :
  updatesRooms st (CreateRoom data roomId) = true ->
  JsMap.get (chatRooms st) roomId = None ->
  JsMap.get (chatRooms (fst (step st (FromClient sid (CreateRoom data roomId) now))))
            roomId
  = Some (createdRoom sid data roomId now)
  /\ (forall r, r <> roomId ->
        JsMap.get
          (chatRooms (fst (step st (FromClient sid (CreateRoom data roomId) now))))
          r
        = JsMap.get (chatRooms st) r)
  /\ JsMap.size
       (chatRooms (fst (step st (FromClient sid (CreateRoom data roomId) now))))
     = S (JsMap.size (chatRooms st))
  /\ JsMap.get
       (connectedUsers (fst (step st (FromClient sid (CreateRoom data roomId) now))))
       sid
     = Some (mkSession (c_user data) roomId true)
  /\ In (roomId, sid)
        (adapter (fst (step st (FromClient sid (CreateRoom data roomId) now))))
  /\ In (sid,
         RoomCreated roomId (trim (roomName data)) (c_user data) true 1
           ("'" ++ trim (roomName data)
                ++ "' 채팅방이 생성되었습니다. 당신이 방장입니다.") now)
        (snd (step st (FromClient sid (CreateRoom data roomId) now))).
Proof.
  intros Hup Hfresh. simpl step.
  rewrite (onCreateRoom_accepted st sid data roomId now Hup). cbn [fst snd].
  rewrite socket_join_chatRooms, socket_join_connectedUsers. simpl.
  split; [apply get_set_eq|]. split.
  - intros r Hne. apply get_set_neq. auto.
  - split; [now apply jsmap_size_set_absent|].
    split; [apply get_set_eq|]. split; [|auto].
    apply socket_join_In. auto.
Qed.

Lemma create_room_stores_room_witness :
  updatesRooms lobby (CreateRoom (mkCreateData "bob" cafeName) "room_2") = true
  /\ JsMap.get (chatRooms lobby) "room_2" = None
  /\ JsMap.get
       (chatRooms
          (fst (step lobby
                  (FromClient sockB
                     (CreateRoom (mkCreateData "bob" cafeName) "room_2") 40%Z))))
       "room_2"
     = Some (mkRoom "room_2" "CAFÉ" sockB "bob" [mkUser sockB "bob" 40%Z true]
               40%Z false).
Proof.
  split; [reflexivity|]. split; [reflexivity|].
  exact (proj1 (create_room_stores_room lobby sockB (mkCreateData "bob" cafeName)
                  "room_2" 40%Z eq_refl eq_refl)).
Defined.

Lemma memStr_absent sid us : ~ In sid (ids us) -> memStr sid (ids us) = false.
Proof. intros H. now apply memStr_false. Qed.

(** A 'join' of a stored room by a socket that is not in its member list
    appends one entry for the socket at the end of the list (nickname and
    join time from the request, owner flag by comparison with the owner
    field), keeps the owner, makes the socket's session name the room, puts
    the socket in the socket.io room, and confirms to the socket with the
    new user count. *)
Theorem join_appends_member st sid data now rm :
  JsMap.get (chatRooms st) (d_room data) = Some rm ->
  ~ In sid (ids (users rm)) ->
  JsMap.get (chatRooms (fst (step st (FromClient sid (Join data) now))))
            (d_room data)
  = Some (setUsers rm (users rm ++ [joinedUser sid data rm now]))
  /\ JsMap.get (connectedUsers (fst (step st (FromClient sid (Join data) now))))
               sid
     = Some (mkSession (d_user data) (d_room data) (String.eqb (owner rm) sid))
  /\ In (d_room data, sid)
        (adapter (fst (step st (FromClient sid (Join data) now))))
  /\ In (sid,
         JoinConfirmed (d_room data) (name rm) (ownerName rm)
           (String.eqb (owner rm) sid) (S (List.length (users rm)))
           (map (fun u => mkUserView (nickname u) (userIsOwner u) (joinedAt u))
              (users rm ++ [joinedUser sid data rm now]))
           (d_user data)
           (name rm ++ " 채팅방에 성공적으로 입장했습니다.") now)
        (snd (step st (FromClient sid (Join data) now))).
Proof.
  intros Hget Hnin. simpl step.
  assert (Hroom : JsMap.get (chatRooms (fst (onJoin st sid data now)))
                    (d_room data)
                  = Some (setUsers rm (users rm ++ [joinedUser sid data rm now]))).
  { rewrite (onJoin_rooms st sid data now rm _ Hget), String.eqb_refl.
    now rewrite (memStr_absent _ _ Hnin). }
  split; [exact Hroom|]. split.
  - rewrite (onJoin_sessions st sid data now rm Hget). apply get_set_eq.
  - split.
    + unfold onJoin. rewrite Hget. cbv zeta. cbn [fst].
      apply socket_join_In. auto.
    + rewrite (onJoin_snd st sid data now rm Hget).
      unfold current. rewrite Hroom. simpl.
      assert (Hlen : List.length (users rm ++ [joinedUser sid data rm now])
                     = S (List.length (users rm)))
        by (rewrite length_app; simpl; lia).
      rewrite Hlen. apply in_or_app. right. left. reflexivity.
Qed.

Lemma join_appends_member_witness :
  JsMap.get (chatRooms twoRooms) (d_room (mkRoomData "bob" "room_1"))
  = Some (mkRoom "room_1" "One" sockA "alice" [mkUser sockA "alice" 10%Z true]
            10%Z false)
  /\ ~ In sockB
         (ids (users (mkRoom "room_1" "One" sockA "alice"
                        [mkUser sockA "alice" 10%Z true] 10%Z false)))
  /\ JsMap.get
       (chatRooms
          (fst (step twoRooms (FromClient sockB (Join (mkRoomData "bob" "room_1"))
                                 30%Z))))
       "room_1"
     = Some (mkRoom "room_1" "One" sockA "alice"
               [mkUser sockA "alice" 10%Z true; mkUser sockB "bob" 30%Z false]
               10%Z false).
Proof.
  assert (Hn : ~ In sockB
         (ids (users (mkRoom "room_1" "One" sockA "alice"
                        [mkUser sockA "alice" 10%Z true] 10%Z false)))).
  { simpl. intros [H|[]]. discriminate. }
  split; [reflexivity|]. split; [exact Hn|].
  exact (proj1 (join_appends_member twoRooms sockB (mkRoomData "bob" "room_1")
                  30%Z
                  (mkRoom "room_1" "One" sockA "alice"
                     [mkUser sockA "alice" 10%Z true] 10%Z false) eq_refl Hn)).
Defined.

(** In a reachable state, the 'user joined' event of an accepted 'join'
    reaches the connected members of the room other than the joining socket,
    and no one else: the joining socket is never told of its own arrival. *)
Theorem join_notifies_the_others st sid data now rm s :
  reachable st ->
  In sid (sockets st) ->
  JsMap.get (chatRooms st) (d_room data) = Some rm ->
  (In (s, UserJoined (d_user data)
            (d_user data ++ "님이 채팅방에 입장했습니다.") now)
      (snd (step st (FromClient sid (Join data) now)))
   <-> s <> sid /\ In s (sockets st) /\ In s (ids (users rm))).
Proof.
  intros Hreach Hsid Hget. apply reachable_invariant in Hreach.
  pose proof (onJoin_invariant st sid data now Hreach Hsid) as Hinv'.
  simpl step. rewrite (onJoin_snd st sid data now rm Hget).
  pose proof (onJoin_rooms st sid data now rm (d_room data) Hget) as Hroom.
  rewrite String.eqb_refl in Hroom.
  rewrite !in_app_iff. unfold socket_to_emit. rewrite deliveries_In.
  rewrite filter_In, negb_true_iff, String.eqb_neq.
  rewrite (roomSockets_members _ (d_room data) _ s Hinv' Hroom).
  rewrite onJoin_sockets. simpl users. split.
  - intros [[[[Hs Hin] Hne] _]|[[Hc|[]]|Hc]].
    + split; auto. split; auto.
      destruct (memStr sid (ids (users rm))); auto.
      unfold ids in Hin. rewrite map_app, in_app_iff in Hin. simpl in Hin.
      destruct Hin as [Hin|[Heq|[]]]; auto. congruence.
    + discriminate.
    + unfold broadcastRoomsList, io_emit in Hc. apply deliveries_In in Hc.
      destruct Hc as [_ Hc]. discriminate.
  - intros [Hne [Hs Hin]]. left. split; auto. split; auto. split; auto.
    destruct (memStr sid (ids (users rm))); auto.
    unfold ids. rewrite map_app, in_app_iff. now left.
Qed.

Lemma join_notifies_the_others_witness :
  reachable (run initial moveRun)
  /\ In sockC (sockets (run initial moveRun))
  /\ JsMap.get (chatRooms (run initial moveRun))
       (d_room (mkRoomData "carol" "room_1"))
     = Some (mkRoom "room_1" "One" sockA "alice"
               [mkUser sockA "alice" 10%Z true; mkUser sockB "bob" 20%Z false]
               10%Z false)
  /\ In (sockA, UserJoined "carol" ("carol" ++ "님이 채팅방에 입장했습니다.") 40%Z)
        (snd (step (run initial moveRun)
                (FromClient sockC (Join (mkRoomData "carol" "room_1")) 40%Z)))
  /\ In (sockB, UserJoined "carol" ("carol" ++ "님이 채팅방에 입장했습니다.") 40%Z)
        (snd (step (run initial moveRun)
                (FromClient sockC (Join (mkRoomData "carol" "room_1")) 40%Z)))
  /\ ~ In (sockC, UserJoined "carol" ("carol" ++ "님이 채팅방에 입장했습니다.") 40%Z)
          (snd (step (run initial moveRun)
                  (FromClient sockC (Join (mkRoomData "carol" "room_1")) 40%Z))).
Proof.
  assert (Hr : reachable (run initial moveRun))
    by (apply reachable_run; [constructor | reflexivity]).
  assert (Hc : In sockC (sockets (run initial moveRun))) by (simpl; auto).
  assert (Hne : forall a b : string, String.eqb a b = false -> a <> b)
    by (intros a b; apply String.eqb_neq).
  split; [exact Hr|]. split; [exact Hc|]. split; [reflexivity|].
  split; [|split].
  - apply (proj2 (join_notifies_the_others (run initial moveRun) sockC
                    (mkRoomData "carol" "room_1") 40%Z _ sockA Hr Hc eq_refl)).
    split; [now apply Hne|]. split; simpl; auto.
  - apply (proj2 (join_notifies_the_others (run initial moveRun) sockC
                    (mkRoomData "carol" "room_1") 40%Z _ sockB Hr Hc eq_refl)).
    split; [now apply Hne|]. split; simpl; auto.
  - intros Hin.
    apply (proj1 (join_notifies_the_others (run initial moveRun) sockC
                    (mkRoomData "carol" "room_1") 40%Z _ sockC Hr Hc eq_refl))
      in Hin.
    destruct Hin as [Hin _]. now apply Hin.
Defined.

(** ** Leaving *)

Lemma dropSession_get_self sid st :
  JsMap.get (connectedUsers (dropSession sid st)) sid = None.
Proof. unfold dropSession. simpl. apply get_delete_eq. Qed.

Lemma ownerLeft_deletes st roomId rm now r0 :
  JsMap.get (chatRooms st) roomId = Some r0 ->
  users r0 = [] ->
  ownerLeft st roomId rm now
  = mkOwnerGone (withChatRooms st (JsMap.delete (chatRooms st) roomId))
      [] None true.
Proof.
  intros Hget Hus.
  destruct (ownerLeft_cases st roomId rm now)
    as [[-> _]|[[Hn _]|[r1 [n [us [Hget1 [Hus1 _]]]]]]]; auto; congruence.
Qed.

Lemma ownerLeft_other st roomId rm now r :
  r <> roomId ->
  JsMap.get (chatRooms (og_state (ownerLeft st roomId rm now))) r
  = JsMap.get (chatRooms st) r.
Proof.
  intros Hne.
  destruct (ownerLeft_cases st roomId rm now)
    as [[-> _]|[[_ ->]|[r0 [n [us [_ [_ ->]]]]]]]; simpl.
  - apply get_delete_neq. auto.
  - apply get_delete_neq. auto.
  - apply get_set_neq. auto.
Qed.

Lemma departed_other st roomId rm now b r :
  r <> roomId ->
  JsMap.get (chatRooms (og_state (departed st roomId rm now b))) r
  = JsMap.get (chatRooms st) r.
Proof.
  intros Hne. destruct b; simpl; auto. now apply ownerLeft_other.
Qed.

Lemma no_owner_event_In (e : OutEvent) (l : list SocketId) s e' :
  isOwnerEvent e = false ->
  In (s, e') (map (fun s => (s, e)) l) -> isOwnerEvent e' = false.
Proof.
  intros He Hin. apply deliveries_In in Hin. destruct Hin as [_ ->]. exact He.
Qed.



(** When the owner leaves a stored room in which no other entry remains, the
    room is deleted from the store and the owner is sent 'leave confirmed'
    with [roomDeleted] true and no new owner; no 'ownership transferred' or
    'owner changed' is emitted, and the other rooms are untouched. *)
Theorem leave_by_last_owner st sid data now rm :
  JsMap.get (chatRooms st) (d_room data) = Some rm ->
  owner rm = sid ->
  dropUser sid (users rm) = [] ->
  JsMap.get (chatRooms (fst (step st (FromClient sid (Leave data) now))))
            (d_room data) = None
  /\ (forall r, r <> d_room data ->
        JsMap.get (chatRooms (fst (step st (FromClient sid (Leave data) now)))) r
        = JsMap.get (chatRooms st) r)
  /\ In (sid,
         LeaveConfirmed (d_room data) (name rm) (d_user data)
           (name rm ++ " 채팅방에서 나갔습니다.") true None now)
        (snd (step st (FromClient sid (Leave data) now)))
  /\ (forall s e,
        In (s, e) (snd (step st (FromClient sid (Leave data) now))) ->
        isOwnerEvent e = false).
Proof.
  intros Hget Hown Hdrop. simpl step.
  rewrite (onLeave_accepted st sid data now rm Hget).
  apply String.eqb_eq in Hown. rewrite Hown. unfold departed.
  pose proof (leftRoom_room st sid (d_room data) rm Hget) as Hleft.
  rewrite Hdrop in Hleft.
  rewrite (ownerLeft_deletes _ (d_room data) rm now _ Hleft eq_refl).
  cbn [fst snd og_state og_out og_roomDeleted og_newOwner option_map].
  split; [simpl; apply get_delete_eq|]. split.
  - intros r Hne. simpl. rewrite get_delete_neq by auto.
    rewrite removeUserFromRoom_get.
    apply not_eq_sym, String.eqb_neq in Hne. now rewrite Hne.
  - split.
    + apply in_or_app. right. simpl. auto.
    + intros s e. rewrite !in_app_iff. intros [Hin|[[]|[Hin|Hin]]].
      * revert Hin. now apply no_owner_event_In.
      * destruct Hin as [Heq|[]]. now injection Heq as _ <-.
      * revert Hin. now apply no_owner_event_In.
Qed.

Lemma leave_by_last_owner_witness :
  JsMap.get (chatRooms twoRooms) (d_room (mkRoomData "alice" "room_2"))
  = Some (mkRoom "room_2" "Two" sockA "alice" [mkUser sockA "alice" 20%Z true]
            20%Z false)
  /\ owner (mkRoom "room_2" "Two" sockA "alice" [mkUser sockA "alice" 20%Z true]
              20%Z false) = sockA
  /\ dropUser sockA
       (users (mkRoom "room_2" "Two" sockA "alice"
                 [mkUser sockA "alice" 20%Z true] 20%Z false)) = []
  /\ JsMap.get
       (chatRooms
          (fst (step twoRooms
                  (FromClient sockA (Leave (mkRoomData "alice" "room_2")) 30%Z))))
       "room_2" = None.
Proof.
  split; [reflexivity|]. split; [reflexivity|]. split; [reflexivity|].
  exact (proj1 (leave_by_last_owner twoRooms sockA (mkRoomData "alice" "room_2")
                  30%Z
                  (mkRoom "room_2" "Two" sockA "alice"
                     [mkUser sockA "alice" 20%Z true] 20%Z false)
                  eq_refl eq_refl eq_refl)).
Defined.

(** When the owner leaves a stored room in which entries remain, the first
    remaining entry becomes owner (in any state, connected or not): the
    room's [owner] is that entry's socket id, its [ownerName] that entry's
    nickname, its member list the remaining entries, and the rest of the
    room is as before.  The leaving socket is sent 'leave confirmed' with
    [roomDeleted] false and the new owner's nickname. *)
Theorem leave_confirms_new_owner st sid data now rm newOwner rest :
  JsMap.get (chatRooms st) (d_room data) = Some rm ->
  owner rm = sid ->
  dropUser sid (users rm) = newOwner :: rest ->
  (exists rm',
     JsMap.get (chatRooms (fst (step st (FromClient sid (Leave data) now))))
               (d_room data) = Some rm'
     /\ owner rm' = socketId newOwner
     /\ ownerName rm' = nickname newOwner
     /\ users rm' = newOwner :: rest
     /\ sameIdentity rm rm')
  /\ In (sid,
         LeaveConfirmed (d_room data) (name rm) (d_user data)
           (name rm ++ " 채팅방에서 나갔습니다.") false
           (Some (nickname newOwner)) now)
        (snd (step st (FromClient sid (Leave data) now))).
Proof.
  intros Hget Hown Hdrop. simpl step.
  rewrite (onLeave_accepted st sid data now rm Hget).
  apply String.eqb_eq in Hown. rewrite Hown. unfold departed.
  pose proof (leftRoom_room st sid (d_room data) rm Hget) as Hleft.
  rewrite Hdrop in Hleft.
  rewrite (ownerLeft_transfers _ (d_room data) rm now _ newOwner rest Hleft
             eq_refl).
  cbn [fst snd og_state og_out og_roomDeleted og_newOwner option_map].
  split.
  - exists (setOwner (setUsers rm (newOwner :: rest))
                     (socketId newOwner) (nickname newOwner)).
    split; [simpl; apply get_set_eq|].
    split; [reflexivity|]. split; [reflexivity|]. split; [reflexivity|].
    unfold sameIdentity. simpl. auto.
  - rewrite !in_app_iff. right. right. left. simpl. auto.
Qed.

Lemma leave_confirms_new_owner_witness :
  JsMap.get (chatRooms lobby) (d_room (mkRoomData "alice" "room_1"))
  = Some lobbyRoom
  /\ owner lobbyRoom = sockA
  /\ dropUser sockA (users lobbyRoom)
     = [mkUser sockB "bob" 20%Z false; mkUser sockC "carol" 30%Z false]
  /\ (exists rm',
        JsMap.get
          (chatRooms
             (fst (step lobby
                     (FromClient sockA (Leave (mkRoomData "alice" "room_1"))
                        40%Z))))
          (d_room (mkRoomData "alice" "room_1")) = Some rm'
        /\ owner rm' = socketId (mkUser sockB "bob" 20%Z false)
        /\ ownerName rm' = nickname (mkUser sockB "bob" 20%Z false)
        /\ users rm' = [mkUser sockB "bob" 20%Z false;
                        mkUser sockC "carol" 30%Z false]
        /\ sameIdentity lobbyRoom rm')
  /\ In (sockA,
         LeaveConfirmed "room_1" "Lobby" "alice"
           ("Lobby" ++ " 채팅방에서 나갔습니다.") false (Some "bob") 40%Z)
        (snd (step lobby
                (FromClient sockA (Leave (mkRoomData "alice" "room_1")) 40%Z)))
  /\ JsMap.get
       (chatRooms
          (fst (step lobby
                  (FromClient sockA (Leave (mkRoomData "alice" "room_1")) 40%Z))))
       "room_1"
     = Some (mkRoom "room_1" "Lobby" sockB "bob"
               [mkUser sockB "bob" 20%Z false; mkUser sockC "carol" 30%Z false]
               10%Z false).
Proof.
  split; [reflexivity|]. split; [reflexivity|]. split; [reflexivity|].
  assert (H := leave_confirms_new_owner lobby sockA
                 (mkRoomData "alice" "room_1") 40%Z lobbyRoom
                 (mkUser sockB "bob" 20%Z false)
                 [mkUser sockC "carol" 30%Z false] eq_refl eq_refl eq_refl).
  destruct H as [H1 H2].
  split; [exact H1|]. split; [exact H2|]. reflexivity.
Defined.

(** An accepted 'leave' deletes the sender's session whatever room that
    session named, and changes no room but the one named in the request: a
    socket whose session named another room stays in that room's member
    list, with no session. *)
Theorem leave_deletes_any_session st sid data now :
  updatesRooms st (Leave data) = true ->
  JsMap.get (connectedUsers (fst (step st (FromClient sid (Leave data) now))))
            sid = None
  /\ (forall r, r <> d_room data ->
        JsMap.get (chatRooms (fst (step st (FromClient sid (Leave data) now)))) r
        = JsMap.get (chatRooms st) r).
Proof.
  simpl. intros Hup. apply has_true in Hup. destruct Hup as [rm Hget].
  rewrite (onLeave_accepted st sid data now rm Hget). cbn [fst].
  split; [apply dropSession_get_self|].
  intros r Hne. change (chatRooms (dropSession sid ?x)) with (chatRooms x).
  rewrite departed_other by auto. now apply leftRoom_other.
Qed.

Lemma leave_deletes_any_session_witness :
  updatesRooms twoRooms (Leave (mkRoomData "alice" "room_1")) = true
  /\ JsMap.get (connectedUsers twoRooms) sockA
     = Some (mkSession "alice" "room_2" true)
  /\ JsMap.get
       (connectedUsers
          (fst (step twoRooms
                  (FromClient sockA (Leave (mkRoomData "alice" "room_1")) 30%Z))))
       sockA = None
  /\ (forall r, r <> d_room (mkRoomData "alice" "room_1") ->
        JsMap.get
          (chatRooms
             (fst (step twoRooms
                     (FromClient sockA (Leave (mkRoomData "alice" "room_1"))
                        30%Z)))) r
        = JsMap.get (chatRooms twoRooms) r).
Proof.
  split; [reflexivity|]. split; [reflexivity|].
  exact (leave_deletes_any_session twoRooms sockA (mkRoomData "alice" "room_1")
           30%Z eq_refl).
Defined.

(** ** Disconnecting, in every branch *)

Lemma departed_sockets st roomId rm now b :
  sockets (og_state (departed st roomId rm now b)) = sockets st.
Proof. destruct b; simpl; auto. apply ownerLeft_sockets. Qed.

Lemma departed_adapter st roomId rm now b :
  adapter (og_state (departed st roomId rm now b)) = adapter st.
Proof. destruct b; simpl; auto. apply ownerLeft_adapter. Qed.

Lemma departed_member st roomId rm now b r s :
  member (chatRooms (og_state (departed st roomId rm now b))) r s <->
  member (chatRooms st) r s.
Proof. destruct b; simpl; [apply ownerLeft_member | tauto]. Qed.

Lemma departed_recipients st roomId rm now b s e :
  In (s, e) (og_out (departed st roomId rm now b)) ->
  In s (sockets st) \/ In (roomId, s) (adapter st).
Proof.
  destruct b; simpl; [apply ownerLeft_recipients | tauto].
Qed.

Lemma departed_session st roomId rm now b s u' :
  JsMap.get (connectedUsers (og_state (departed st roomId rm now b))) s = Some u' ->
  exists u, JsMap.get (connectedUsers st) s = Some u /\ room u' = room u.
Proof.
  destruct b; simpl; [apply ownerLeft_session | eauto].
Qed.

Lemma socket_close_gone st sid :
  ~ In sid (sockets (socket_close st sid))
  /\ forall r, ~ In (r, sid) (adapter (socket_close st sid)).
Proof.
  split.
  - intros H. apply socket_close_sockets in H. tauto.
  - intros r H. apply socket_close_adapter in H. tauto.
Qed.

(** Whatever the state, and whichever branch 'disconnect' takes (no session,
    a session for a room no longer stored, or a session for a stored room),
    afterwards the socket is not among the connected sockets, is in no
    socket.io room, has no session, and was sent nothing. *)
Theorem disconnect_removes_socket st sid now :
  ~ In sid (sockets (fst (step st (Disconnect sid now))))
  /\ (forall r, ~ In (r, sid) (adapter (fst (step st (Disconnect sid now)))))
  /\ JsMap.get (connectedUsers (fst (step st (Disconnect sid now)))) sid = None
  /\ (forall e, ~ In (sid, e) (snd (step st (Disconnect sid now)))).
Proof.
  destruct (socket_close_gone st sid) as [Hs Ha]. simpl step.
  destruct (JsMap.get (connectedUsers st) sid) as [u|] eqn:Hu.
  - destruct (JsMap.get (chatRooms st) (room u)) as [rm|] eqn:Hrm.
    + rewrite (onDisconnect_accepted st sid now u rm Hu Hrm). cbn [fst snd].
      change (sockets (dropSession sid ?x)) with (sockets x).
      change (adapter (dropSession sid ?x)) with (adapter x).
      rewrite departed_sockets, departed_adapter.
      split; [exact Hs|]. split; [exact Ha|].
      split; [apply dropSession_get_self|].
      intros e. rewrite !in_app_iff. intros [Hin|[Hin|Hin]].
      * apply socket_to_emit_others in Hin. congruence.
      * apply departed_recipients in Hin. destruct Hin as [Hin|Hin].
        -- now apply Hs.
        -- now apply Ha in Hin.
      * unfold broadcastRoomsList, io_emit in Hin. apply deliveries_In in Hin.
        destruct Hin as [Hin _]. rewrite departed_sockets in Hin. now apply Hs.
    + unfold onDisconnect. cbv zeta.
      change (connectedUsers (socket_close st sid)) with (connectedUsers st).
      change (chatRooms (socket_close st sid)) with (chatRooms st).
      rewrite Hu, Hrm. cbn [fst snd].
      split; [exact Hs|]. split; [exact Ha|].
      split; [apply get_delete_eq | auto].
  - unfold onDisconnect. cbv zeta.
    change (connectedUsers (socket_close st sid)) with (connectedUsers st).
    rewrite Hu. cbn [fst snd].
    split; [exact Hs|]. split; [exact Ha|]. split; auto.
Qed.

(** ** Where the stored rooms come from *)

Lemma rejected_create st sid data roomId now :
  updatesRooms st (CreateRoom data roomId) = false ->
  exists e, onCreateRoom st sid data roomId now = (st, [(sid, e)]).
Proof.
  simpl. intros Hup. unfold onCreateRoom.
  destruct (falsy (roomName data)
            || Nat.eqb (String.length (trim (roomName data))) 0);
    [eexists; reflexivity|].
  simpl in Hup. apply negb_false_iff in Hup. rewrite Hup.
  eexists; reflexivity.
Qed.

Lemma sameIdentity_refl rm : sameIdentity rm rm.
Proof. unfold sameIdentity. auto. Qed.

Lemma sameIdentity_trans a b c :
  sameIdentity a b -> sameIdentity b c -> sameIdentity a c.
Proof.
  unfold sameIdentity. intros [H1 [H2 [H3 H4]]] [K1 [K2 [K3 K4]]].
  repeat split; congruence.
Qed.

Lemma removeUser_identity rooms roomId sid r rm' :
  JsMap.get (fst (removeUserFromRoom rooms roomId sid)) r = Some rm' ->
  exists rm,
    JsMap.get rooms r = Some rm /\ sameIdentity rm rm'
    /\ owner rm' = owner rm /\ ownerName rm' = ownerName rm.
Proof.
  rewrite removeUserFromRoom_get.
  destruct (eqb_cases roomId r) as [[Heq Hb]|[Heq Hb]]; rewrite Hb.
  - subst r. destruct (JsMap.get rooms roomId) as [rm|]; simpl; [|discriminate].
    intros H. injection H as <-. exists rm. unfold sameIdentity. simpl. repeat split; auto.
  - intros H. exists rm'. split; auto. split; [apply sameIdentity_refl | auto].
Qed.

Lemma removeUser_kept rooms roomId sid r rm :
  JsMap.get rooms r = Some rm ->
  exists rm',
    JsMap.get (fst (removeUserFromRoom rooms roomId sid)) r = Some rm'
    /\ owner rm' = owner rm /\ ownerName rm' = ownerName rm.
Proof.
  intros Hget. rewrite removeUserFromRoom_get.
  destruct (eqb_cases roomId r) as [[Heq Hb]|[Heq Hb]]; rewrite Hb.
  - subst r. rewrite Hget. simpl. eauto.
  - eauto.
Qed.

Lemma leaveCurrentRoom_identity st sid target r rm' :
  JsMap.get (chatRooms (leaveCurrentRoom st sid target)) r = Some rm' ->
  exists rm,
    JsMap.get (chatRooms st) r = Some rm /\ sameIdentity rm rm'
    /\ owner rm' = owner rm /\ ownerName rm' = ownerName rm.
Proof.
  destruct (leaveCurrentRoom_cases st sid target)
    as [->|[cu [Hcu [Hne ->]]]].
  - intros H. exists rm'. split; auto. split; [apply sameIdentity_refl | auto].
  - simpl. apply removeUser_identity.
Qed.

Lemma leaveCurrentRoom_kept st sid target r rm :
  JsMap.get (chatRooms st) r = Some rm ->
  exists rm',
    JsMap.get (chatRooms (leaveCurrentRoom st sid target)) r = Some rm'
    /\ owner rm' = owner rm /\ ownerName rm' = ownerName rm.
Proof.
  intros Hget.
  destruct (leaveCurrentRoom_cases st sid target)
    as [->|[cu [Hcu [Hne ->]]]]; eauto.
  simpl. now apply removeUser_kept.
Qed.

Lemma departed_identity st roomId rm now b r rm' :
  JsMap.get (chatRooms (og_state (departed st roomId rm now b))) r = Some rm' ->
  exists rm0, JsMap.get (chatRooms st) r = Some rm0 /\ sameIdentity rm0 rm'.
Proof.
  destruct b; simpl.
  - destruct (ownerLeft_cases st roomId rm now)
      as [[-> _]|[[_ ->]|[r0 [n [us [Hget [_ ->]]]]]]]; simpl.
    + rewrite get_delete. destruct (String.eqb roomId r); [discriminate|].
      intros H. exists rm'. split; auto. apply sameIdentity_refl.
    + rewrite get_delete. destruct (String.eqb roomId r); [discriminate|].
      intros H. exists rm'. split; auto. apply sameIdentity_refl.
    + rewrite get_set.
      destruct (eqb_cases roomId r) as [[Heq Hb]|[Heq Hb]]; rewrite Hb.
      * subst r. intros H. injection H as <-. exists r0. split; auto.
        unfold sameIdentity. simpl. repeat split; auto.
      * intros H. exists rm'. split; auto. apply sameIdentity_refl.
  - intros H. exists rm'. split; auto. apply sameIdentity_refl.
Qed.

Lemma onJoin_identity st sid data now r rm' :
  JsMap.get (chatRooms (fst (onJoin st sid data now))) r = Some rm' ->
  exists rm,
    JsMap.get (chatRooms st) r = Some rm /\ sameIdentity rm rm'
    /\ owner rm' = owner rm /\ ownerName rm' = ownerName rm.
Proof.
  destruct (JsMap.get (chatRooms st) (d_room data)) as [rm|] eqn:Hget.
  - rewrite (onJoin_rooms st sid data now rm r Hget).
    destruct (eqb_cases (d_room data) r) as [[Heq Hb]|[Heq Hb]]; rewrite Hb.
    + subst r. intros H. injection H as <-. exists rm. split; auto.
      unfold sameIdentity. simpl. repeat split; auto.
    + apply leaveCurrentRoom_identity.
  - unfold onJoin. rewrite Hget. simpl. intros H. exists rm'. split; auto.
    split; [apply sameIdentity_refl | auto].
Qed.

Lemma onLeave_identity st sid data now r rm' :
  JsMap.get (chatRooms (fst (onLeave st sid data now))) r = Some rm' ->
  exists rm, JsMap.get (chatRooms st) r = Some rm /\ sameIdentity rm rm'.
Proof.
  destruct (JsMap.get (chatRooms st) (d_room data)) as [rm|] eqn:Hget.
  - rewrite (onLeave_accepted st sid data now rm Hget). cbn [fst].
    change (chatRooms (dropSession sid ?x)) with (chatRooms x).
    intros H. apply departed_identity in H. destruct H as [rm0 [H0 Hid]].
    unfold leftRoom in H0. simpl in H0. apply removeUser_identity in H0.
    destruct H0 as [rm1 [H1 [Hid1 _]]]. exists rm1. split; auto.
    eapply sameIdentity_trans; eauto.
  - unfold onLeave. rewrite Hget. simpl. intros H. exists rm'. split; auto.
    apply sameIdentity_refl.
Qed.

Lemma onDisconnect_identity st sid now r rm' :
  JsMap.get (chatRooms (fst (onDisconnect st sid now))) r = Some rm' ->
  exists rm, JsMap.get (chatRooms st) r = Some rm /\ sameIdentity rm rm'.
Proof.
  destruct (JsMap.get (connectedUsers st) sid) as [u|] eqn:Hu.
  - destruct (JsMap.get (chatRooms st) (room u)) as [rm|] eqn:Hrm.
    + rewrite (onDisconnect_accepted st sid now u rm Hu Hrm). cbn [fst].
      change (chatRooms (dropSession sid ?x)) with (chatRooms x).
      intros H. apply departed_identity in H. destruct H as [rm0 [H0 Hid]].
      simpl in H0. apply removeUser_identity in H0.
      destruct H0 as [rm1 [H1 [Hid1 _]]]. exists rm1. split; auto.
      eapply sameIdentity_trans; eauto.
    + unfold onDisconnect. cbv zeta.
      change (connectedUsers (socket_close st sid)) with (connectedUsers st).
      change (chatRooms (socket_close st sid)) with (chatRooms st).
      rewrite Hu, Hrm. simpl. intros H. exists rm'. split; auto.
      apply sameIdentity_refl.
  - unfold onDisconnect. cbv zeta.
    change (connectedUsers (socket_close st sid)) with (connectedUsers st).
    rewrite Hu. simpl. intros H. exists rm'. split; auto.
    apply sameIdentity_refl.
Qed.

(** A room stored after an input was stored before it under the same key,
    with the same id, name and creation time, or is the room an accepted
    'create room' has just made. *)
Lemma step_rooms_origin st i r rm' :
  JsMap.get (chatRooms (fst (step st i))) r = Some rm' ->
  (exists rm, JsMap.get (chatRooms st) r = Some rm /\ sameIdentity rm rm')
  \/ (exists sid data now,
        i = FromClient sid (CreateRoom data r) now
        /\ updatesRooms st (CreateRoom data r) = true
        /\ rm' = createdRoom sid data r now).
Proof.
  destruct i as [sid|sid ev now|sid now]; simpl.
  - intros H. left. exists rm'. split; auto. apply sameIdentity_refl.
  - destruct ev as [data roomId|data|msg msgId|data|]; simpl.
    + destruct (updatesRooms st (CreateRoom data roomId)) eqn:Hup.
      * rewrite (onCreateRoom_accepted st sid data roomId now Hup). cbn [fst].
        rewrite socket_join_chatRooms. simpl. rewrite get_set.
        destruct (eqb_cases roomId r) as [[Heq Hb]|[Heq Hb]]; rewrite Hb.
        -- subst r. intros H. injection H as <-. right.
           exists sid, data, now. auto.
        -- intros H. left. exists rm'. split; auto. apply sameIdentity_refl.
      * destruct (rejected_create st sid data roomId now Hup) as [e ->].
        simpl. intros H. left. exists rm'. split; auto. apply sameIdentity_refl.
    + intros H. apply onJoin_identity in H. destruct H as [rm [H1 [H2 _]]].
      left. eauto.
    + rewrite onChatMessage_state. intros H. left. exists rm'. split; auto.
      apply sameIdentity_refl.
    + intros H. apply onLeave_identity in H. left. exact H.
    + intros H. left. exists rm'. split; auto. apply sameIdentity_refl.
  - intros H. apply onDisconnect_identity in H. left. exact H.
Qed.

(** ** What never changes of a room, and the names *)

(** No input changes the id, the name, the creation time or the privacy flag
    of a room that is stored before and after it (room ids being generated
    fresh). *)
Theorem room_identity_never_changes st i r rm rm' :
  admissible st i = true ->
  JsMap.get (chatRooms st) r = Some rm ->
  JsMap.get (chatRooms (fst (step st i))) r = Some rm' ->
  sameIdentity rm rm'.
Proof.
  intros Hadm Hget Hget'.
  destruct (step_rooms_origin st i r rm' Hget')
    as [[rm0 [H0 Hid]]|[sid [data [now [-> [_ _]]]]]].
  - rewrite Hget in H0. now injection H0 as <-.
  - simpl in Hadm. apply andb_true_iff in Hadm. destruct Hadm as [_ Hfresh].
    apply negb_true_iff in Hfresh. unfold JsMap.has in Hfresh.
    rewrite Hget in Hfresh. discriminate.
Qed.

Lemma room_identity_never_changes_witness :
  admissible lobby (FromClient sockA (Leave (mkRoomData "alice" "room_1")) 40%Z)
  = true
  /\ JsMap.get (chatRooms lobby) "room_1" = Some lobbyRoom
  /\ JsMap.get
       (chatRooms
          (fst (step lobby
                  (FromClient sockA (Leave (mkRoomData "alice" "room_1")) 40%Z))))
       "room_1"
     = Some (mkRoom "room_1" "Lobby" sockB "bob"
               [mkUser sockB "bob" 20%Z false; mkUser sockC "carol" 30%Z false]
               10%Z false)
  /\ sameIdentity lobbyRoom
       (mkRoom "room_1" "Lobby" sockB "bob"
          [mkUser sockB "bob" 20%Z false; mkUser sockC "carol" 30%Z false]
          10%Z false).
Proof.
  split; [reflexivity|]. split; [reflexivity|]. split; [reflexivity|].
  exact (room_identity_never_changes lobby
           (FromClient sockA (Leave (mkRoomData "alice" "room_1")) 40%Z)
           "room_1" lobbyRoom
           (mkRoom "room_1" "Lobby" sockB "bob"
              [mkUser sockB "bob" 20%Z false; mkUser sockC "carol" 30%Z false]
              10%Z false)
           eq_refl eq_refl eq_refl).
Defined.

Lemma accepted_name_is_new st data roomId r rm :
  updatesRooms st (CreateRoom data roomId) = true ->
  JsMap.get (chatRooms st) r = Some rm ->
  toLowerCase (name rm) <> toLowerCase (trim (roomName data)).
Proof.
  simpl. intros Hup Hget Heq. apply andb_true_iff in Hup.
  destruct Hup as [_ Hex]. apply negb_true_iff in Hex.
  assert (existsb
            (fun rm0 => String.eqb (toLowerCase (name rm0))
                                   (toLowerCase (trim (roomName data))))
            (JsMap.values (chatRooms st)) = true); [|congruence].
  apply existsb_exists. exists rm. split.
  - eapply get_values; eauto.
  - rewrite Heq. apply String.eqb_refl.
Qed.

Lemma step_uniqueNames st i :
  uniqueNames (chatRooms st) -> uniqueNames (chatRooms (fst (step st i))).
Proof.
  intros Huniq r1 r2 rm1 rm2 H1 H2 Hname.
  destruct (step_rooms_origin st i r1 rm1 H1)
    as [[a [Ha [_ [Na _]]]]|[sid1 [data1 [now1 [Hi1 [Hup1 ->]]]]]];
  destruct (step_rooms_origin st i r2 rm2 H2)
    as [[b [Hb [_ [Nb _]]]]|[sid2 [data2 [now2 [Hi2 [Hup2 ->]]]]]].
  - apply (Huniq r1 r2 a b Ha Hb). congruence.
  - exfalso. apply (accepted_name_is_new st data2 r2 r1 a Hup2 Ha).
    rewrite <- Na, Hname. reflexivity.
  - exfalso. apply (accepted_name_is_new st data1 r1 r2 b Hup1 Hb).
    rewrite <- Nb, <- Hname. reflexivity.
  - rewrite Hi1 in Hi2. now injection Hi2.
Qed.

(** In every reachable state no two stored rooms have the same name up to
    letter case. *)
Theorem room_names_stay_unique st :
  reachable st -> uniqueNames (chatRooms st).
Proof.
  induction 1 as [|st i Hreach IH Hadm].
  - intros r1 r2 rm1 rm2 H. discriminate.
  - now apply step_uniqueNames.
Qed.

Lemma room_names_stay_unique_witness :
  reachable cafes
  /\ map name (JsMap.values (chatRooms cafes)) = ["Café"; "Cafe"]
  /\ uniqueNames (chatRooms cafes).
Proof.
  split; [apply reachable_run; [constructor | reflexivity]|].
  split; [reflexivity|].
  apply (room_names_stay_unique cafes).
  apply reachable_run; [constructor | reflexivity].
Defined.

Lemma rooms_keyed_by_id_aux st r rm :
  reachable st ->
  JsMap.get (chatRooms st) r = Some rm ->
  id rm = r.
Proof.
  intros Hreach. revert r rm.
  induction Hreach as [|st i Hreach IH Hadm]; intros r rm Hget.
  - discriminate.
  - destruct (step_rooms_origin st i r rm Hget)
      as [[rm0 [H0 [Hid _]]]|[sid [data [now [_ [_ ->]]]]]].
    + rewrite Hid. now apply IH.
    + reflexivity.
Qed.

(** In every reachable state a room is stored under its own id: the key in
    [chatRooms] and the [id] field (the one the rooms list shows) agree. *)
Theorem rooms_keyed_by_id st r rm :
  reachable st ->
  JsMap.get (chatRooms st) r = Some rm ->
  keyedById rm r.
Proof. intros Hreach Hget. now apply (rooms_keyed_by_id_aux st r rm). Qed.

Lemma rooms_keyed_by_id_witness :
  reachable lobby
  /\ JsMap.get (chatRooms lobby) "room_1" = Some lobbyRoom
  /\ keyedById lobbyRoom "room_1".
Proof.
  split; [apply reachable_run; [constructor | reflexivity]|].
  split; [reflexivity|].
  apply (rooms_keyed_by_id lobby "room_1" lobbyRoom).
  - apply reachable_run; [constructor | reflexivity].
  - reflexivity.
Defined.

(** In every reachable state the name of a stored room is not empty and has
    no white space at either end ([trim] leaves it as it is): names are
    stored trimmed. *)
Theorem room_names_stored_trimmed st r rm :
  reachable st ->
  JsMap.get (chatRooms st) r = Some rm ->
  name rm <> EmptyString /\ trim (name rm) = name rm.
Proof.
  intros Hreach Hget. split.
  - apply (inv_names st (reachable_invariant st Hreach) r rm Hget).
  - revert r rm Hget.
    induction Hreach as [|st i Hreach IH Hadm]; intros r rm Hget.
    + discriminate.
    + destruct (step_rooms_origin st i r rm Hget)
        as [[rm0 [H0 [_ [Hn _]]]]|[sid [data [now [_ [_ ->]]]]]].
      * rewrite Hn. eapply IH; eauto.
      * simpl. apply trim_idempotent.
Qed.

Lemma room_names_stored_trimmed_witness :
  reachable
    (run initial
       [Connection sockA;
        FromClient sockA (CreateRoom (mkCreateData "alice" cafeName) "room_1")
          10%Z])
  /\ JsMap.get
       (chatRooms
          (run initial
             [Connection sockA;
              FromClient sockA
                (CreateRoom (mkCreateData "alice" cafeName) "room_1") 10%Z]))
       "room_1"
     = Some (mkRoom "room_1" "CAFÉ" sockA "alice"
               [mkUser sockA "alice" 10%Z true] 10%Z false)
  /\ name (mkRoom "room_1" "CAFÉ" sockA "alice"
             [mkUser sockA "alice" 10%Z true] 10%Z false) <> EmptyString
  /\ trim (name (mkRoom "room_1" "CAFÉ" sockA "alice"
                   [mkUser sockA "alice" 10%Z true] 10%Z false))
     = name (mkRoom "room_1" "CAFÉ" sockA "alice"
               [mkUser sockA "alice" 10%Z true] 10%Z false).
Proof.
  split; [apply reachable_run; [constructor | reflexivity]|].
  split; [reflexivity|].
  apply (room_names_stored_trimmed
           (run initial
              [Connection sockA;
               FromClient sockA
                 (CreateRoom (mkCreateData "alice" cafeName) "room_1") 10%Z])
           "room_1").
  - apply reachable_run; [constructor | reflexivity].
  - reflexivity.
Defined.

(** ** Membership and sessions across an input *)

Lemma disconnect_session_gone st sid now :
  JsMap.get (connectedUsers (fst (onDisconnect st sid now))) sid = None.
Proof.
  destruct (JsMap.get (connectedUsers st) sid) as [u|] eqn:Hu.
  - destruct (JsMap.get (chatRooms st) (room u)) as [rm|] eqn:Hrm.
    + rewrite (onDisconnect_accepted st sid now u rm Hu Hrm). cbn [fst].
      apply dropSession_get_self.
    + unfold onDisconnect. cbv zeta.
      change (connectedUsers (socket_close st sid)) with (connectedUsers st).
      change (chatRooms (socket_close st sid)) with (chatRooms st).
      rewrite Hu, Hrm. simpl. apply get_delete_eq.
  - unfold onDisconnect. cbv zeta.
    change (connectedUsers (socket_close st sid)) with (connectedUsers st).
    rewrite Hu. simpl. exact Hu.
Qed.

Lemma leaveCurrentRoom_member st sid target r s :
  invariant st -> s <> sid ->
  (member (chatRooms (leaveCurrentRoom st sid target)) r s <->
   member (chatRooms st) r s).
Proof.
  intros Hinv Hne.
  destruct (leaveCurrentRoom_cases st sid target)
    as [->|[cu [Hcu [Hcne ->]]]]; [tauto|].
  simpl. rewrite member_removeUser by apply (inv_users st Hinv). tauto.
Qed.

Lemma onJoin_member st sid data now rm r s :
  JsMap.get (chatRooms st) (d_room data) = Some rm ->
  (member (chatRooms (fst (onJoin st sid data now))) r s <->
   member (chatRooms (leaveCurrentRoom st sid (d_room data))) r s
   \/ (r = d_room data /\ s = sid)).
Proof.
  intros Hget. unfold member at 1.
  rewrite (onJoin_rooms st sid data now rm r Hget).
  pose proof (leaveCurrentRoom_target st sid (d_room data)) as Htgt.
  rewrite Hget in Htgt.
  destruct (eqb_cases (d_room data) r) as [[Heq Hb]|[Heq Hb]]; rewrite Hb.
  - subst r. rewrite (member_ids _ _ _ s Htgt). split.
    + intros [rm' [H Hin]]. injection H as <-. simpl in Hin.
      destruct (memStr sid (ids (users rm))); auto.
      unfold ids in Hin. rewrite map_app, in_app_iff in Hin. simpl in Hin.
      destruct Hin as [Hin|[<-|[]]]; auto.
    + intros H. eexists. split; [reflexivity|]. simpl.
      destruct (memStr sid (ids (users rm))) eqn:Hm.
      * destruct H as [H|[_ ->]]; auto. now apply memStr_In.
      * unfold ids. rewrite map_app, in_app_iff. simpl.
        destruct H as [H|[_ ->]]; auto.
  - unfold member. split; [tauto|]. intros [H|[Hc _]]; [auto | congruence].
Qed.

(** An input of one socket neither adds another socket to a member list nor
    takes it out of one. *)
Lemma step_member_others st i r s :
  invariant st -> admissible st i = true -> s <> actor i ->
  (member (chatRooms (fst (step st i))) r s <-> member (chatRooms st) r s).
Proof.
  intros Hinv Hadm Hne.
  destruct i as [sid|sid ev now|sid now]; simpl in *; [tauto| |].
  - destruct ev as [data roomId|data|msg msgId|data|]; simpl.
    + destruct (updatesRooms st (CreateRoom data roomId)) eqn:Hup.
      * rewrite (onCreateRoom_accepted st sid data roomId now Hup). cbn [fst].
        rewrite socket_join_chatRooms. simpl. rewrite member_set. simpl.
        apply andb_true_iff in Hadm. destruct Hadm as [_ Hfresh].
        apply negb_true_iff in Hfresh. unfold JsMap.has in Hfresh. split.
        -- intros [[_ [Hc|[]]]|[_ H]]; [congruence | auto].
        -- intros H. right. split; auto. intros ->.
           destruct H as [rm [Hget _]]. rewrite Hget in Hfresh. discriminate.
      * destruct (rejected_create st sid data roomId now Hup) as [e ->].
        simpl. tauto.
    + destruct (JsMap.get (chatRooms st) (d_room data)) as [rm|] eqn:Hget.
      * rewrite (onJoin_member st sid data now rm r s Hget).
        rewrite (leaveCurrentRoom_member st sid (d_room data) r s Hinv Hne).
        split; [|tauto]. intros [H|[_ Hc]]; [auto | congruence].
      * unfold onJoin. rewrite Hget. simpl. tauto.
    + rewrite onChatMessage_state. tauto.
    + destruct (JsMap.get (chatRooms st) (d_room data)) as [rm|] eqn:Hget.
      * rewrite (onLeave_accepted st sid data now rm Hget). cbn [fst].
        change (chatRooms (dropSession sid ?x)) with (chatRooms x).
        rewrite departed_member. unfold leftRoom. simpl.
        rewrite member_removeUser by apply (inv_users st Hinv). tauto.
      * unfold onLeave. rewrite Hget. simpl. tauto.
    + tauto.
  - destruct (JsMap.get (connectedUsers st) sid) as [u|] eqn:Hu.
    + destruct (JsMap.get (chatRooms st) (room u)) as [rm|] eqn:Hrm.
      * rewrite (onDisconnect_accepted st sid now u rm Hu Hrm). cbn [fst].
        change (chatRooms (dropSession sid ?x)) with (chatRooms x).
        rewrite departed_member. simpl.
        rewrite member_removeUser by apply (inv_users st Hinv). tauto.
      * unfold onDisconnect. cbv zeta.
        change (connectedUsers (socket_close st sid)) with (connectedUsers st).
        change (chatRooms (socket_close st sid)) with (chatRooms st).
        rewrite Hu, Hrm. simpl. tauto.
    + unfold onDisconnect. cbv zeta.
      change (connectedUsers (socket_close st sid)) with (connectedUsers st).
      rewrite Hu. simpl. tauto.
Qed.

(** The session of a socket other than the one the input comes from names
    the room it named before. *)
Lemma step_session_others st i s u' :
  s <> actor i ->
  JsMap.get (connectedUsers (fst (step st i))) s = Some u' ->
  exists u, JsMap.get (connectedUsers st) s = Some u /\ room u' = room u.
Proof.
  intros Hne.
  destruct i as [sid|sid ev now|sid now]; simpl in *; eauto.
  - destruct ev as [data roomId|data|msg msgId|data|]; simpl; eauto.
    + destruct (updatesRooms st (CreateRoom data roomId)) eqn:Hup.
      * rewrite (onCreateRoom_accepted st sid data roomId now Hup). cbn [fst].
        rewrite socket_join_connectedUsers. simpl.
        rewrite get_set_neq by auto. eauto.
      * destruct (rejected_create st sid data roomId now Hup) as [e ->].
        simpl. eauto.
    + destruct (JsMap.get (chatRooms st) (d_room data)) as [rm|] eqn:Hget.
      * rewrite (onJoin_sessions st sid data now rm Hget).
        rewrite get_set_neq by auto. eauto.
      * unfold onJoin. rewrite Hget. simpl. eauto.
    + rewrite onChatMessage_state. eauto.
    + destruct (JsMap.get (chatRooms st) (d_room data)) as [rm|] eqn:Hget.
      * rewrite (onLeave_accepted st sid data now rm Hget). cbn [fst].
        rewrite dropSession_get.
        destruct (String.eqb sid s); [discriminate|].
        intros H. apply departed_session in H. exact H.
      * unfold onLeave. rewrite Hget. simpl. eauto.
  - destruct (JsMap.get (connectedUsers st) sid) as [u|] eqn:Hu.
    + destruct (JsMap.get (chatRooms st) (room u)) as [rm|] eqn:Hrm.
      * rewrite (onDisconnect_accepted st sid now u rm Hu Hrm). cbn [fst].
        rewrite dropSession_get.
        destruct (String.eqb sid s); [discriminate|].
        intros H. apply departed_session in H. exact H.
      * unfold onDisconnect. cbv zeta.
        change (connectedUsers (socket_close st sid)) with (connectedUsers st).
        change (chatRooms (socket_close st sid)) with (chatRooms st).
        rewrite Hu, Hrm. simpl. rewrite get_delete.
        destruct (String.eqb sid s); [discriminate | eauto].
    + unfold onDisconnect. cbv zeta.
      change (connectedUsers (socket_close st sid)) with (connectedUsers st).
      rewrite Hu. simpl. eauto.
Qed.

(** The session of the socket the input comes from, if it has one
    afterwards, names a room that lists the socket. *)
Lemma step_session_actor st i u' :
  invariant st -> sessionsJoined st -> admissible st i = true ->
  JsMap.get (connectedUsers (fst (step st i))) (actor i) = Some u' ->
  member (chatRooms (fst (step st i))) (room u') (actor i).
Proof.
  intros Hinv Hjoined Hadm.
  destruct i as [sid|sid ev now|sid now]; simpl in *.
  - intros H. apply (inv_sessions st Hinv) in H.
    apply negb_true_iff in Hadm. apply knownSocket_false in Hadm. tauto.
  - destruct ev as [data roomId|data|msg msgId|data|]; simpl.
    + destruct (updatesRooms st (CreateRoom data roomId)) eqn:Hup.
      * rewrite (onCreateRoom_accepted st sid data roomId now Hup). cbn [fst].
        rewrite socket_join_connectedUsers, socket_join_chatRooms. simpl.
        rewrite get_set_eq. intros H. injection H as <-. simpl.
        apply member_set. left. simpl. auto.
      * destruct (rejected_create st sid data roomId now Hup) as [e ->].
        simpl. apply Hjoined.
    + destruct (JsMap.get (chatRooms st) (d_room data)) as [rm|] eqn:Hget.
      * rewrite (onJoin_sessions st sid data now rm Hget), get_set_eq.
        intros H. injection H as <-. simpl.
        apply (onJoin_member st sid data now rm _ _ Hget). auto.
      * unfold onJoin. rewrite Hget. simpl. apply Hjoined.
    + rewrite onChatMessage_state. apply Hjoined.
    + destruct (JsMap.get (chatRooms st) (d_room data)) as [rm|] eqn:Hget.
      * rewrite (onLeave_accepted st sid data now rm Hget). cbn [fst].
        rewrite dropSession_get_self. discriminate.
      * unfold onLeave. rewrite Hget. simpl. apply Hjoined.
    + apply Hjoined.
  - rewrite disconnect_session_gone. discriminate.
Qed.

Lemma step_sessionsJoined st i :
  invariant st -> sessionsJoined st -> admissible st i = true ->
  sessionsJoined (fst (step st i)).
Proof.
  intros Hinv Hjoined Hadm s u' Hs.
  destruct (string_dec s (actor i)) as [->|Hne].
  - now apply step_session_actor.
  - destruct (step_session_others st i s u' Hne Hs) as [u [Hu Hroom]].
    rewrite Hroom. apply step_member_others; auto.
Qed.

Lemma reachable_sessionsJoined st : reachable st -> sessionsJoined st.
Proof.
  induction 1 as [|st i Hreach IH Hadm].
  - intros s u H. discriminate.
  - apply step_sessionsJoined; auto. now apply reachable_invariant.
Qed.

(** In every reachable state a socket that has a session is connected, and
    the room its session names is stored and has the socket in its member
    list. *)
Theorem session_names_a_joined_room st s u :
  reachable st ->
  JsMap.get (connectedUsers st) s = Some u ->
  In s (sockets st) /\ member (chatRooms st) (room u) s.
Proof.
  intros Hreach Hs. split.
  - apply (inv_sessions st (reachable_invariant st Hreach) s u Hs).
  - apply (reachable_sessionsJoined st Hreach s u Hs).
Qed.

Lemma session_names_a_joined_room_witness :
  reachable lobby
  /\ JsMap.get (connectedUsers lobby) sockC = Some (mkSession "carol" "room_1" false)
  /\ In sockC (sockets lobby)
  /\ member (chatRooms lobby) (room (mkSession "carol" "room_1" false)) sockC.
Proof.
  split; [apply reachable_run; [constructor | reflexivity]|].
  split; [reflexivity|].
  apply (session_names_a_joined_room lobby sockC
           (mkSession "carol" "room_1" false)).
  - apply reachable_run; [constructor | reflexivity].
  - reflexivity.
Defined.

(** In a reachable state, an input of one socket changes no other socket's
    membership: whoever else was in a member list is in it afterwards, and
    nobody else is added to one. *)
Theorem others_membership_untouched st i r s :
  reachable st ->
  admissible st i = true ->
  s <> actor i ->
  (member (chatRooms (fst (step st i))) r s <-> member (chatRooms st) r s).
Proof.
  intros Hreach. apply step_member_others. now apply reachable_invariant.
Qed.

Lemma others_membership_untouched_witness :
  reachable lobby
  /\ admissible lobby (Disconnect sockA 40%Z) = true
  /\ sockC <> actor (Disconnect sockA 40%Z)
  /\ (member (chatRooms (fst (step lobby (Disconnect sockA 40%Z)))) "room_1" sockC
      <-> member (chatRooms lobby) "room_1" sockC).
Proof.
  assert (Hne : sockC <> actor (Disconnect sockA 40%Z)) by discriminate.
  split; [apply reachable_run; [constructor | reflexivity]|].
  split; [reflexivity|]. split; [exact Hne|].
  apply (others_membership_untouched lobby (Disconnect sockA 40%Z) "room_1"
           sockC).
  - apply reachable_run; [constructor | reflexivity].
  - reflexivity.
  - exact Hne.
Defined.

(** In every reachable state a member list has at most one entry per
    socket. *)
Theorem member_lists_have_no_duplicates st r rm :
  reachable st ->
  JsMap.get (chatRooms st) r = Some rm ->
  NoDup (ids (users rm)).
Proof.
  intros Hreach Hget.
  apply (inv_users st (reachable_invariant st Hreach) r rm Hget).
Qed.

Lemma member_lists_have_no_duplicates_witness :
  reachable lobby
  /\ JsMap.get (chatRooms lobby) "room_1" = Some lobbyRoom
  /\ NoDup (ids (users lobbyRoom)).
Proof.
  split; [apply reachable_run; [constructor | reflexivity]|].
  split; [reflexivity|].
  apply (member_lists_have_no_duplicates lobby "room_1" lobbyRoom).
  - apply reachable_run; [constructor | reflexivity].
  - reflexivity.
Defined.

(** In every reachable state the socket.io room of an id holds exactly the
    connected sockets listed as members of the room stored under that id,
    each once: [io.to(r)] reaches those and nobody else (nobody at all when
    no room is stored under [r]). *)
Theorem socket_io_rooms_mirror_members st r :
  reachable st ->
  (forall s, In s (roomSockets st r) <->
             In s (sockets st) /\ member (chatRooms st) r s)
  /\ NoDup (roomSockets st r).
Proof.
  intros Hreach. apply reachable_invariant in Hreach. split.
  - intros s. rewrite roomSockets_In. apply (inv_adapter st Hreach r s).
  - apply roomSockets_NoDup, (inv_adapter_nodup st Hreach).
Qed.

Lemma socket_io_rooms_mirror_members_witness :
  reachable lobby
  /\ (forall s, In s (roomSockets lobby "room_1") <->
                In s (sockets lobby) /\ member (chatRooms lobby) "room_1" s)
  /\ NoDup (roomSockets lobby "room_1").
Proof.
  split; [apply reachable_run; [constructor | reflexivity]|].
  apply (socket_io_rooms_mirror_members lobby "room_1").
  apply reachable_run; [constructor | reflexivity].
Defined.

(** In every reachable state the owner flag of a session is set whenever the
    session's socket is the owner of the room the session names: the flag
    'disconnect' relies on is never missing for an owner. *)
Theorem owner_session_is_flagged st s u rm :
  reachable st ->
  JsMap.get (connectedUsers st) s = Some u ->
  JsMap.get (chatRooms st) (room u) = Some rm ->
  owner rm = s ->
  isOwner u = true.
Proof.
  intros Hreach. apply (inv_flag st (reachable_invariant st Hreach)).
Qed.

Lemma owner_session_is_flagged_witness :
  reachable (fst (step lobby (Disconnect sockA 40%Z)))
  /\ JsMap.get (connectedUsers (fst (step lobby (Disconnect sockA 40%Z)))) sockB
     = Some (mkSession "bob" "room_1" true)
  /\ JsMap.get (chatRooms (fst (step lobby (Disconnect sockA 40%Z))))
       (room (mkSession "bob" "room_1" true))
     = Some (mkRoom "room_1" "Lobby" sockB "bob"
               [mkUser sockB "bob" 20%Z false; mkUser sockC "carol" 30%Z false]
               10%Z false)
  /\ isOwner (mkSession "bob" "room_1" true) = true.
Proof.
  assert (Hr : reachable (fst (step lobby (Disconnect sockA 40%Z)))).
  { apply reachable_step; [|reflexivity].
    apply reachable_run; [constructor | reflexivity]. }
  split; [exact Hr|]. split; [reflexivity|]. split; [reflexivity|].
  exact (owner_session_is_flagged (fst (step lobby (Disconnect sockA 40%Z)))
           sockB (mkSession "bob" "room_1" true)
           (mkRoom "room_1" "Lobby" sockB "bob"
              [mkUser sockB "bob" 20%Z false; mkUser sockC "carol" 30%Z false]
              10%Z false)
           Hr eq_refl eq_refl eq_refl).
Defined.

(** ** Who is sent anything *)

Lemma adapter_connected st r s :
  invariant st -> In (r, s) (adapter st) -> In s (sockets st).
Proof. intros Hinv Hin. now apply (inv_adapter st Hinv r s) in Hin. Qed.

Lemma socket_to_emit_room st sid r e s e' :
  In (s, e') (socket_to_emit st sid r e) -> In (r, s) (adapter st).
Proof.
  unfold socket_to_emit. intros Hin. apply deliveries_In in Hin.
  destruct Hin as [Hin _]. apply filter_In in Hin. destruct Hin as [Hin _].
  now apply roomSockets_In.
Qed.

Lemma io_to_emit_room st r e s e' :
  In (s, e') (io_to_emit st r e) -> In (r, s) (adapter st).
Proof.
  unfold io_to_emit. intros Hin. apply deliveries_In in Hin.
  destruct Hin as [Hin _]. now apply roomSockets_In.
Qed.

Lemma broadcastRoomsList_recipient st now s e :
  In (s, e) (broadcastRoomsList st now) -> In s (sockets st).
Proof.
  unfold broadcastRoomsList, io_emit. intros Hin.
  apply deliveries_In in Hin. tauto.
Qed.

(** In a reachable state whatever the server emits on an input goes to
    sockets that are connected once the input is handled: never to a socket
    that has closed, the one that is disconnecting included. *)
Theorem deliveries_reach_connected_sockets st i s e :
  reachable st ->
  admissible st i = true ->
  In (s, e) (snd (step st i)) ->
  In s (sockets (fst (step st i))).
Proof.
  intros Hreach Hadm. apply reachable_invariant in Hreach.
  destruct i as [sid|sid ev now|sid now]; simpl in *; [tauto| |].
  - assert (Hsid : In sid (sockets st)).
    { destruct ev; try (now apply memStr_In).
      apply andb_true_iff in Hadm. destruct Hadm as [H _]. now apply memStr_In. }
    destruct ev as [data roomId|data|msg msgId|data|]; simpl.
    + destruct (updatesRooms st (CreateRoom data roomId)) eqn:Hup.
      * rewrite (onCreateRoom_accepted st sid data roomId now Hup).
        cbn [fst snd]. rewrite socket_join_sockets. simpl sockets.
        rewrite in_app_iff. intros [[Heq|[]]|Hin].
        -- now injection Heq as <- _.
        -- apply broadcastRoomsList_recipient in Hin.
           now rewrite socket_join_sockets in Hin.
      * destruct (rejected_create st sid data roomId now Hup) as [e0 ->].
        simpl. intros [Heq|[]]. now injection Heq as <- _.
    + pose proof (onJoin_invariant st sid data now Hreach Hsid) as Hinv'.
      pose proof (onJoin_sockets st sid data now) as Hsock.
      destruct (JsMap.get (chatRooms st) (d_room data)) as [rm|] eqn:Hget.
      * rewrite (onJoin_snd st sid data now rm Hget).
        rewrite !in_app_iff. intros [Hin|[[Heq|[]]|Hin]].
        -- apply socket_to_emit_room in Hin.
           eapply adapter_connected; eauto.
        -- injection Heq as <- _. now rewrite Hsock.
        -- now apply broadcastRoomsList_recipient in Hin.
      * unfold onJoin. rewrite Hget. simpl.
        intros [Heq|[]]. now injection Heq as <- _.
    + rewrite onChatMessage_state. unfold onChatMessage.
      destruct (falsy (m_user msg) || falsy (message msg) || falsy (m_room msg)).
      { simpl. intros [Heq|[]]. now injection Heq as <- _. }
      destruct (JsMap.get (chatRooms st) (m_room msg)) as [rm|].
      2:{ simpl. intros [Heq|[]]. now injection Heq as <- _. }
      destruct (find (isSocket sid) (users rm)).
      2:{ simpl. intros [Heq|[]]. now injection Heq as <- _. }
      cbn [snd]. intros Hin. apply io_to_emit_room in Hin.
      eapply adapter_connected; eauto.
    + rewrite onLeave_sockets.
      destruct (JsMap.get (chatRooms st) (d_room data)) as [rm|] eqn:Hget.
      * rewrite (onLeave_accepted st sid data now rm Hget). cbn [snd].
        assert (Hleft : forall r x, In (r, x) (adapter (leftRoom st sid (d_room data)))
                                    -> In x (sockets st)).
        { intros r x Hin. unfold leftRoom in Hin. simpl in Hin.
          apply filter_In in Hin. destruct Hin as [Hin _].
          eapply adapter_connected; eauto. }
        rewrite !in_app_iff. intros [Hin|[Hin|[[Heq|[]]|Hin]]].
        -- apply socket_to_emit_room in Hin. eauto.
        -- apply departed_recipients in Hin. destruct Hin as [Hin|Hin]; eauto.
        -- now injection Heq as <- _.
        -- apply broadcastRoomsList_recipient in Hin.
           change (sockets (dropSession sid ?x)) with (sockets x) in Hin.
           now rewrite departed_sockets in Hin.
      * unfold onLeave. rewrite Hget. simpl.
        intros [Heq|[]]. now injection Heq as <- _.
    + simpl. intros [Heq|[]]. now injection Heq as <- _.
  - destruct (JsMap.get (connectedUsers st) sid) as [u|] eqn:Hu.
    + destruct (JsMap.get (chatRooms st) (room u)) as [rm|] eqn:Hrm.
      * rewrite (onDisconnect_accepted st sid now u rm Hu Hrm). cbn [fst snd].
        change (sockets (dropSession sid ?x)) with (sockets x).
        rewrite departed_sockets.
        change (sockets (withChatRooms (socket_close st sid) ?m))
          with (sockets (socket_close st sid)).
        assert (Hclosed : forall r x,
                  In (r, x) (adapter (socket_close st sid)) ->
                  In x (sockets (socket_close st sid))).
        { intros r x Hin. apply socket_close_adapter in Hin.
          destruct Hin as [Hin Hne]. apply socket_close_sockets. split; auto.
          eapply adapter_connected; eauto. }
        rewrite !in_app_iff. intros [Hin|[Hin|Hin]].
        -- apply socket_to_emit_room in Hin. eauto.
        -- apply departed_recipients in Hin. destruct Hin as [Hin|Hin]; eauto.
        -- apply broadcastRoomsList_recipient in Hin.
           now rewrite departed_sockets in Hin.
      * unfold onDisconnect. cbv zeta.
        change (connectedUsers (socket_close st sid)) with (connectedUsers st).
        change (chatRooms (socket_close st sid)) with (chatRooms st).
        rewrite Hu, Hrm. simpl. tauto.
    + unfold onDisconnect. cbv zeta.
      change (connectedUsers (socket_close st sid)) with (connectedUsers st).
      rewrite Hu. simpl. tauto.
Qed.

Lemma deliveries_reach_connected_sockets_witness :
  reachable lobby
  /\ admissible lobby (Disconnect sockA 40%Z) = true
  /\ In (sockB, OwnerChanged "bob" ("bob" ++ "님이 새로운 방장이 되었습니다.") 40%Z)
        (snd (step lobby (Disconnect sockA 40%Z)))
  /\ In sockB (sockets (fst (step lobby (Disconnect sockA 40%Z)))).
Proof.
  assert (Hin : In (sockB,
                    OwnerChanged "bob" ("bob" ++ "님이 새로운 방장이 되었습니다.")
                      40%Z)
                   (snd (step lobby (Disconnect sockA 40%Z)))).
  { vm_compute. tauto. }
  split; [apply reachable_run; [constructor | reflexivity]|].
  split; [reflexivity|]. split; [exact Hin|].
  apply (deliveries_reach_connected_sockets lobby (Disconnect sockA 40%Z) sockB
           (OwnerChanged "bob" ("bob" ++ "님이 새로운 방장이 되었습니다.") 40%Z)).
  - apply reachable_run; [constructor | reflexivity].
  - reflexivity.
  - exact Hin.
Defined.

(** ** What only a departure does *)

(** No input other than a 'leave' or a 'disconnect' deletes a stored room or
    changes its owner: after a connection, a 'create room' (with a fresh
    id), a 'join' - also one that takes the owner out of the room it was in
    -, a 'chat message' or a 'get rooms', every room stored before is still
    stored, with the same owner and owner name. *)
Theorem only_departures_touch_owners st i r rm :
  admissible st i = true ->
  isDeparture i = false ->
  JsMap.get (chatRooms st) r = Some rm ->
  exists rm',
    JsMap.get (chatRooms (fst (step st i))) r = Some rm'
    /\ owner rm' = owner rm /\ ownerName rm' = ownerName rm.
Proof.
  intros Hadm Hdep Hget.
  destruct i as [sid|sid ev now|sid now]; simpl in *; eauto; [|discriminate].
  destruct ev as [data roomId|data|msg msgId|data|]; simpl; eauto.
  - destruct (updatesRooms st (CreateRoom data roomId)) eqn:Hup.
    + rewrite (onCreateRoom_accepted st sid data roomId now Hup). cbn [fst].
      rewrite socket_join_chatRooms. simpl.
      apply andb_true_iff in Hadm. destruct Hadm as [_ Hfresh].
      apply negb_true_iff in Hfresh. unfold JsMap.has in Hfresh.
      rewrite get_set_neq; eauto.
      intros ->. rewrite Hget in Hfresh. discriminate.
    + destruct (rejected_create st sid data roomId now Hup) as [e ->].
      simpl. eauto.
  - destruct (JsMap.get (chatRooms st) (d_room data)) as [rmj|] eqn:Hj.
    + rewrite (onJoin_rooms st sid data now rmj r Hj).
      destruct (eqb_cases (d_room data) r) as [[Heq Hb]|[Heq Hb]]; rewrite Hb.
      * subst r. rewrite Hget in Hj. injection Hj as <-.
        eexists. split; [reflexivity|]. simpl. auto.
      * now apply leaveCurrentRoom_kept.
    + unfold onJoin. rewrite Hj. simpl. eauto.
  - rewrite onChatMessage_state. eauto.
  - discriminate.
Qed.

Lemma only_departures_touch_owners_witness :
  admissible (run initial moveRun) moveJoin = true
  /\ isDeparture moveJoin = false
  /\ JsMap.get (chatRooms (run initial moveRun)) "room_1"
     = Some (mkRoom "room_1" "One" sockA "alice"
               [mkUser sockA "alice" 10%Z true; mkUser sockB "bob" 20%Z false]
               10%Z false)
  /\ exists rm',
       JsMap.get (chatRooms (fst (step (run initial moveRun) moveJoin))) "room_1"
       = Some rm'
       /\ owner rm'
          = owner (mkRoom "room_1" "One" sockA "alice"
                     [mkUser sockA "alice" 10%Z true;
                      mkUser sockB "bob" 20%Z false] 10%Z false)
       /\ ownerName rm'
          = ownerName (mkRoom "room_1" "One" sockA "alice"
                         [mkUser sockA "alice" 10%Z true;
                          mkUser sockB "bob" 20%Z false] 10%Z false).
Proof.
  split; [reflexivity|]. split; [reflexivity|]. split; [reflexivity|].
  exact (only_departures_touch_owners (run initial moveRun) moveJoin "room_1"
           (mkRoom "room_1" "One" sockA "alice"
              [mkUser sockA "alice" 10%Z true; mkUser sockB "bob" 20%Z false]
              10%Z false)
           eq_refl eq_refl eq_refl).
Defined.

(** ** Round trips *)

Lemma jsmap_delete_set_same {V : Type} (m : JsMap.t V) k v :
  JsMap.delete (JsMap.set m k v) k = JsMap.delete m k.
Proof.
  induction m as [|[k0 v0] m IH]; simpl.
  - now rewrite String.eqb_refl.
  - destruct (String.eqb k0 k) eqn:E; simpl.
    + now rewrite String.eqb_refl.
    + now rewrite E, IH.
Qed.

Lemma filter_absent_pair (p : RoomId * SocketId) l :
  ~ In p l -> filter (fun q => negb (pairEqb p q)) l = l.
Proof.
  induction l as [|q l IH]; simpl; auto.
  intros Hn. destruct (pairEqb p q) eqn:E.
  - apply pairEqb_true in E. subst q. tauto.
  - simpl. f_equal. apply IH. tauto.
Qed.

(** Joining the socket.io room and leaving it again. *)
Lemma socket_leave_join st sid r :
  ~ In (r, sid) (adapter st) ->
  adapter (socket_leave (socket_join st sid r) sid r) = adapter st.
Proof.
  intros Hn. unfold socket_leave, socket_join.
  destruct (existsb (pairEqb (r, sid)) (adapter st)) eqn:E; simpl.
  - now apply filter_absent_pair.
  - rewrite filter_app. simpl.
    assert (Hp : pairEqb (r, sid) (r, sid) = true) by now apply pairEqb_true.
    rewrite Hp. simpl. rewrite app_nil_r. now apply filter_absent_pair.
Qed.

Lemma removeUser_eq rooms roomId sid rm :
  JsMap.get rooms roomId = Some rm ->
  fst (removeUserFromRoom rooms roomId sid)
  = JsMap.set rooms roomId (setUsers rm (dropUser sid (users rm))).
Proof.
  intros Hget. unfold removeUserFromRoom. rewrite Hget.
  pose proof (splice_findIndex sid (users rm)) as Hs.
  destruct (findIndex (isSocket sid) (users rm)) as [i|]; simpl.
  - now rewrite Hs.
  - rewrite <- Hs, setUsers_same. symmetry. now apply jsmap_set_get.
Qed.

Lemma dropUser_appended sid us u :
  ~ In sid (ids us) -> socketId u = sid -> dropUser sid (us ++ [u]) = us.
Proof.
  intros Hn Hu. induction us as [|v us IH]; simpl.
  - apply isSocket_true in Hu. now rewrite Hu.
  - simpl in Hn. destruct (isSocket sid v) eqn:E.
    + apply isSocket_true in E. tauto.
    + f_equal. apply IH. tauto.
Qed.

Lemma not_member_not_in_adapter st r s :
  invariant st -> ~ member (chatRooms st) r s -> ~ In (r, s) (adapter st).
Proof.
  intros Hinv Hn Hin. apply (inv_adapter st Hinv r s) in Hin. tauto.
Qed.

(** In a reachable state, a socket that creates a room (fresh id) and leaves
    it right away brings the server back to the rooms, connected sockets
    and socket.io rooms it had; only the socket's session is gone. *)
Theorem create_then_leave_restores st sid data roomId dataL now now' :
  reachable st ->
  updatesRooms st (CreateRoom data roomId) = true ->
  JsMap.get (chatRooms st) roomId = None ->
  d_room dataL = roomId ->
  fst (step (fst (step st (FromClient sid (CreateRoom data roomId) now)))
            (FromClient sid (Leave dataL) now'))
  = dropSession sid st.
Proof.
  intros Hreach Hup Hfresh HL. apply reachable_invariant in Hreach.
  simpl step. rewrite (onCreateRoom_accepted st sid data roomId now Hup).
  cbn [fst].
  set (st3 := socket_join _ sid roomId).
  assert (Hrooms3 : chatRooms st3
                    = JsMap.set (chatRooms st) roomId
                        (createdRoom sid data roomId now))
    by (unfold st3; now rewrite socket_join_chatRooms).
  assert (Hsess3 : connectedUsers st3
                   = JsMap.set (connectedUsers st) sid
                       (mkSession (c_user data) roomId true))
    by (unfold st3; now rewrite socket_join_connectedUsers).
  assert (Hsock3 : sockets st3 = sockets st)
    by (unfold st3; now rewrite socket_join_sockets).
  assert (Hadp3 : adapter (socket_leave st3 sid roomId) = adapter st).
  { unfold st3. apply (socket_leave_join
      (withConnectedUsers
         (withChatRooms st
            (JsMap.set (chatRooms st) roomId (createdRoom sid data roomId now)))
         (JsMap.set (connectedUsers st) sid (mkSession (c_user data) roomId true)))
      sid roomId).
    simpl. apply not_member_not_in_adapter; auto.
    intros [rm [H _]]. congruence. }
  assert (Hget3 : JsMap.get (chatRooms st3) (d_room dataL)
                  = Some (createdRoom sid data roomId now))
    by (rewrite HL, Hrooms3; apply get_set_eq).
  rewrite (onLeave_accepted st3 sid dataL now' _ Hget3). cbn [fst].
  simpl owner. rewrite String.eqb_refl. unfold departed.
  assert (Hleft : JsMap.get (chatRooms (leftRoom st3 sid (d_room dataL)))
                    (d_room dataL)
                  = Some (setUsers (createdRoom sid data roomId now) [])).
  { rewrite (leftRoom_room st3 sid (d_room dataL) _ Hget3). simpl.
    unfold isSocket. simpl. now rewrite String.eqb_refl. }
  rewrite (ownerLeft_deletes _ (d_room dataL) _ now' _ Hleft eq_refl).
  cbn [og_state]. unfold dropSession, leftRoom, withConnectedUsers,
    withChatRooms. cbn [chatRooms connectedUsers sockets adapter].
  rewrite HL in *.
  change (connectedUsers (socket_leave st3 sid roomId)) with (connectedUsers st3).
  change (sockets (socket_leave st3 sid roomId)) with (sockets st3).
  rewrite Hadp3, Hsess3, Hsock3.
  rewrite (removeUser_eq (chatRooms st3) roomId sid _ Hget3), Hrooms3.
  rewrite jsmap_set_set, jsmap_delete_set by exact Hfresh.
  now rewrite jsmap_delete_set_same.
Qed.

Lemma create_then_leave_restores_witness :
  reachable lobby
  /\ updatesRooms lobby (CreateRoom (mkCreateData "bob" "Den") "room_2") = true
  /\ JsMap.get (chatRooms lobby) "room_2" = None
  /\ d_room (mkRoomData "bob" "room_2") = "room_2"
  /\ fst (step (fst (step lobby
                       (FromClient sockB
                          (CreateRoom (mkCreateData "bob" "Den") "room_2") 40%Z)))
               (FromClient sockB (Leave (mkRoomData "bob" "room_2")) 50%Z))
     = dropSession sockB lobby.
Proof.
  split; [apply reachable_run; [constructor | reflexivity]|].
  split; [reflexivity|]. split; [reflexivity|]. split; [reflexivity|].
  apply (create_then_leave_restores lobby sockB (mkCreateData "bob" "Den")
           "room_2" (mkRoomData "bob" "room_2") 40%Z 50%Z).
  - apply reachable_run; [constructor | reflexivity].
  - reflexivity.
  - reflexivity.
  - reflexivity.
Defined.

(** In a reachable state, a socket with no session that joins a stored room
    it is neither a member nor the owner of, and then leaves it, brings the
    server back to exactly the state it was in: the room object, the
    sessions and the socket.io rooms are as before. *)
Theorem join_then_leave_restores st sid data dataL now now' rm :
  reachable st ->
  JsMap.get (connectedUsers st) sid = None ->
  JsMap.get (chatRooms st) (d_room data) = Some rm ->
  ~ In sid (ids (users rm)) ->
  owner rm <> sid ->
  d_room dataL = d_room data ->
  fst (step (fst (step st (FromClient sid (Join data) now)))
            (FromClient sid (Leave dataL) now'))
  = st.
Proof.
  intros Hreach Hnone Hget Hnin Hown HL. apply reachable_invariant in Hreach.
  simpl step.
  assert (Hlcr : leaveCurrentRoom st sid (d_room data) = st)
    by (unfold leaveCurrentRoom; now rewrite Hnone).
  set (rmj := setUsers rm (users rm ++ [joinedUser sid data rm now])).
  assert (Hfst : fst (onJoin st sid data now)
                 = socket_join
                     (withChatRooms
                        (withConnectedUsers st
                           (JsMap.set (connectedUsers st) sid
                              (mkSession (d_user data) (d_room data)
                                 (String.eqb (owner rm) sid))))
                        (JsMap.set (chatRooms st) (d_room data) rmj))
                     sid (d_room data)).
  { unfold onJoin. rewrite Hget. cbv zeta. cbn [fst]. rewrite Hlcr.
    destruct (findIndex (isSocket sid) (users rm)) eqn:Hfi; [|reflexivity].
    exfalso. apply Hnin.
    destruct (in_dec string_dec sid (ids (users rm))) as [H|H]; auto.
    apply findIndex_None_ids in H. congruence. }
  rewrite Hfst.
  set (st2 := withChatRooms _ (JsMap.set (chatRooms st) (d_room data) rmj)).
  assert (Hget4 : JsMap.get (chatRooms (socket_join st2 sid (d_room data)))
                    (d_room dataL) = Some rmj).
  { rewrite HL, socket_join_chatRooms. unfold st2. simpl. apply get_set_eq. }
  rewrite (onLeave_accepted _ sid dataL now' rmj Hget4). cbn [fst].
  simpl owner. apply String.eqb_neq in Hown. rewrite Hown.
  unfold departed, ownerStays. cbn [og_state].
  unfold dropSession, leftRoom, withConnectedUsers, withChatRooms.
  cbn [chatRooms connectedUsers sockets adapter].
  rewrite HL in *.
  rewrite (removeUser_eq _ (d_room data) sid rmj Hget4).
  change (connectedUsers (socket_leave ?a sid (d_room data)))
    with (connectedUsers a).
  change (sockets (socket_leave ?a sid (d_room data))) with (sockets a).
  rewrite socket_join_chatRooms, socket_join_connectedUsers,
    socket_join_sockets.
  assert (Hadp : adapter (socket_leave (socket_join st2 sid (d_room data)) sid
                            (d_room data)) = adapter st).
  { rewrite socket_leave_join; [reflexivity|]. unfold st2. simpl.
    apply not_member_not_in_adapter; auto.
    rewrite (member_ids _ _ _ sid Hget). exact Hnin. }
  rewrite Hadp. unfold st2. simpl.
  rewrite jsmap_set_set.
  rewrite (dropUser_appended sid (users rm) (joinedUser sid data rm now) Hnin
             eq_refl).
  change (setUsers rmj (users rm)) with (setUsers rm (users rm)).
  rewrite setUsers_same, (jsmap_set_get _ _ _ Hget).
  rewrite (jsmap_delete_set _ _ _ Hnone).
  now destruct st.
Qed.

Lemma join_then_leave_restores_witness :
  reachable twoRooms
  /\ JsMap.get (connectedUsers twoRooms) sockB = None
  /\ fst (step (fst (step twoRooms
                       (FromClient sockB (Join (mkRoomData "bob" "room_1")) 30%Z)))
               (FromClient sockB (Leave (mkRoomData "bob" "room_1")) 40%Z))
     = twoRooms.
Proof.
  assert (Hn : ~ In sockB
         (ids (users (mkRoom "room_1" "One" sockA "alice"
                        [mkUser sockA "alice" 10%Z true] 10%Z false)))).
  { simpl. intros [H|[]]. discriminate. }
  assert (Ho : owner (mkRoom "room_1" "One" sockA "alice"
                        [mkUser sockA "alice" 10%Z true] 10%Z false) <> sockB)
    by discriminate.
  split; [apply reachable_run; [constructor | reflexivity]|].
  split; [reflexivity|].
  apply (join_then_leave_restores twoRooms sockB (mkRoomData "bob" "room_1")
           (mkRoomData "bob" "room_1") 30%Z 40%Z
           (mkRoom "room_1" "One" sockA "alice" [mkUser sockA "alice" 10%Z true]
              10%Z false)).
  - apply reachable_run; [constructor | reflexivity].
  - reflexivity.
  - reflexivity.
  - exact Hn.
  - exact Ho.
  - reflexivity.
Defined.

(** ** Keys *)

Lemma keys_set_In {V : Type} (m : JsMap.t V) k v k' :
  In k' (keys (JsMap.set m k v)) <-> In k' (keys m) \/ k' = k.
Proof.
  unfold keys. induction m as [|[k0 v0] m IH]; simpl.
  - intuition.
  - destruct (String.eqb k0 k) eqn:E; simpl.
    + apply String.eqb_eq in E. subst k0. intuition.
    + rewrite IH. intuition.
Qed.

Lemma keys_set_NoDup {V : Type} (m : JsMap.t V) k v :
  NoDup (keys m) -> NoDup (keys (JsMap.set m k v)).
Proof.
  unfold keys. induction m as [|[k0 v0] m IH]; simpl; intros Hnd.
  - repeat constructor. simpl. tauto.
  - inversion Hnd as [|? ? Hnotin Hnd']; subst.
    destruct (eqb_cases k0 k) as [[Heq Hb]|[Heq Hb]]; rewrite Hb; simpl.
    + subst k0. now constructor.
    + constructor; auto. intros Hin.
      apply (keys_set_In m k v k0) in Hin. destruct Hin as [Hin|Hin]; auto.
Qed.

Lemma keys_delete_In {V : Type} (m : JsMap.t V) k k' :
  In k' (keys (JsMap.delete m k)) -> In k' (keys m).
Proof.
  unfold keys. induction m as [|[k0 v0] m IH]; simpl; auto.
  destruct (String.eqb k0 k); simpl; intuition.
Qed.

Lemma keys_delete_NoDup {V : Type} (m : JsMap.t V) k :
  NoDup (keys m) -> NoDup (keys (JsMap.delete m k)).
Proof.
  unfold keys. induction m as [|[k0 v0] m IH]; simpl; intros Hnd; auto.
  inversion Hnd as [|? ? Hnotin Hnd']; subst.
  destruct (String.eqb k0 k); simpl; auto.
  constructor; auto. intros Hin. apply Hnotin.
  now apply (keys_delete_In m k k0).
Qed.

Lemma keys_get {V : Type} (m : JsMap.t V) k :
  In k (keys m) <-> exists v, JsMap.get m k = Some v.
Proof.
  unfold keys. induction m as [|[k0 v0] m IH]; simpl.
  - split; [tauto | intros [v H]; discriminate].
  - destruct (eqb_cases k0 k) as [[Heq Hb]|[Heq Hb]]; rewrite Hb.
    + split; eauto.
    + rewrite <- IH. intuition.
Qed.

Lemma entry_get {V : Type} (m : JsMap.t V) k v :
  NoDup (keys m) -> In (k, v) m -> JsMap.get m k = Some v.
Proof.
  unfold keys. induction m as [|[k0 v0] m IH]; simpl; [tauto|].
  intros Hnd Hin. inversion Hnd as [|? ? Hnotin Hnd']; subst.
  destruct Hin as [Heq|Hin].
  - injection Heq as -> ->. now rewrite String.eqb_refl.
  - destruct (eqb_cases k0 k) as [[Heq Hb]|[Heq Hb]]; rewrite Hb; auto.
    subst k0. exfalso. apply Hnotin. apply in_map_iff. exists (k, v). auto.
Qed.

Lemma removeUser_keys rooms roomId sid :
  NoDup (keys rooms) -> NoDup (keys (fst (removeUserFromRoom rooms roomId sid))).
Proof.
  intros Hnd. unfold removeUserFromRoom.
  destruct (JsMap.get rooms roomId) as [rm|]; auto.
  destruct (findIndex (isSocket sid) (users rm)); simpl; auto.
  now apply keys_set_NoDup.
Qed.

Lemma markOwner_keys m sid : NoDup (keys m) -> NoDup (keys (markOwner m sid)).
Proof.
  intros Hnd. unfold markOwner. destruct (JsMap.get m sid); auto.
  now apply keys_set_NoDup.
Qed.

Lemma departed_wellKeyed st roomId rm now b :
  wellKeyed st -> wellKeyed (og_state (departed st roomId rm now b)).
Proof.
  intros [Hr Hs]. destruct b; simpl; [|split; auto].
  destruct (ownerLeft_cases st roomId rm now)
    as [[-> _]|[[_ ->]|[r0 [n [us [_ [_ ->]]]]]]]; simpl; split; simpl; auto.
  - now apply keys_delete_NoDup.
  - now apply keys_delete_NoDup.
  - now apply keys_set_NoDup.
  - destruct (memStr (socketId n) (sockets st)); auto.
    now apply markOwner_keys.
Qed.

Lemma dropSession_wellKeyed sid st : wellKeyed st -> wellKeyed (dropSession sid st).
Proof.
  intros [Hr Hs]. split; simpl; auto. now apply keys_delete_NoDup.
Qed.

Lemma step_wellKeyed st i : wellKeyed st -> wellKeyed (fst (step st i)).
Proof.
  intros Hwk. pose proof Hwk as [Hr Hs].
  destruct i as [sid|sid ev now|sid now]; simpl; auto.
  - destruct ev as [data roomId|data|msg msgId|data|]; simpl; auto.
    + destruct (updatesRooms st (CreateRoom data roomId)) eqn:Hup.
      * rewrite (onCreateRoom_accepted st sid data roomId now Hup). cbn [fst].
        unfold wellKeyed.
        rewrite socket_join_chatRooms, socket_join_connectedUsers. simpl.
        split; now apply keys_set_NoDup.
      * destruct (rejected_create st sid data roomId now Hup) as [e ->]. auto.
    + unfold onJoin.
      destruct (JsMap.get (chatRooms st) (d_room data)) as [rm|]; auto.
      cbv zeta. cbn [fst]. unfold wellKeyed.
      rewrite socket_join_chatRooms, socket_join_connectedUsers.
      assert (H1 : NoDup (keys (chatRooms (leaveCurrentRoom st sid (d_room data))))).
      { destruct (leaveCurrentRoom_cases st sid (d_room data))
          as [->|[cu [_ [_ ->]]]]; auto.
        simpl. now apply removeUser_keys. }
      rewrite <- (leaveCurrentRoom_connectedUsers_eq st sid (d_room data)) in Hs.
      destruct (findIndex (isSocket sid) (users rm)); simpl; split;
        auto using keys_set_NoDup.
    + now rewrite onChatMessage_state.
    + destruct (JsMap.get (chatRooms st) (d_room data)) as [rm|] eqn:Hget.
      * rewrite (onLeave_accepted st sid data now rm Hget). cbn [fst].
        apply dropSession_wellKeyed, departed_wellKeyed.
        split; simpl; auto. now apply removeUser_keys.
      * unfold onLeave. now rewrite Hget.
  - destruct (JsMap.get (connectedUsers st) sid) as [u|] eqn:Hu.
    + destruct (JsMap.get (chatRooms st) (room u)) as [rm|] eqn:Hrm.
      * rewrite (onDisconnect_accepted st sid now u rm Hu Hrm). cbn [fst].
        apply dropSession_wellKeyed, departed_wellKeyed.
        split; simpl; auto. now apply removeUser_keys.
      * unfold onDisconnect. cbv zeta.
        change (connectedUsers (socket_close st sid)) with (connectedUsers st).
        change (chatRooms (socket_close st sid)) with (chatRooms st).
        rewrite Hu, Hrm. simpl. split; simpl; auto.
        now apply keys_delete_NoDup.
    + unfold onDisconnect. cbv zeta.
      change (connectedUsers (socket_close st sid)) with (connectedUsers st).
      rewrite Hu. simpl. split; auto.
Qed.

Lemma reachable_wellKeyed st : reachable st -> wellKeyed st.
Proof.
  induction 1 as [|st i Hreach IH Hadm].
  - split; constructor.
  - now apply step_wellKeyed.
Qed.

(** In every reachable state there are at most as many sessions in
    [connectedUsers] as there are connected sockets. *)
Theorem sessions_never_exceed_sockets st :
  reachable st ->
  JsMap.size (connectedUsers st) <= List.length (sockets st).
Proof.
  intros Hreach.
  destruct (reachable_wellKeyed st Hreach) as [_ Hs].
  pose proof (inv_sessions st (reachable_invariant st Hreach)) as Hlive.
  unfold JsMap.size.
  replace (List.length (connectedUsers st))
    with (List.length (keys (connectedUsers st)))
    by (unfold keys; apply length_map).
  apply NoDup_incl_length; auto.
  intros k Hk. apply keys_get in Hk. destruct Hk as [u Hu]. eauto.
Qed.

Lemma sessions_never_exceed_sockets_witness :
  reachable twoRooms
  /\ JsMap.size (connectedUsers twoRooms) <= List.length (sockets twoRooms).
Proof.
  split; [apply reachable_run; [constructor | reflexivity]|].
  apply (sessions_never_exceed_sockets twoRooms).
  apply reachable_run; [constructor | reflexivity].
Defined.

(** In every reachable state the rooms list has one row per stored room and
    no other: a row is in the list exactly when it is the summary of a room
    stored under the row's id, and no id appears in two rows. *)
Theorem rooms_list_shows_stored_rooms st :
  reachable st ->
  (forall row,
      In row (roomsList st) <->
      exists rm, JsMap.get (chatRooms st) (s_id row) = Some rm /\ row = summary rm)
  /\ NoDup (map s_id (roomsList st)).
Proof.
  intros Hreach.
  destruct (reachable_wellKeyed st Hreach) as [Hr _].
  assert (Hkey : forall r rm, JsMap.get (chatRooms st) r = Some rm -> id rm = r)
    by (intros r rm H; apply (rooms_keyed_by_id_aux st r rm Hreach H)).
  assert (Hentry : forall k rm, In (k, rm) (chatRooms st) ->
                                JsMap.get (chatRooms st) k = Some rm)
    by (intros k rm; now apply entry_get).
  split.
  - intros row. unfold roomsList, JsMap.values. rewrite map_map, in_map_iff.
    split.
    + intros [[k rm] [Hrow Hin]]. simpl in Hrow. subst row.
      exists rm. split; auto. simpl. apply Hentry in Hin.
      now rewrite (Hkey _ _ Hin).
    + intros [rm [Hget ->]]. simpl in Hget.
      assert (Hin : In rm (JsMap.values (chatRooms st)))
        by (eapply get_values; eauto).
      unfold JsMap.values in Hin. apply in_map_iff in Hin.
      destruct Hin as [[k rm'] [Heq Hin]]. simpl in Heq. subst rm'.
      exists (k, rm). auto.
  - unfold roomsList, JsMap.values. rewrite !map_map.
    replace (map (fun x => s_id (summary (snd x))) (chatRooms st))
      with (keys (chatRooms st)); auto.
    unfold keys. apply map_ext_in. intros [k rm] Hin. simpl.
    symmetry. apply Hkey. now apply Hentry.
Qed.

Lemma rooms_list_shows_stored_rooms_witness :
  reachable twoRooms
  /\ (forall row,
        In row (roomsList twoRooms) <->
        exists rm,
          JsMap.get (chatRooms twoRooms) (s_id row) = Some rm /\ row = summary rm)
  /\ NoDup (map s_id (roomsList twoRooms)).
Proof.
  split; [apply reachable_run; [constructor | reflexivity]|].
  apply (rooms_list_shows_stored_rooms twoRooms).
  apply reachable_run; [constructor | reflexivity].
Defined.

(** ** Who hears of a departure *)

Lemma departed_out_owner_events st roomId rm now b s e :
  In (s, e) (og_out (departed st roomId rm now b)) -> isOwnerEvent e = true.
Proof.
  destruct b; simpl; [|tauto].
  destruct (ownerLeft_cases st roomId rm now)
    as [[-> _]|[[_ ->]|[r0 [n [us [_ [_ ->]]]]]]]; simpl; try tauto.
  rewrite in_app_iff. intros [Hin|Hin].
  - destruct (memStr (socketId n) (sockets st)); [|destruct Hin].
    destruct Hin as [Heq|[]]. now injection Heq as _ <-.
  - apply deliveries_In in Hin. destruct Hin as [_ ->]. reflexivity.
Qed.

(** In a reachable state, the 'user left' event of an accepted 'leave'
    reaches the connected members of the room other than the leaving socket,
    and no one else: the leaving socket is not told of its own departure. *)
Theorem leave_notifies_the_others st sid data now rm s :
  reachable st ->
  JsMap.get (chatRooms st) (d_room data) = Some rm ->
  (In (s, UserLeft (d_user data) (d_user data ++ "님이 채팅방을 나갔습니다.") now
            (String.eqb (owner rm) sid))
      (snd (step st (FromClient sid (Leave data) now)))
   <-> s <> sid /\ In s (sockets st) /\ In s (ids (users rm))).
Proof.
  intros Hreach Hget. apply reachable_invariant in Hreach.
  simpl step. rewrite (onLeave_accepted st sid data now rm Hget). cbn [snd].
  rewrite !in_app_iff. unfold socket_to_emit. rewrite deliveries_In.
  rewrite filter_In, negb_true_iff, String.eqb_neq, roomSockets_In.
  unfold leftRoom.
  change (adapter (withChatRooms ?a ?m)) with (adapter a).
  rewrite socket_leave_In, (inv_adapter st Hreach (d_room data) s).
  rewrite (member_ids _ _ _ s Hget). split.
  - intros [[[[[Hs Hin] _] Hne] _]|[Hc|[[Hc|[]]|Hc]]].
    + auto.
    + apply departed_out_owner_events in Hc. discriminate.
    + discriminate.
    + unfold broadcastRoomsList, io_emit in Hc. apply deliveries_In in Hc.
      destruct Hc as [_ Hc]. discriminate.
  - intros [Hne [Hs Hin]]. left. repeat split; auto.
    intros Heq. injection Heq as ->. now apply Hne.
Qed.

Lemma leave_notifies_the_others_witness :
  reachable lobby
  /\ JsMap.get (chatRooms lobby) (d_room (mkRoomData "bob" "room_1"))
     = Some lobbyRoom
  /\ (In (sockC, UserLeft "bob" ("bob" ++ "님이 채팅방을 나갔습니다.") 40%Z
                   (String.eqb (owner lobbyRoom) sockB))
         (snd (step lobby
                 (FromClient sockB (Leave (mkRoomData "bob" "room_1")) 40%Z)))
      <-> sockC <> sockB /\ In sockC (sockets lobby)
          /\ In sockC (ids (users lobbyRoom))).
Proof.
  split; [apply reachable_run; [constructor | reflexivity]|].
  split; [reflexivity|].
  apply (leave_notifies_the_others lobby sockB (mkRoomData "bob" "room_1") 40%Z
           lobbyRoom sockC).
  - apply reachable_run; [constructor | reflexivity].
  - reflexivity.
Defined.
